(** * Motion: a drag-and-deceleration engine (src/motion.js, class Draggable)

    Shallow embedding of the first [Draggable] class of src/motion.js
    (lines 1-578): the event bus ([on], [off], [once], [trigger]), the
    bounds calculation ([getBoundsRelativeTo]), the pointer handlers
    ([onMouseDown], [onMouseMove], [onMouseUp]) and the deceleration
    scheduler ([animateDeceleration], [progressAnimations]).

    Numbers.  A JavaScript number is modelled as an exact rational or one
    of the three non-finite values [+Infinity], [-Infinity], [NaN].  The
    arithmetic on the non-finite values follows IEEE 754 as JavaScript
    exposes it; rounding, overflow and the sign of zero are not modelled
    (every zero is [+0]). *)

From Stdlib Require Import QArith Qabs Qround Lqa ZArith Lia Bool.
From stdpp Require Import gmap strings list.

Local Open Scope Q_scope.

(* ================================================================== *)
(** ** JavaScript numbers *)
(* ================================================================== *)

Module JSNum.

Inductive num : Type :=
| Fin (q : Q)
| PInf
| NInf
| NaN.

Definition inf (positive : bool) : num := if positive then PInf else NInf.

(** [x * (+-Infinity)] and [x / 0] for a finite [x]: the sign of [x]
    selects the infinity, and a zero [x] gives [NaN]. *)
Definition scale_inf (positive : bool) (x : Q) : num :=
  if Qeq_bool x 0 then NaN
  else if Qle_bool 0 x then inf positive else inf (negb positive).

Definition neg (a : num) : num :=
  match a with
  | Fin x => Fin (- x)
  | PInf => NInf
  | NInf => PInf
  | NaN => NaN
  end.

Definition add (a b : num) : num :=
  match a, b with
  | Fin x, Fin y => Fin (x + y)
  | NaN, _ | _, NaN => NaN
  | PInf, NInf | NInf, PInf => NaN
  | PInf, _ | _, PInf => PInf
  | NInf, _ | _, NInf => NInf
  end.

Definition sub (a b : num) : num := add a (neg b).

Definition mul (a b : num) : num :=
  match a, b with
  | Fin x, Fin y => Fin (x * y)
  | NaN, _ | _, NaN => NaN
  | PInf, Fin y | Fin y, PInf => scale_inf true y
  | NInf, Fin y | Fin y, NInf => scale_inf false y
  | PInf, PInf | NInf, NInf => PInf
  | PInf, NInf | NInf, PInf => NInf
  end.

Definition div (a b : num) : num :=
  match a, b with
  | NaN, _ | _, NaN => NaN
  | Fin x, Fin y => if Qeq_bool y 0 then scale_inf true x else Fin (x / y)
  | Fin _, (PInf | NInf) => Fin 0
  | PInf, Fin y => if Qle_bool 0 y then PInf else NInf
  | NInf, Fin y => if Qle_bool 0 y then NInf else PInf
  | (PInf | NInf), (PInf | NInf) => NaN
  end.

(** [Math.abs], [Math.min], [Math.max], [Math.sign]. *)
Definition Math_abs (a : num) : num :=
  match a with
  | Fin x => Fin (Qabs x)
  | PInf | NInf => PInf
  | NaN => NaN
  end.

Definition Math_min (a b : num) : num :=
  match a, b with
  | NaN, _ | _, NaN => NaN
  | NInf, _ | _, NInf => NInf
  | PInf, c | c, PInf => c
  | Fin x, Fin y => if Qle_bool x y then Fin x else Fin y
  end.

Definition Math_max (a b : num) : num :=
  match a, b with
  | NaN, _ | _, NaN => NaN
  | PInf, _ | _, PInf => PInf
  | NInf, c | c, NInf => c
  | Fin x, Fin y => if Qle_bool x y then Fin y else Fin x
  end.

Definition Math_sign (a : num) : num :=
  match a with
  | Fin x => if Qeq_bool x 0 then Fin 0
             else if Qle_bool 0 x then Fin 1 else Fin (-1)
  | PInf => Fin 1
  | NInf => Fin (-1)
  | NaN => NaN
  end.

(** [a === b] on numbers: [NaN] is equal to nothing. *)
Definition strict_eq (a b : num) : bool :=
  match a, b with
  | Fin x, Fin y => Qeq_bool x y
  | PInf, PInf | NInf, NInf => true
  | _, _ => false
  end.

(** [a < b]; every comparison with [NaN] is false. *)
Definition lt (a b : num) : bool :=
  match a, b with
  | NaN, _ | _, NaN => false
  | Fin x, Fin y => negb (Qle_bool y x)
  | NInf, (Fin _ | PInf) => true
  | Fin _, PInf => true
  | _, _ => false
  end.

Definition gt (a b : num) : bool := lt b a.

Definition le (a b : num) : bool :=
  match a, b with
  | NaN, _ | _, NaN => false
  | Fin x, Fin y => Qle_bool x y
  | NInf, _ | _, PInf => true
  | _, _ => false
  end.

(** Truthiness of a number: [0] and [NaN] are falsy. *)
Definition truthy (a : num) : bool :=
  match a with
  | Fin x => negb (Qeq_bool x 0)
  | PInf | NInf => true
  | NaN => false
  end.

(** [~~a]: ToInt32, truncation toward zero followed by wrap-around into
    the signed 32-bit range; the non-finite values give [0]. *)
Definition wrap32 (z : Z) : Z :=
  let m := (z mod 2 ^ 32)%Z in
  if (2 ^ 31 <=? m)%Z then (m - 2 ^ 32)%Z else m.

Definition to_int32 (a : num) : num :=
  match a with
  | Fin x => Fin (inject_Z (wrap32 (Z.quot (Qnum x) (Zpos (Qden x)))))
  | _ => Fin 0
  end.

Definition of_Z (z : Z) : num := Fin (inject_Z z).

Definition is_finite (a : num) : Prop :=
  match a with Fin _ => True | _ => False end.

(** Equality of values (rationals up to [Qeq]); unlike [strict_eq] it
    relates [NaN] to itself. *)
Definition eqv (a b : num) : Prop :=
  match a, b with
  | Fin x, Fin y => x == y
  | PInf, PInf | NInf, NInf | NaN, NaN => True
  | _, _ => False
  end.

End JSNum.

Export JSNum.
Coercion Fin : Q >-> num.
Infix "=n=" := eqv (at level 70, no associativity).

(* ================================================================== *)
(** ** Geometry *)
(* ================================================================== *)

Inductive Axis := AX | AY.
Inductive Bound := Bmin | Bmax.
Inductive Dimension := Dwidth | Dheight.

Record XY := mkXY { X : num; Y : num }.

Definition getXY (axis : Axis) (p : XY) : num :=
  match axis with AX => X p | AY => Y p end.

Definition setXY (axis : Axis) (v : num) (p : XY) : XY :=
  match axis with
  | AX => {| X := v; Y := Y p |}
  | AY => {| X := X p; Y := v |}
  end.

(** A [DOMRect] as [getBoundingClientRect] returns it: [right] and
    [bottom] are derived from the origin and the extents. *)
Record Rect := mkRect {
  rect_left : num; rect_top : num; rect_width : num; rect_height : num
}.

Definition rect_right (r : Rect) : num := add (rect_left r) (rect_width r).
Definition rect_bottom (r : Rect) : num := add (rect_top r) (rect_height r).

Definition rect_dim (d : Dimension) (r : Rect) : num :=
  match d with Dwidth => rect_width r | Dheight => rect_height r end.

Record Bounds := mkBounds { minX : num; minY : num; maxX : num; maxY : num }.

(** [objectBounds[bound + axis]] *)
Definition bget (bound : Bound) (axis : Axis) (b : Bounds) : num :=
  match bound, axis with
  | Bmin, AX => minX b
  | Bmin, AY => minY b
  | Bmax, AX => maxX b
  | Bmax, AY => maxY b
  end.

Definition bset (bound : Bound) (axis : Axis) (v : num) (b : Bounds) : Bounds :=
  match bound, axis with
  | Bmin, AX => {| minX := v; minY := minY b; maxX := maxX b; maxY := maxY b |}
  | Bmin, AY => {| minX := minX b; minY := v; maxX := maxX b; maxY := maxY b |}
  | Bmax, AX => {| minX := minX b; minY := minY b; maxX := v; maxY := maxY b |}
  | Bmax, AY => {| minX := minX b; minY := minY b; maxX := maxX b; maxY := v |}
  end.

(** [Math[bound]] *)
Definition Math_ (bound : Bound) : num -> num -> num :=
  match bound with Bmin => Math_min | Bmax => Math_max end.

(** What [cacheProperties] stores in [__draggable_cache]: the computed
    margin (left and top, parsed as integers) and the bounding rectangle. *)
Record Geom := mkGeom { margin : XY; rect : Rect }.

(** [Draggable.getBoundsRelativeTo(object, to)] (motion.js 432-453). *)
Definition getBoundsRelativeTo (objectCache toCache : Geom) : Bounds :=
  let objectMargin := margin objectCache in
  let objectRect := rect objectCache in
  let toRect := rect toCache in
  let bounds :=
    {| minX := add 0 (X objectMargin);
       minY := add 0 (Y objectMargin);
       maxX := sub (sub (sub (rect_right toRect) (rect_left toRect))
                        (sub (rect_right objectRect) (rect_left objectRect)))
                   (X objectMargin);
       maxY := sub (sub (sub (rect_bottom toRect) (rect_top toRect))
                        (sub (rect_bottom objectRect) (rect_top objectRect)))
                   (X objectMargin) |} in
  fold_left
    (fun bounds '(dimension, axis) =>
       if gt (rect_dim dimension objectRect) (rect_dim dimension toRect)
       then bset Bmax axis 0
              (bset Bmin axis
                 (neg (sub (rect_dim dimension objectRect)
                           (rect_dim dimension toRect))) bounds)
       else bounds)
    [(Dwidth, AX); (Dheight, AY)] bounds.

(** Geometry whose numbers are all finite. *)
Definition finRect (l t w h : Q) : Rect :=
  {| rect_left := l; rect_top := t; rect_width := w; rect_height := h |}.
Definition finGeom (mx my l t w h : Q) : Geom :=
  {| margin := {| X := mx; Y := my |}; rect := finRect l t w h |}.

(* ================================================================== *)
(** ** Results of code that may throw *)
(* ================================================================== *)

Inductive result (A : Type) : Type :=
| Ok (a : A)
| Throw (message : string).
Arguments Ok {A} a.
Arguments Throw {A} message.

Definition bind {A B : Type} (r : result A) (k : A -> result B) : result B :=
  match r with
  | Ok a => k a
  | Throw m => Throw m
  end.

Notation "x <- r ;; k" := (bind r (fun x => k))
  (at level 100, r at next level, right associativity).

(** Reading a property of [undefined]. *)
Definition defined {A : Type} (o : option A) : result A :=
  match o with
  | Some a => Ok a
  | None => Throw "TypeError"
  end.

(** [array.indexOf(x)]; [None] is the source's [-1]. *)
Fixpoint indexOf {A : Type} `{EqDecision A} (l : list A) (x : A) : option nat :=
  match l with
  | [] => None
  | y :: l' => if decide (y = x) then Some O
               else match indexOf l' x with
                    | Some i => Some (S i)
                    | None => None
                    end
  end.

(** [array.splice(start, deleteCount)] for a non-negative [start];
    a [start] past the end removes nothing. *)
Definition splice {A : Type} (l : list A) (start deleteCount : nat) : list A :=
  take start l ++ drop (start + deleteCount) l.

(* ================================================================== *)
(** ** Event bus (motion.js 61-124) *)
(* ================================================================== *)

Module EventBus.

(** A function value, compared by identity.  [Handler id] is a function
    supplied by the caller; calling it is recorded in [calls].
    [Closure id event callback] is the function [once] builds; each call
    of [once] builds a new one, so it carries a fresh [id]. *)
Inductive callback : Type :=
| Handler (id : nat)
| Closure (id : nat) (event : string) (callback0 : callback).

#[export] Instance callback_eq_dec : EqDecision callback.
Proof. solve_decision. Defined.

Record Bus := mkBus {
  events : gmap string (list callback);
  calls : list nat;
  nextClosure : nat
}.

Definition set_listeners (event : string) (l : list callback) (b : Bus) : Bus :=
  {| events := <[event := l]> (events b);
     calls := calls b; nextClosure := nextClosure b |}.

(** The [events] table the constructor builds (motion.js 31-39). *)
Definition new_events : gmap string (list callback) :=
  <["drag-end" := []]> (<["drag-start" := []]> (<["drag-move" := []]>
  (<["deceleration-start" := []]> (<["deceleration-end" := []]>
  (<["decelerate" := []]> (<["stop" := []]> ∅)))))).

Definition new_bus : Bus :=
  {| events := new_events; calls := []; nextClosure := O |}.

(** The guard [typeof this.events[event] !== 'object'] of [on], [off]
    and [trigger], followed by the array the method then works on.  The
    table is a plain object, so the lookup goes through its prototype:
    a name it inherits from [Object.prototype] gives a function, and the
    guard throws, except [__proto__], which gives [Object.prototype]
    itself, an object without [indexOf] and [forEach]: the guard passes
    and the method call fails with a [TypeError]. *)
Definition listeners (b : Bus) (event : string) : result (list callback) :=
  match events b !! event with
  | Some l => Ok l
  | None =>
      if String.eqb event "__proto__" then Throw "TypeError"
      else Throw "Invalid event type specified"
  end.

Definition on (b : Bus) (event : string) (cb : callback) : result Bus :=
  l <- listeners b event ;;
  match indexOf l cb with
  | Some _ => Ok b
  | None => Ok (set_listeners event (l ++ [cb]) b)
  end.

Definition off (b : Bus) (event : string) (cb : callback) : result Bus :=
  l <- listeners b event ;;
  match indexOf l cb with
  | None => Ok b
  | Some callbackIndex => Ok (set_listeners event (splice l callbackIndex 1) b)
  end.

(** [once] returns the closure it registered. *)
Definition once (b : Bus) (event : string) (cb : callback)
  : result (Bus * callback) :=
  let closure := Closure (nextClosure b) event cb in
  let b1 := {| events := events b; calls := calls b;
               nextClosure := S (nextClosure b) |} in
  b2 <- on b1 event closure ;;
  Ok (b2, closure).

(** [callback.apply(this, args)] *)
Fixpoint invoke (b : Bus) (cb : callback) : result Bus :=
  match cb with
  | Handler id =>
      Ok {| events := events b; calls := calls b ++ [id];
            nextClosure := nextClosure b |}
  | Closure _ event callback0 =>
      b1 <- invoke b callback0 ;;
      off b1 event callback0
  end.

(** [Array.prototype.forEach] over the live listener array: the indices
    [k], [k+1], ... below the length read when the loop started ([n]
    of them are left), each visited only if still present. *)
Fixpoint forEach_listeners (n k : nat) (event : string) (b : Bus) : result Bus :=
  match n with
  | O => Ok b
  | S n' =>
      l <- listeners b event ;;
      match l !! k with
      | Some cb => b1 <- invoke b cb ;; forEach_listeners n' (S k) event b1
      | None => forEach_listeners n' (S k) event b
      end
  end.

Definition trigger (b : Bus) (event : string) : result Bus :=
  l <- listeners b event ;;
  forEach_listeners (length l) O event b.

(** [n] triggers of the same event in a row. *)
Fixpoint trigger_times (n : nat) (b : Bus) (event : string) : result Bus :=
  match n with
  | O => Ok b
  | S n' => b1 <- trigger b event ;; trigger_times n' b1 event
  end.

(** How often the caller's function [id] has been called. *)
Definition call_count (b : Bus) (id : nat) : nat :=
  length (filter (fun i => i = id) (calls b)).

End EventBus.

(* ================================================================== *)
(** ** Engine state *)
(* ================================================================== *)

(** A draggable element, named by a number. *)
Definition objid := nat.

Record Settings := mkSettings {
  edgeFriction : num;
  friction : num;
  bounceFriction : num;
  deceleration : bool
}.

(** The defaults of the constructor (motion.js 20-25). *)
Definition default_settings : Settings :=
  {| edgeFriction := 3 # 4; friction := 1; bounceFriction := 1 # 2;
     deceleration := true |}.

(** [object.__draggable_cache] once [onMouseDown] has filled it.
    [time] holds a reading of [Date.now()], an integer of milliseconds. *)
Record Cache := mkCache {
  geom : Geom;
  initialCursorPosRelativeToObject : XY;
  objectBounds : Bounds;
  time : Z;
  velocity : XY;
  hasMoved : bool;
  position : XY;
  matrix : list num
}.

(** The properties the engine attaches to an element. *)
Record Obj := mkObj {
  draggable_enabled : bool;
  draggable_mouseIsDown : bool;
  draggable_cache : option Cache
}.

(** One call of [this.trigger] made by the engine, with its arguments.
    The listeners are the callers' business (see [EventBus]); the engine
    model keeps the calls in order. *)
Inductive Emitted : Type :=
| EObject (name : string) (object : objid) (pos : XY)
| EMove (object : objid) (cache : Cache)
| EStack (stack : list objid).

(** [stackLength] is not set by the constructor; the [undefined] it
    starts as behaves as [NaN] in every place the source reads it
    (decrement, subtraction, comparison, truthiness).
    [animationFrames] counts the pending [requestAnimationFrame]
    callbacks. *)
Record State := mkState {
  settings : Settings;
  currentObject : option objid;
  decelerationStack : list objid;
  animationLoopRunning : bool;
  stackLength : num;
  objects : gmap objid Obj;
  containerCache : option Geom;
  animationFrames : nat;
  emitted : list Emitted
}.

Record MouseEvent := mkMouseEvent {
  clientX : num;
  clientY : num;
  currentTarget : objid
}.

(** What [onMouseDown] reads from the document: the geometry
    [cacheProperties] finds for the target and for the container, and
    the target's computed transform: [None] when it holds no [matrix],
    otherwise the numbers between its brackets. *)
Record Dom := mkDom {
  dom_object : Geom;
  dom_container : Geom;
  dom_transform : option (list num)
}.

Definition getObj (s : State) (object : objid) : Obj :=
  default {| draggable_enabled := false; draggable_mouseIsDown := false;
             draggable_cache := None |} (objects s !! object).

Definition getCache (s : State) (object : objid) : result Cache :=
  defined (draggable_cache (getObj s object)).

(** The constructor followed by [initObjects] with the elements [objs]
    matching the selector: each is enabled. *)
Definition new_state (st : Settings) (objs : list objid) : State :=
  {| settings := st;
     currentObject := None;
     decelerationStack := [];
     animationLoopRunning := false;
     stackLength := NaN;
     objects := list_to_map
       (map (fun o => (o, {| draggable_enabled := true;
                             draggable_mouseIsDown := false;
                             draggable_cache := None |})) objs);
     containerCache := None;
     animationFrames := O;
     emitted := [] |}.

Definition set_obj (object : objid) (o : Obj) (s : State) : State :=
  {| settings := settings s; currentObject := currentObject s;
     decelerationStack := decelerationStack s;
     animationLoopRunning := animationLoopRunning s;
     stackLength := stackLength s;
     objects := <[object := o]> (objects s);
     containerCache := containerCache s;
     animationFrames := animationFrames s;
     emitted := emitted s |}.

Definition set_cache (object : objid) (c : Cache) (s : State) : State :=
  let o := getObj s object in
  set_obj object {| draggable_enabled := draggable_enabled o;
                    draggable_mouseIsDown := draggable_mouseIsDown o;
                    draggable_cache := Some c |} s.

(** [this.trigger(...)] as the engine calls it. *)
Definition emit (e : Emitted) (s : State) : State :=
  {| settings := settings s; currentObject := currentObject s;
     decelerationStack := decelerationStack s;
     animationLoopRunning := animationLoopRunning s;
     stackLength := stackLength s;
     objects := objects s;
     containerCache := containerCache s;
     animationFrames := animationFrames s;
     emitted := emitted s ++ [e] |}.

(** [Draggable.getCursorPositionRelativeTo(event, to)] (motion.js 479-486). *)
Definition getCursorPositionRelativeTo (event : MouseEvent) (to : Geom) : XY :=
  {| X := sub (clientX event) (rect_left (rect to));
     Y := sub (clientY event) (rect_top (rect to)) |}.

(** [Draggable.parseMatrix] (motion.js 548-560), after the string has
    been cut and its pieces read by [parseFloat]. *)
Definition parseMatrix (computedTransform : option (list num)) : list num :=
  match computedTransform with
  | Some matrixSplit =>
      if (length matrixSplit =? 6)%nat then matrixSplit
      else [Fin 1; Fin 0; Fin 0; Fin 1; Fin 0; Fin 0]
  | None => [Fin 1; Fin 0; Fin 0; Fin 1; Fin 0; Fin 0]
  end.

(** [Draggable.setObjectMatrix] (motion.js 525-539): the new contents of
    [cache.matrix], which is also the transform written to the element.
    [parseMatrix] always gives six entries, so the two writes are in
    range. *)
Definition setObjectMatrix (cache : Cache) (pos : XY) : list num :=
  fold_left
    (fun m '(axis, dimension, scaleIndex, index) =>
       let scaleMultiplier := sub 1 (default NaN (m !! scaleIndex)) in
       <[(4 + index)%nat :=
           sub (sub (getXY axis pos) (getXY axis (margin (geom cache))))
               (mul scaleMultiplier (rect_dim dimension (rect (geom cache))))]> m)
    [(AX, Dwidth, 0%nat, 0%nat); (AY, Dheight, 3%nat, 1%nat)]
    (matrix cache).

(* ================================================================== *)
(** ** Pointer handlers *)
(* ================================================================== *)

(** [onMouseDown] (motion.js 189-239).  [now] is the reading of
    [Date.now()]. *)
Definition onMouseDown (s : State) (event : MouseEvent) (dom : Dom) (now : Z)
  : result State :=
  let object := currentTarget event in
  if negb (draggable_enabled (getObj s object)) then Ok s
  else
    let objectGeom := dom_object dom in
    let containerGeom := dom_container dom in
    let cursorPosRelativeToContainer :=
      getCursorPositionRelativeTo event containerGeom in
    let cursorPosRelativeToObject :=
      getCursorPositionRelativeTo event objectGeom in
    let matrix0 := parseMatrix (dom_transform dom) in
    let position0 :=
      {| X := sub (X cursorPosRelativeToContainer) (X cursorPosRelativeToObject);
         Y := sub (Y cursorPosRelativeToContainer) (Y cursorPosRelativeToObject) |} in
    let cache :=
      {| geom := objectGeom;
         initialCursorPosRelativeToObject := cursorPosRelativeToObject;
         objectBounds := getBoundsRelativeTo objectGeom containerGeom;
         time := now;
         velocity := {| X := 0; Y := 0 |};
         hasMoved := false;
         position := position0;
         matrix := matrix0 |} in
    let '(stack, len) :=
      match indexOf (decelerationStack s) object with
      | Some stackIndex =>
          (splice (decelerationStack s) stackIndex 1, sub (stackLength s) 1)
      | None => (decelerationStack s, stackLength s)
      end in
    Ok (emit (EObject "drag-start" object position0)
          {| settings := settings s;
             currentObject := Some object;
             decelerationStack := stack;
             animationLoopRunning := animationLoopRunning s;
             stackLength := len;
             objects :=
               <[object := {| draggable_enabled := draggable_enabled (getObj s object);
                              draggable_mouseIsDown := true;
                              draggable_cache := Some cache |}]> (objects s);
             containerCache := Some containerGeom;
             animationFrames := animationFrames s;
             emitted := emitted s |}).

(** The inner loop of [onMouseMove] over the two bounds of one axis
    (motion.js 266-270), started from the raw position. *)
Definition applyEdgeFriction (st : Settings) (objectBounds0 : Bounds)
    (axis : Axis) (raw : num) : num :=
  fold_left
    (fun p bound =>
       let b := bget bound axis objectBounds0 in
       if strict_eq (Math_ bound p b) p
       then add b (mul (sub p b) (sub 1 (edgeFriction st)))
       else p)
    [Bmin; Bmax] raw.

(** The position [onMouseMove] computes for one axis (motion.js 263-271). *)
Definition dragPosition (st : Settings) (cache : Cache)
    (cursorPosRelativeToContainer : XY) (axis : Axis) : num :=
  applyEdgeFriction st (objectBounds cache) axis
    (sub (getXY axis cursorPosRelativeToContainer)
         (getXY axis (initialCursorPosRelativeToObject cache))).

(** [onMouseMove] (motion.js 246-285). *)
Definition onMouseMove (s : State) (event : MouseEvent) (now : Z)
  : result State :=
  match currentObject s with
  | None => Ok s
  | Some object =>
      if draggable_mouseIsDown (getObj s object) then
        cache <- getCache s object ;;
        containerGeom <- defined (containerCache s) ;;
        let cursorPosRelativeToContainer :=
          getCursorPositionRelativeTo event containerGeom in
        let position1 :=
          {| X := dragPosition (settings s) cache cursorPosRelativeToContainer AX;
             Y := dragPosition (settings s) cache cursorPosRelativeToContainer AY |} in
        let deltaTime := of_Z (now - time cache) in
        let velocity1 :=
          {| X := div (sub (X position1) (X (position cache))) deltaTime;
             Y := div (sub (Y position1) (Y (position cache))) deltaTime |} in
        let cache1 :=
          {| geom := geom cache;
             initialCursorPosRelativeToObject :=
               initialCursorPosRelativeToObject cache;
             objectBounds := objectBounds cache;
             time := now;
             velocity := velocity1;
             hasMoved := true;
             position := position1;
             matrix := setObjectMatrix cache position1 |} in
        Ok (emit (EMove object cache1) (set_cache object cache1 s))
      else Ok s
  end.

(** The inner loop of [onMouseUp] over the two bounds of one axis
    (motion.js 309-312), started from the measured velocity [v]. *)
Definition springBack (objectBounds0 : Bounds) (pos : XY)
    (axis : Axis) (v : num) : num :=
  fold_left
    (fun v bound =>
       let b := bget bound axis objectBounds0 in
       if strict_eq (Math_ bound (getXY axis pos) b) (getXY axis pos)
       then neg (div (sub (getXY axis pos) b) 100)
       else v)
    [Bmin; Bmax] v.

(** The velocity [onMouseUp] leaves in the cache (motion.js 304-313). *)
Definition releaseVelocity (cache : Cache) (now : Z) : XY :=
  let deltaTime := of_Z (now - time cache) in
  let v :=
    if gt deltaTime 25 && hasMoved cache then {| X := 0; Y := 0 |}
    else velocity cache in
  {| X := springBack (objectBounds cache) (position cache) AX (X v);
     Y := springBack (objectBounds cache) (position cache) AY (Y v) |}.

Definition set_velocity (v : XY) (c : Cache) : Cache :=
  {| geom := geom c;
     initialCursorPosRelativeToObject := initialCursorPosRelativeToObject c;
     objectBounds := objectBounds c;
     time := time c;
     velocity := v;
     hasMoved := hasMoved c;
     position := position c;
     matrix := matrix c |}.

Definition set_time (t : Z) (c : Cache) : Cache :=
  {| geom := geom c;
     initialCursorPosRelativeToObject := initialCursorPosRelativeToObject c;
     objectBounds := objectBounds c;
     time := t;
     velocity := velocity c;
     hasMoved := hasMoved c;
     position := position c;
     matrix := matrix c |}.

(** [window.requestAnimationFrame(...)] *)
Definition requestAnimationFrame (s : State) : State :=
  {| settings := settings s; currentObject := currentObject s;
     decelerationStack := decelerationStack s;
     animationLoopRunning := animationLoopRunning s;
     stackLength := stackLength s;
     objects := objects s;
     containerCache := containerCache s;
     animationFrames := S (animationFrames s);
     emitted := emitted s |}.

(** [animateDeceleration] (motion.js 337-353). *)
Definition animateDeceleration (s : State) (object : objid) (now : Z)
  : result State :=
  cache <- getCache s object ;;
  let s1 := emit (EObject "deceleration-start" object (position cache)) s in
  let stack := decelerationStack s1 ++ [object] in
  let len := Fin (inject_Z (Z.of_nat (length stack))) in
  let s2 :=
    set_cache object (set_time now cache)
      {| settings := settings s1; currentObject := currentObject s1;
         decelerationStack := stack;
         animationLoopRunning := animationLoopRunning s1;
         stackLength := len;
         objects := objects s1;
         containerCache := containerCache s1;
         animationFrames := animationFrames s1;
         emitted := emitted s1 |} in
  if negb (animationLoopRunning s2) && truthy (stackLength s2) then
    Ok (requestAnimationFrame
          {| settings := settings s2; currentObject := currentObject s2;
             decelerationStack := decelerationStack s2;
             animationLoopRunning := true;
             stackLength := stackLength s2;
             objects := objects s2;
             containerCache := containerCache s2;
             animationFrames := animationFrames s2;
             emitted := emitted s2 |})
  else Ok s2.

Definition set_currentObject (o : option objid) (s : State) : State :=
  {| settings := settings s; currentObject := o;
     decelerationStack := decelerationStack s;
     animationLoopRunning := animationLoopRunning s;
     stackLength := stackLength s;
     objects := objects s;
     containerCache := containerCache s;
     animationFrames := animationFrames s;
     emitted := emitted s |}.

(** [Math.abs(velocity.X) > 0 || Math.abs(velocity.Y) > 0]
    (motion.js 319-320). *)
Definition hasSpeed (v : XY) : bool :=
  gt (Math_abs (X v)) 0 || gt (Math_abs (Y v)) 0.

(** [onMouseUp] (motion.js 290-330).  The handler reads [Date.now()]
    here and again inside [animateDeceleration]; both readings are
    [now]. *)
Definition onMouseUp (s : State) (now : Z) : result State :=
  match currentObject s with
  | None => Ok s
  | Some object =>
      cache <- getCache s object ;;
      let pos := position cache in
      let cache1 := set_velocity (releaseVelocity cache now) cache in
      let s1 := emit (EObject "drag-end" object pos)
                  (set_cache object cache1 s) in
      s2 <- (if deceleration (settings s1) && hasSpeed (velocity cache1)
             then animateDeceleration s1 object now
             else Ok (emit (EObject "stop" object pos) s1)) ;;
      Ok (set_currentObject None s2)
  end.

(* ================================================================== *)
(** ** Deceleration scheduler *)
(* ================================================================== *)

(** The test of one bound in a tick (motion.js 384-387), on the velocity
    and the position of an axis. *)
Definition bounce (st : Settings) (cache : Cache) (axis : Axis)
    (vp : num * num) (bound : Bound) : num * num :=
  let '(v, p) := vp in
  let b := bget bound axis (objectBounds cache) in
  if strict_eq (Math_ bound p b) p
     && strict_eq (Math_sign v) (Math_ bound 1 (-1))
  then (neg (mul v (sub 1 (bounceFriction st))), b)
  else (v, p).

(** One axis of one object in one tick (motion.js 376-389): the decayed
    velocity, the advanced position, then the two bounds in turn.
    Returns the velocity and the position. *)
Definition tickAxis (st : Settings) (cache : Cache) (deltaTime : num)
    (axis : Axis) : num * num :=
  let v0 := mul (getXY axis (velocity cache))
                (sub 1 (mul (div deltaTime 1000) (friction st))) in
  let p0 := if truthy v0
            then add (getXY axis (position cache)) (mul v0 deltaTime)
            else getXY axis (position cache) in
  fold_left (bounce st cache axis) [Bmin; Bmax] (v0, p0).

(** The stop test of motion.js 391. *)
Definition belowThreshold (v : XY) : bool :=
  lt (Math_abs (X v)) (1 # 1000) && lt (Math_abs (Y v)) (1 # 1000).

(** The body of [stack.forEach] in [progressAnimations]
    (motion.js 366-406) for the object at [index]; the second component
    is [toRemoveFromStack]. *)
Definition progressObject (now : Z) (acc : State * list nat)
    (object : objid) (index : nat) : result (State * list nat) :=
  let '(s, toRemoveFromStack) := acc in
  cache <- getCache s object ;;
  let deltaTime := of_Z (now - time cache) in
  let '(vx, px) := tickAxis (settings s) cache deltaTime AX in
  let '(vy, py) := tickAxis (settings s) cache deltaTime AY in
  let velocity1 := {| X := vx; Y := vy |} in
  let stopped := belowThreshold velocity1 in
  let position1 :=
    if stopped then {| X := to_int32 px; Y := to_int32 py |}
    else {| X := px; Y := py |} in
  let s1 :=
    if stopped
    then emit (EObject "stop" object position1)
           (emit (EObject "deceleration-end" object position1) s)
    else s in
  let toRemove1 :=
    if stopped then toRemoveFromStack ++ [index] else toRemoveFromStack in
  let cache1 :=
    {| geom := geom cache;
       initialCursorPosRelativeToObject := initialCursorPosRelativeToObject cache;
       objectBounds := objectBounds cache;
       time := now;
       velocity := velocity1;
       hasMoved := hasMoved cache;
       position := position1;
       matrix := setObjectMatrix cache position1 |} in
  Ok (set_cache object cache1 s1, toRemove1).

(** [stack.forEach((object, index) => ...)]; the stack is not changed
    during the pass. *)
Fixpoint forEach_stack (now : Z) (stack : list objid) (index : nat)
    (acc : State * list nat) : result (State * list nat) :=
  match stack with
  | [] => Ok acc
  | object :: rest =>
      acc1 <- progressObject now acc object index ;;
      forEach_stack now rest (S index) acc1
  end.

(** [toRemoveFromStack.forEach(index => this.decelerationStack.splice(index, 1))]
    (motion.js 408). *)
Definition removeFromStack (stack : list objid) (toRemoveFromStack : list nat)
  : list objid :=
  fold_left (fun stack index => splice stack index 1) toRemoveFromStack stack.

(** [progressAnimations] (motion.js 358-423); every [Date.now()] of one
    call reads [now]. *)
Definition progressAnimations (s : State) (now : Z) : result State :=
  pass <- forEach_stack now (decelerationStack s) O (s, []) ;;
  let '(s1, toRemoveFromStack) := pass in
  let stack := removeFromStack (decelerationStack s1) toRemoveFromStack in
  let len := sub (stackLength s1)
                 (Fin (inject_Z (Z.of_nat (length toRemoveFromStack)))) in
  let '(len1, running) :=
    if le len 0 then (Fin 0, false) else (len, animationLoopRunning s1) in
  let s2 :=
    emit (EStack stack)
      {| settings := settings s1; currentObject := currentObject s1;
         decelerationStack := stack;
         animationLoopRunning := running;
         stackLength := len1;
         objects := objects s1;
         containerCache := containerCache s1;
         animationFrames := animationFrames s1;
         emitted := emitted s1 |} in
  if running then Ok (requestAnimationFrame s2) else Ok s2.

(** The browser runs one pending animation-frame callback. *)
Definition frame (s : State) (now : Z) : result State :=
  match animationFrames s with
  | O => Ok s
  | S n =>
      progressAnimations
        {| settings := settings s; currentObject := currentObject s;
           decelerationStack := decelerationStack s;
           animationLoopRunning := animationLoopRunning s;
           stackLength := stackLength s;
           objects := objects s;
           containerCache := containerCache s;
           animationFrames := n;
           emitted := emitted s |} now
  end.

(** What can happen to the engine. *)
Inductive Action : Type :=
| MouseDown (event : MouseEvent) (dom : Dom) (now : Z)
| MouseMove (event : MouseEvent) (now : Z)
| MouseUp (now : Z)
| Frame (now : Z).

Definition step (s : State) (a : Action) : result State :=
  match a with
  | MouseDown event dom now => onMouseDown s event dom now
  | MouseMove event now => onMouseMove s event now
  | MouseUp now => onMouseUp s now
  | Frame now => frame s now
  end.

Fixpoint run (s : State) (actions : list Action) : result State :=
  match actions with
  | [] => Ok s
  | a :: rest => s1 <- step s a ;; run s1 rest
  end.


(** The frames at the times [times], one after the other. *)
Definition run_frames (s : State) (times : list Z) : result State :=
  run s (map Frame times).

(** How often [trigger(name, [object, ...])] has been called. *)
Definition is_emitted (name : string) (object : objid) (e : Emitted) : bool :=
  match e with
  | EObject n o _ => String.eqb n name && Nat.eqb o object
  | _ => false
  end.

Definition emitted_count (name : string) (object : objid) (s : State) : nat :=
  length (List.filter (is_emitted name object) (emitted s)).

(* ================================================================== *)
(** ** Scenarios *)
(* ================================================================== *)

(** The scene of the end-to-end examples: a container of 500 by 300
    holding objects of 100 by 50 at its origin, without margins. *)
Definition scene_object : Geom := finGeom 0 0 0 0 100 50.
Definition scene_container : Geom := finGeom 0 0 0 0 500 300.
Definition scene_dom : Dom :=
  {| dom_object := scene_object; dom_container := scene_container;
     dom_transform := None |}.

Definition pointer (x y : Q) (target : objid) : MouseEvent :=
  {| clientX := x; clientY := y; currentTarget := target |}.

(** The state a run ends in; a run that throws leaves nothing to look at. *)
Definition final (r : result State) : State :=
  match r with
  | Ok s => s
  | Throw _ => new_state default_settings []
  end.

(** Object 0 has just been grabbed at its point (20, 20), at time 1000. *)
Definition grabbed : State :=
  Eval vm_compute in
  final (run (new_state default_settings [0%nat])
           [MouseDown (pointer 20 20 0%nat) scene_dom 1000]).

(** Object 0 has been dragged 50 to the right in 100 ms. *)
Definition dragging : State :=
  Eval vm_compute in
  final (run grabbed [MouseMove (pointer 70 20 0%nat) 1100]).

(** Object 0 was dragged 50 to the right in 100 ms and released at once:
    it coasts with the velocity (0.5, 0) from the position (50, 0). *)
Definition released : State :=
  Eval vm_compute in
  final (run grabbed [MouseMove (pointer 70 20 0%nat) 1100; MouseUp 1100]).

(** A released object of the scene coasting with the velocity [v] from
    the position [p], last updated at the time [t]. *)
Definition coasting_cache (v p : XY) (t : Z) : Cache :=
  {| geom := scene_object;
     initialCursorPosRelativeToObject := {| X := 20; Y := 20 |};
     objectBounds := getBoundsRelativeTo scene_object scene_container;
     time := t;
     velocity := v;
     hasMoved := true;
     position := p;
     matrix := [Fin 1; Fin 0; Fin 0; Fin 1; X p; Y p] |}.

(** The objects 0, 1, ... coast with the given caches, in stack order,
    and a frame is pending. *)
Definition coasting (st : Settings) (caches : list Cache) : State :=
  {| settings := st;
     currentObject := None;
     decelerationStack := seq 0 (length caches);
     animationLoopRunning := true;
     stackLength := Fin (inject_Z (Z.of_nat (length caches)));
     objects := list_to_map
       (imap (fun o c => (o, {| draggable_enabled := true;
                                draggable_mouseIsDown := true;
                                draggable_cache := Some c |})) caches);
     containerCache := Some scene_container;
     animationFrames := 1;
     emitted := [] |}.


(** Two objects about to stop (0.0005 px/ms) ahead of one still moving
    (0.5 px/ms), all last updated at the time 1000. *)
Definition two_stopping_one_moving : State :=
  coasting default_settings
    [coasting_cache {| X := 5 # 10000; Y := 0 |} {| X := 100; Y := 100 |} 1000;
     coasting_cache {| X := 5 # 10000; Y := 0 |} {| X := 200; Y := 100 |} 1000;
     coasting_cache {| X := 1 # 2; Y := 0 |} {| X := 50; Y := 100 |} 1000].

(** The states the engine gets into from its construction. *)
Definition reachable (s : State) : Prop :=
  exists (st : Settings) (objs : list objid) (actions : list Action),
    run (new_state st objs) actions = Ok s.

(** No object is twice in the deceleration stack, and the object being
    dragged is not in it. *)
Definition stack_exclusive (s : State) : Prop :=
  NoDup (decelerationStack s) /\
  forall o, currentObject s = Some o -> o ∉ decelerationStack s.






(* ================================================================== *)
(** ** Further code of the class *)
(* ================================================================== *)

(** [Draggable.getPositionRelativeTo(object, to)] (motion.js 462-470). *)
Definition getPositionRelativeTo (objectCache toCache : Geom) : XY :=
  {| X := sub (rect_left (rect objectCache)) (rect_left (rect toCache));
     Y := sub (rect_top (rect objectCache)) (rect_top (rect toCache)) |}.

(** [Draggable.disable(object)] and [Draggable.enable(object)]
    (motion.js 567-573): they set [__draggable_enabled] and nothing
    else. *)
Definition set_enabled (flag : bool) (object : objid) (s : State) : State :=
  let o := getObj s object in
  set_obj object {| draggable_enabled := flag;
                    draggable_mouseIsDown := draggable_mouseIsDown o;
                    draggable_cache := draggable_cache o |} s.

Definition disable (s : State) (object : objid) : State :=
  set_enabled false object s.

Definition enable (s : State) (object : objid) : State :=
  set_enabled true object s.

(** [Draggable.enabled(object)] (motion.js 575-577). *)
Definition enabled (s : State) (object : objid) : bool :=
  draggable_enabled (getObj s object).

(** The second class of motion.js (lines 579-1115), an earlier form of
    the first: its bounds know no margin. *)
Module SecondClass.

(** [Draggable.getBoundsRelativeTo(object, to)] (motion.js 996-1016). *)
Definition getBoundsRelativeTo (objectRect toRect : Rect) : Bounds :=
  let bounds :=
    {| minX := 0;
       minY := 0;
       maxX := sub (sub (rect_right toRect) (rect_left toRect))
                   (sub (rect_right objectRect) (rect_left objectRect));
       maxY := sub (sub (rect_bottom toRect) (rect_top toRect))
                   (sub (rect_bottom objectRect) (rect_top objectRect)) |} in
  fold_left
    (fun bounds '(dimension, axis) =>
       if gt (rect_dim dimension objectRect) (rect_dim dimension toRect)
       then bset Bmax axis 0
              (bset Bmin axis
                 (neg (sub (rect_dim dimension objectRect)
                           (rect_dim dimension toRect))) bounds)
       else bounds)
    [(Dwidth, AX); (Dheight, AY)] bounds.

(** [Draggable.setObjectMatrix] (motion.js 1081-1094): the translation
    is the position less half of what the scale takes off the extent. *)
Definition setObjectMatrix (cache : Cache) (pos : XY) : list num :=
  fold_left
    (fun m '(axis, dimension, scale, index) =>
       <[(4 + index)%nat :=
           sub (getXY axis pos)
               (div (sub (div (rect_dim dimension (rect (geom cache)))
                              (default NaN (m !! scale)))
                         (rect_dim dimension (rect (geom cache)))) 2)]> m)
    [(AX, Dwidth, 0%nat, 0%nat); (AY, Dheight, 3%nat, 1%nat)]
    (matrix cache).

End SecondClass.

(** The loop flag and the pending frame go together: a frame is pending
    exactly when the flag is set, and never more than one. *)
Definition one_frame_chain (s : State) : Prop :=
  animationFrames s = if animationLoopRunning s then 1%nat else 0%nat.

(** Whatever the handlers read is there: every object of the stack and
    the object being dragged have their cache, and during a drag the
    container has its own. *)
Definition well_cached (s : State) : Prop :=
  (forall o, o ∈ decelerationStack s ->
             is_Some (draggable_cache (getObj s o))) /\
  (forall o, currentObject s = Some o ->
             is_Some (draggable_cache (getObj s o)) /\
             is_Some (containerCache s)).

(** Every cached transform has its six entries. *)
Definition six_entries (s : State) : Prop :=
  forall o c, draggable_cache (getObj s o) = Some c -> length (matrix c) = 6%nat.

(** The three together. *)
Definition sound (s : State) : Prop :=
  one_frame_chain s /\ well_cached s /\ six_entries s.

(** Two states that differ at most in the objects and the trace. *)
Definition same_control (s s' : State) : Prop :=
  settings s' = settings s /\
  currentObject s' = currentObject s /\
  decelerationStack s' = decelerationStack s /\
  animationLoopRunning s' = animationLoopRunning s /\
  stackLength s' = stackLength s /\
  containerCache s' = containerCache s /\
  animationFrames s' = animationFrames s.

(** Object 0 has been dragged 50 to the right and 10 down in 100 ms. *)
Definition dragging_inside : State :=
  Eval vm_compute in
  final (run (new_state default_settings [0%nat])
           [MouseDown (pointer 20 20 0%nat) scene_dom 1000;
            MouseMove (pointer 70 30 0%nat) 1100]).

(** The oldest version of the class (src/unnamed/part_000). *)
Module FirstDraft.

(** [Draggable._getBoundsRelativeTo(object, to)] (part_000 254-266). *)
Definition getBoundsRelativeTo (objectRect toRect : Rect) : Bounds :=
  {| minX := 0;
     minY := 0;
     maxX := sub (sub (rect_right toRect) (rect_left toRect))
                 (sub (rect_right objectRect) (rect_left objectRect));
     maxY := sub (sub (rect_bottom toRect) (rect_top toRect))
                 (sub (rect_bottom objectRect) (rect_top objectRect)) |}.

End FirstDraft.

(** The life of a bus: calls of its four methods, one after the other. *)
Module EventBusRuns.

Import EventBus.

(** The keys of the table the constructor builds (motion.js 31-39). *)
Definition event_names : list string :=
  ["drag-end"; "drag-start"; "drag-move"; "deceleration-start";
   "deceleration-end"; "decelerate"; "stop"].

Inductive Call : Type :=
| CallOn (event : string) (cb : callback)
| CallOff (event : string) (cb : callback)
| CallOnce (event : string) (cb : callback)
| CallTrigger (event : string).

Definition call (b : Bus) (c : Call) : result Bus :=
  match c with
  | CallOn event cb => on b event cb
  | CallOff event cb => off b event cb
  | CallOnce event cb => r <- once b event cb ;; Ok (fst r)
  | CallTrigger event => trigger b event
  end.

(** Calls that all go through, from the first to the last. *)
Fixpoint run_calls (b : Bus) (cs : list Call) : result Bus :=
  match cs with
  | [] => Ok b
  | c :: rest => b1 <- call b c ;; run_calls b1 rest
  end.

End EventBusRuns.

(** An object 95 wide with a margin of 10, lying at (10, 10) in a
    container 100 wide: the free width does not hold the margin twice. *)
Definition cramped_dom : Dom :=
  {| dom_object := finGeom 10 10 10 10 95 50;
     dom_container := finGeom 0 0 0 0 100 300;
     dom_transform := None |}.

(** The object of [cramped_dom] has just been grabbed. *)
Definition cramped_grabbed : State :=
  Eval vm_compute in
  final (run (new_state default_settings [0%nat])
           [MouseDown (pointer 30 30 0%nat) cramped_dom 1000]).

(* ================================================================== *)
(** * Properties *)
(* ================================================================== *)

(** ** Deciding the rational comparisons *)

Lemma Qle_bool_reflect (x y : Q) : reflect (x <= y) (Qle_bool x y).
Proof. apply iff_reflect. symmetry. apply Qle_bool_iff. Qed.

Lemma Qeq_bool_reflect (x y : Q) : reflect (x == y) (Qeq_bool x y).
Proof. apply iff_reflect. symmetry. apply Qeq_bool_iff. Qed.

Ltac qcases :=
  repeat match goal with
  | |- context [Qle_bool ?a ?b] => destruct (Qle_bool_reflect a b)
  | |- context [Qeq_bool ?a ?b] => destruct (Qeq_bool_reflect a b)
  | H : context [Qle_bool ?a ?b] |- _ => destruct (Qle_bool_reflect a b)
  | H : context [Qeq_bool ?a ?b] |- _ => destruct (Qeq_bool_reflect a b)
  end.

(** Evaluate the number operations without unfolding the rationals. *)
Ltac num_simpl :=
  cbn -[Qplus Qminus Qmult Qdiv Qopp Qinv Qabs Qle_bool Qeq_bool inject_Z] in *.

(* ------------------------------------------------------------------ *)
(** ** Bounds calculator *)
(* ------------------------------------------------------------------ *)

Section Bounds.

Variables mx my ol ot ow oh : Q.      (* margin and rectangle of the object *)
Variables cmx cmy cl ct cw ch : Q.    (* margin and rectangle of the container *)

(** C3, as the code has it.  The lower bound of an axis is [0 + margin]
    and the upper bound of X is [containerWidth - objectWidth - marginX];
    on an axis where the object is larger than the container the bounds
    are [-(objectExtent - containerExtent)] and [0]. *)
Theorem getBoundsRelativeTo_formula :
  let bounds := getBoundsRelativeTo (finGeom mx my ol ot ow oh)
                                    (finGeom cmx cmy cl ct cw ch) in
  (ow <= cw -> minX bounds =n= 0 + mx /\ maxX bounds =n= cw - ow - mx) /\
  (oh <= ch -> minY bounds =n= 0 + my) /\
  (cw < ow -> minX bounds =n= - (ow - cw) /\ maxX bounds =n= 0) /\
  (ch < oh -> minY bounds =n= - (oh - ch) /\ maxY bounds =n= 0).
Proof.
  cbv zeta. unfold getBoundsRelativeTo. num_simpl.
  repeat split; intros; qcases; num_simpl; lra.
Qed.

(** C4, as the code has it.  The X bounds are ordered when the object
    is wider than the container or twice the X margin fits in the free
    width; the Y bounds are ordered when the object is taller than the
    container; with no margin both axes are ordered for all rectangles. *)
Theorem getBoundsRelativeTo_ordered :
  let bounds := getBoundsRelativeTo (finGeom mx my ol ot ow oh)
                                    (finGeom cmx cmy cl ct cw ch) in
  (cw < ow \/ 2 * mx <= cw - ow -> le (minX bounds) (maxX bounds) = true) /\
  (ch < oh -> le (minY bounds) (maxY bounds) = true) /\
  (mx == 0 -> my == 0 ->
   le (minX bounds) (maxX bounds) = true /\
   le (minY bounds) (maxY bounds) = true).
Proof.
  cbv zeta. unfold getBoundsRelativeTo. num_simpl.
  repeat split; intros; qcases; num_simpl; qcases;
    try reflexivity; exfalso; lra.
Qed.

End Bounds.

(** C3 fails as stated: with a margin of 10 the lower X bound is 10,
    not [0 - 10]. *)
Lemma getBoundsRelativeTo_min_counterexample :
  let b := getBoundsRelativeTo (finGeom 10 10 0 0 100 50)
                               (finGeom 0 0 0 0 500 300) in
  minX b =n= 10 /\ ~ (minX b =n= 0 - 10).
Proof. vm_compute. split; [reflexivity | discriminate]. Qed.

Lemma getBoundsRelativeTo_formula_witness :
  let b := getBoundsRelativeTo (finGeom 10 10 0 0 100 50)
                               (finGeom 0 0 0 0 500 300) in
  minX b =n= 0 + 10 /\ maxX b =n= 500 - 100 - 10.
Proof.
  destruct (getBoundsRelativeTo_formula 10 10 0 0 100 50 0 0 0 0 500 300)
    as [HX _].
  apply HX. vm_compute. discriminate.
Defined.

(** C4 fails as stated: an object 95 wide with a margin of 10 in a
    container 100 wide gets [minX = 10] and [maxX = -5]. *)
Lemma getBoundsRelativeTo_ordered_counterexample :
  let b := getBoundsRelativeTo (finGeom 10 10 0 0 95 50)
                               (finGeom 0 0 0 0 100 300) in
  minX b =n= 10 /\ maxX b =n= -5 /\ le (minX b) (maxX b) = false.
Proof. vm_compute. repeat split. Qed.

Lemma getBoundsRelativeTo_ordered_witness :
  let b := getBoundsRelativeTo (finGeom 10 10 0 0 100 50)
                               (finGeom 0 0 0 0 500 300) in
  le (minX b) (maxX b) = true.
Proof.
  destruct (getBoundsRelativeTo_ordered 10 10 0 0 100 50 0 0 0 0 500 300)
    as [HX _].
  apply HX. right. vm_compute. discriminate.
Defined.

(** The upper Y bound of an object that fits subtracts the X margin
    (motion.js 442), here 10 and not 30. *)
Example getBoundsRelativeTo_maxY_margin :
  maxY (getBoundsRelativeTo (finGeom 10 30 0 0 100 50)
                            (finGeom 0 0 0 0 500 300)) =n= 300 - 50 - 10.
Proof. vm_compute. reflexivity. Qed.

(** The bounds of the scene: an object of 100 by 50 in a container of
    500 by 300. *)
Example scene_bounds :
  getBoundsRelativeTo scene_object scene_container =
  {| minX := 0; minY := 0; maxX := 400; maxY := 250 |}.
Proof. vm_compute. reflexivity. Qed.

(* ------------------------------------------------------------------ *)
(** ** Reading the state back *)
(* ------------------------------------------------------------------ *)

Lemma getObj_set_obj_eq (s : State) (o : objid) (x : Obj) :
  getObj (set_obj o x s) o = x.
Proof. unfold getObj, set_obj. cbn. by rewrite lookup_insert_eq. Qed.

Lemma getObj_set_obj_ne (s : State) (o o' : objid) (x : Obj) :
  o <> o' -> getObj (set_obj o x s) o' = getObj s o'.
Proof. intros Hne. unfold getObj, set_obj. cbn. by rewrite lookup_insert_ne. Qed.

Lemma getObj_emit (s : State) (e : Emitted) (o : objid) :
  getObj (emit e s) o = getObj s o.
Proof. reflexivity. Qed.

Lemma cache_set_cache_eq (s : State) (o : objid) (c : Cache) :
  draggable_cache (getObj (set_cache o c s) o) = Some c.
Proof. unfold set_cache. by rewrite getObj_set_obj_eq. Qed.

Lemma cache_set_cache_ne (s : State) (o o' : objid) (c : Cache) :
  o <> o' ->
  draggable_cache (getObj (set_cache o c s) o') = draggable_cache (getObj s o').
Proof. intros Hne. unfold set_cache. by rewrite getObj_set_obj_ne. Qed.

(** Project the fields of the states the handlers build. *)
Ltac state_simpl :=
  unfold set_currentObject, requestAnimationFrame;
  cbn [settings currentObject decelerationStack animationLoopRunning
       stackLength objects containerCache animationFrames emitted
       getObj set_cache set_obj emit].

(* ------------------------------------------------------------------ *)
(** ** Dragging *)
(* ------------------------------------------------------------------ *)

(** What [onMouseMove] does to the object being dragged. *)
Lemma onMouseMove_dragging (s : State) (o : objid) (c : Cache) (g : Geom)
    (event : MouseEvent) (now : Z) :
  currentObject s = Some o ->
  draggable_mouseIsDown (getObj s o) = true ->
  draggable_cache (getObj s o) = Some c ->
  containerCache s = Some g ->
  exists s' c',
    onMouseMove s event now = Ok s' /\
    draggable_cache (getObj s' o) = Some c' /\
    (forall axis,
       getXY axis (position c') =
       dragPosition (settings s) c (getCursorPositionRelativeTo event g) axis) /\
    (forall axis,
       getXY axis (velocity c') =
       div (sub (getXY axis (position c')) (getXY axis (position c)))
           (of_Z (now - time c))) /\
    objectBounds c' = objectBounds c /\
    decelerationStack s' = decelerationStack s.
Proof.
  intros Hcur Hdown Hcache Hcont.
  unfold onMouseMove, getCache. rewrite Hcur, Hdown, Hcache, Hcont. cbn [defined bind].
  eexists _, _. split; [reflexivity|].
  rewrite getObj_emit, cache_set_cache_eq.
  split; [reflexivity|].
  repeat split; intros []; reflexivity.
Qed.

(** The two bound checks of a drag on finite numbers. *)
Lemma applyEdgeFriction_finite (st : Settings) (b : Bounds) (axis : Axis)
    (lo hi ef raw : Q) :
  bget Bmin axis b = Fin lo ->
  bget Bmax axis b = Fin hi ->
  edgeFriction st = Fin ef ->
  exists p : Q,
    applyEdgeFriction st b axis raw = Fin p /\
    (lo < raw -> raw < hi -> p == raw) /\
    (0 <= ef -> ef <= 1 -> lo <= hi -> raw <= lo ->
     p == lo + (raw - lo) * (1 - ef)) /\
    (lo <= hi -> hi <= raw -> p == hi + (raw - hi) * (1 - ef)) /\
    (ef == 0 -> p == raw).
Proof.
  intros Hlo Hhi Hef. unfold applyEdgeFriction. cbn [fold_left].
  rewrite Hlo, Hhi, Hef.
  repeat (progress (num_simpl; qcases)).
  all: eexists; (split; [reflexivity|]).
  all: repeat split; intros.
  all: try nra.
  all: assert (E1 : raw == lo) by lra; assert (E2 : hi == lo) by lra;
    rewrite E1, E2; lra.
Qed.

(** C1, as the code has it.  While an object is dragged, on each axis
    whose bounds are ordered ([min <= max]) and with the friction in
    [[0, 1]]: a raw position [cursorOffset - initialGrabOffset] strictly
    inside the bounds is written unchanged; one beyond a bound by
    [raw - bound] is written as
    [bound + (raw - bound) * (1 - edgeFriction)]; with [edgeFriction = 1]
    that is the bound, with [edgeFriction = 0] the raw position.  The
    two checks run one after the other, the second on what the first
    has written, and [getBoundsRelativeTo] does not order the bounds:
    without the order the formula does not hold. *)
Theorem onMouseMove_edge_friction (s : State) (o : objid) (c : Cache)
    (g : Geom) (event : MouseEvent) (now : Z) (axis : Axis)
    (cursorOffset initialGrabOffset lo hi ef : Q) :
  currentObject s = Some o ->
  draggable_mouseIsDown (getObj s o) = true ->
  draggable_cache (getObj s o) = Some c ->
  containerCache s = Some g ->
  getXY axis (getCursorPositionRelativeTo event g) = Fin cursorOffset ->
  getXY axis (initialCursorPosRelativeToObject c) = Fin initialGrabOffset ->
  bget Bmin axis (objectBounds c) = Fin lo ->
  bget Bmax axis (objectBounds c) = Fin hi ->
  edgeFriction (settings s) = Fin ef ->
  0 <= ef -> ef <= 1 -> lo <= hi ->
  exists s' c',
    onMouseMove s event now = Ok s' /\
    draggable_cache (getObj s' o) = Some c' /\
    let raw := cursorOffset - initialGrabOffset in
    let written := getXY axis (position c') in
    (lo < raw -> raw < hi -> written =n= raw) /\
    (raw <= lo -> written =n= lo + (raw - lo) * (1 - ef)) /\
    (hi <= raw -> written =n= hi + (raw - hi) * (1 - ef)) /\
    (ef == 1 -> raw <= lo -> written =n= lo) /\
    (ef == 1 -> hi <= raw -> written =n= hi) /\
    (ef == 0 -> written =n= raw).
Proof.
  intros Hcur Hdown Hcache Hcont Hcursor Hgrab Hlo Hhi Hef Hef0 Hef1 Hord.
  destruct (onMouseMove_dragging s o c g event now Hcur Hdown Hcache Hcont)
    as (s' & c' & Hrun & Hc' & Hpos & _).
  exists s', c'. split; [exact Hrun|]. split; [exact Hc'|].
  cbv zeta. rewrite Hpos. unfold dragPosition. rewrite Hcursor, Hgrab.
  destruct (applyEdgeFriction_finite (settings s) (objectBounds c) axis
              lo hi ef (cursorOffset - initialGrabOffset) Hlo Hhi Hef)
    as (p & Hp & Hin & Hmin & Hmax & Hzero).
  change (sub (Fin cursorOffset) (Fin initialGrabOffset))
    with (Fin (cursorOffset - initialGrabOffset)).
  rewrite Hp. cbn [eqv].
  repeat split; intros.
  - auto.
  - auto.
  - auto.
  - rewrite Hmin by assumption. nra.
  - rewrite Hmax by assumption. nra.
  - auto.
Qed.

Lemma onMouseMove_edge_friction_witness :
  exists s' c',
    onMouseMove grabbed (pointer 470 30 0%nat) 1010 = Ok s' /\
    draggable_cache (getObj s' 0%nat) = Some c' /\
    getXY AX (position c') =n= 400 + (450 - 400) * (1 - (3 # 4)).
Proof.
  epose proof (onMouseMove_edge_friction grabbed 0%nat _ _
                 (pointer 470 30 0%nat) 1010 AX 470 20 0 400 (3 # 4)) as H.
  edestruct H as (s' & c' & Hrun & Hc' & _ & _ & Hmax & _);
    try reflexivity; try (vm_compute; discriminate).
  exists s', c'. split; [exact Hrun|]. split; [exact Hc'|].
  apply Hmax. vm_compute. discriminate.
Defined.

(** C1 fails as stated: an object 95 wide with a margin of 10 in a
    container 100 wide gets the X bounds 10 and -5 at the grab.  A raw
    position of 0, beyond the lower bound by -10, is written as -15/8,
    not as [10 + (0 - 10) * (1 - 3/4)]: the second check damps the
    result of the first once more, towards the upper bound. *)
Lemma onMouseMove_unordered_bounds_counterexample :
  reachable cramped_grabbed /\
  (exists c,
     draggable_cache (getObj cramped_grabbed 0%nat) = Some c /\
     minX (objectBounds c) =n= 10 /\
     maxX (objectBounds c) =n= -5 /\
     X (initialCursorPosRelativeToObject c) =n= 20) /\
  edgeFriction (settings cramped_grabbed) =n= 3 # 4 /\
  exists s' c',
    onMouseMove cramped_grabbed (pointer 20 30 0%nat) 1100 = Ok s' /\
    draggable_cache (getObj s' 0%nat) = Some c' /\
    X (position c') =n= - (15 # 8) /\
    ~ (X (position c') =n= 10 + (0 - 10) * (1 - (3 # 4))).
Proof.
  split.
  { exists default_settings, [0%nat],
      [MouseDown (pointer 30 30 0%nat) cramped_dom 1000].
    vm_compute. reflexivity. }
  split.
  { eexists. split; [vm_compute; reflexivity|].
    vm_compute. by repeat split. }
  split; [vm_compute; reflexivity|].
  eexists _, _. split; [vm_compute; reflexivity|].
  split; [vm_compute; reflexivity|].
  vm_compute. split; [reflexivity | discriminate].
Qed.

Lemma inject_Z_zero (z : Z) : inject_Z z == 0 <-> z = 0%Z.
Proof. unfold Qeq, inject_Z. cbn. lia. Qed.

(** C7, as the code has it.  [onMouseMove] divides the displacement of
    an axis by the elapsed time without a guard: for a non-zero elapsed
    time the stored velocity is the finite quotient; for a zero elapsed
    time it is overwritten with [NaN] when the position did not change
    and with an infinity of the displacement's sign otherwise. *)
Theorem onMouseMove_velocity (s : State) (o : objid) (c : Cache)
    (g : Geom) (event : MouseEvent) (now : Z) (axis : Axis)
    (cursorOffset initialGrabOffset lo hi ef previous : Q) :
  currentObject s = Some o ->
  draggable_mouseIsDown (getObj s o) = true ->
  draggable_cache (getObj s o) = Some c ->
  containerCache s = Some g ->
  getXY axis (getCursorPositionRelativeTo event g) = Fin cursorOffset ->
  getXY axis (initialCursorPosRelativeToObject c) = Fin initialGrabOffset ->
  bget Bmin axis (objectBounds c) = Fin lo ->
  bget Bmax axis (objectBounds c) = Fin hi ->
  edgeFriction (settings s) = Fin ef ->
  getXY axis (position c) = Fin previous ->
  exists s' c' (new : Q),
    onMouseMove s event now = Ok s' /\
    draggable_cache (getObj s' o) = Some c' /\
    getXY axis (position c') = Fin new /\
    let v := getXY axis (velocity c') in
    (now <> time c -> v =n= (new - previous) / inject_Z (now - time c)) /\
    (now = time c -> new == previous -> v = NaN) /\
    (now = time c -> previous < new -> v = PInf) /\
    (now = time c -> new < previous -> v = NInf).
Proof.
  intros Hcur Hdown Hcache Hcont Hcursor Hgrab Hlo Hhi Hef Hprev.
  destruct (onMouseMove_dragging s o c g event now Hcur Hdown Hcache Hcont)
    as (s' & c' & Hrun & Hc' & Hpos & Hvel & _).
  destruct (applyEdgeFriction_finite (settings s) (objectBounds c) axis
              lo hi ef (cursorOffset - initialGrabOffset) Hlo Hhi Hef)
    as (p & Hp & _).
  assert (Hnew : getXY axis (position c') = Fin p).
  { rewrite Hpos. unfold dragPosition. rewrite Hcursor, Hgrab. exact Hp. }
  exists s', c', p. split; [exact Hrun|]. split; [exact Hc'|].
  split; [exact Hnew|].
  cbv zeta. rewrite Hvel, Hnew, Hprev. unfold of_Z, div, sub, neg, add.
  destruct (Qeq_bool_reflect (inject_Z (now - time c)) 0) as [Hz | Hz];
    rewrite inject_Z_zero in Hz.
  - unfold scale_inf.
    repeat split; intros; try lia; qcases; cbn [inf negb];
      try reflexivity; exfalso; lra.
  - repeat split; intros; lia.
Qed.

Lemma onMouseMove_velocity_witness :
  exists s' c',
    onMouseMove grabbed (pointer 25 20 0%nat) 1000 = Ok s' /\
    draggable_cache (getObj s' 0%nat) = Some c' /\
    getXY AX (velocity c') = PInf.
Proof.
  epose proof (onMouseMove_velocity grabbed 0%nat _ _
                 (pointer 25 20 0%nat) 1000 AX 25 20 0 400 (3 # 4) 0) as H.
  edestruct H as (s' & c' & new & Hrun & Hc' & Hnew & _ & _ & Hinf & _);
    try reflexivity.
  exists s', c'. split; [exact Hrun|]. split; [exact Hc'|].
  apply Hinf; [reflexivity|].
  vm_compute in Hrun. injection Hrun as <-.
  vm_compute in Hc'. injection Hc' as <-.
  vm_compute in Hnew. injection Hnew as <-. reflexivity.
Defined.

(** C7 fails as stated: a move in the same millisecond as the grab does
    not leave the velocity [(0, 0)] alone but stores [+Infinity] where
    the pointer moved and [NaN] where it did not. *)
Lemma onMouseMove_zero_elapsed_counterexample :
  velocity <$> draggable_cache (getObj grabbed 0%nat)
    = Some {| X := 0; Y := 0 |} /\
  time <$> draggable_cache (getObj grabbed 0%nat) = Some 1000%Z /\
  exists s',
    onMouseMove grabbed (pointer 25 20 0%nat) 1000 = Ok s' /\
    velocity <$> draggable_cache (getObj s' 0%nat)
      = Some {| X := PInf; Y := NaN |}.
Proof.
  split; [reflexivity|]. split; [reflexivity|].
  eexists. split; reflexivity.
Qed.

(* ------------------------------------------------------------------ *)
(** ** Releasing *)
(* ------------------------------------------------------------------ *)

(** What [onMouseUp] does to the object being dragged. *)
Lemma onMouseUp_release (s : State) (o : objid) (c : Cache) (now : Z) :
  currentObject s = Some o ->
  draggable_cache (getObj s o) = Some c ->
  exists s' c',
    onMouseUp s now = Ok s' /\
    draggable_cache (getObj s' o) = Some c' /\
    velocity c' = releaseVelocity c now /\
    position c' = position c /\
    currentObject s' = None /\
    decelerationStack s' =
      (if deceleration (settings s) && hasSpeed (releaseVelocity c now)
       then decelerationStack s ++ [o] else decelerationStack s).
Proof.
  intros Hcur Hcache.
  unfold onMouseUp, getCache. rewrite Hcur, Hcache. cbn [defined bind].
  state_simpl. cbn [velocity set_velocity].
  destruct (deceleration (settings s) && hasSpeed (releaseVelocity c now)).
  - unfold animateDeceleration, getCache.
    rewrite getObj_emit, cache_set_cache_eq. cbn [defined bind].
    match goal with
    | |- context [if ?b then _ else _] => destruct b
    end; cbn [bind]; eexists _, _; (split; [reflexivity|]);
      state_simpl; unfold getObj at 1; cbn [objects];
      rewrite lookup_insert_eq; repeat split; reflexivity.
  - cbn [bind]. eexists _, _. split; [reflexivity|].
    state_simpl. unfold getObj at 1. cbn [objects].
    rewrite lookup_insert_eq. repeat split; reflexivity.
Qed.

(** The two bound checks of a release on finite numbers. *)
Lemma springBack_finite (b : Bounds) (pos : XY) (axis : Axis) (v : num)
    (p lo hi : Q) :
  getXY axis pos = Fin p ->
  bget Bmin axis b = Fin lo ->
  bget Bmax axis b = Fin hi ->
  (lo < p -> p < hi -> springBack b pos axis v = v) /\
  (lo <= hi -> p <= lo -> springBack b pos axis v =n= - ((p - lo) / 100)) /\
  (hi <= p -> springBack b pos axis v =n= - ((p - hi) / 100)).
Proof.
  intros Hp Hlo Hhi. unfold springBack. cbn [fold_left].
  rewrite Hp, Hlo, Hhi.
  repeat (progress (num_simpl; qcases)).
  all: repeat split; intros; try reflexivity; try (exfalso; lra).
  all: try (cbn [eqv]; lra).
  all: assert (E1 : hi == p) by lra; assert (E2 : lo == p) by lra;
    rewrite E1, E2; reflexivity.
Qed.

(** C10, as the code has it.  On pointer-up, on each axis whose bounds
    are ordered ([min <= max]) and whose position is at or beyond a
    bound (equality included) the velocity becomes
    [-((position - bound) / 100)], whatever was measured during the
    drag; so a release exactly on a bound leaves the velocity of that
    axis at zero.  The check of the upper bound runs last and
    [getBoundsRelativeTo] does not order the bounds: without the order
    a position on the lower bound can lie beyond the upper one and is
    then sprung back from there. *)
Theorem onMouseUp_spring_back (s : State) (o : objid) (c : Cache) (now : Z)
    (axis : Axis) (p lo hi : Q) :
  currentObject s = Some o ->
  draggable_cache (getObj s o) = Some c ->
  getXY axis (position c) = Fin p ->
  bget Bmin axis (objectBounds c) = Fin lo ->
  bget Bmax axis (objectBounds c) = Fin hi ->
  lo <= hi ->
  exists s' c',
    onMouseUp s now = Ok s' /\
    draggable_cache (getObj s' o) = Some c' /\
    let v := getXY axis (velocity c') in
    (p <= lo -> v =n= - ((p - lo) / 100)) /\
    (hi <= p -> v =n= - ((p - hi) / 100)) /\
    (p == lo \/ p == hi -> v =n= 0).
Proof.
  intros Hcur Hcache Hp Hlo Hhi Hord.
  destruct (onMouseUp_release s o c now Hcur Hcache)
    as (s' & c' & Hrun & Hc' & Hvel & _).
  exists s', c'. split; [exact Hrun|]. split; [exact Hc'|].
  cbv zeta. rewrite Hvel.
  assert (Hshape : exists v0,
             getXY axis (releaseVelocity c now) =
             springBack (objectBounds c) (position c) axis v0).
  { unfold releaseVelocity. destruct axis; cbn [getXY X Y]; eauto. }
  destruct Hshape as (v0 & ->).
  destruct (springBack_finite (objectBounds c) (position c) axis v0 p lo hi
              Hp Hlo Hhi) as (_ & Hmin & Hmax).
  split; [auto|]. split; [auto|].
  intros [E | E].
  - assert (Hle : p <= lo) by lra.
    specialize (Hmin Hord Hle).
    destruct (springBack (objectBounds c) (position c) axis v0);
      cbn [eqv] in *; try contradiction.
    rewrite Hmin, E. unfold Qdiv. ring.
  - assert (Hle : hi <= p) by lra.
    specialize (Hmax Hle).
    destruct (springBack (objectBounds c) (position c) axis v0);
      cbn [eqv] in *; try contradiction.
    rewrite Hmax, E. unfold Qdiv. ring.
Qed.

Lemma onMouseUp_spring_back_witness :
  exists s' c',
    onMouseUp grabbed 1010 = Ok s' /\
    draggable_cache (getObj s' 0%nat) = Some c' /\
    getXY AX (velocity c') =n= 0.
Proof.
  epose proof (onMouseUp_spring_back grabbed 0%nat _ 1010 AX 0 0 400) as H.
  edestruct H as (s' & c' & Hrun & Hc' & _ & _ & Hzero);
    try reflexivity; try (vm_compute; discriminate).
  exists s', c'. split; [exact Hrun|]. split; [exact Hc'|].
  apply Hzero. left. reflexivity.
Defined.

(** C10 fails as stated: the object of the same scene lies exactly on its
    lower X bound 10 when it is grabbed; released without a move it gets
    the X velocity -3/20, sprung back from the upper bound -5, and is
    put on the deceleration stack. *)
Lemma onMouseUp_unordered_bounds_counterexample :
  reachable cramped_grabbed /\
  (exists c,
     draggable_cache (getObj cramped_grabbed 0%nat) = Some c /\
     X (position c) =n= 10 /\
     minX (objectBounds c) =n= 10 /\
     maxX (objectBounds c) =n= -5) /\
  exists s' c',
    onMouseUp cramped_grabbed 1010 = Ok s' /\
    draggable_cache (getObj s' 0%nat) = Some c' /\
    X (velocity c') =n= - (3 # 20) /\
    ~ (X (velocity c') =n= 0) /\
    decelerationStack s' = [0%nat].
Proof.
  split.
  { exists default_settings, [0%nat],
      [MouseDown (pointer 30 30 0%nat) cramped_dom 1000].
    vm_compute. reflexivity. }
  split.
  { eexists. split; [vm_compute; reflexivity|].
    vm_compute. by repeat split. }
  eexists _, _. split; [vm_compute; reflexivity|].
  split; [vm_compute; reflexivity|].
  vm_compute. split; [reflexivity|]. split; [discriminate | reflexivity].
Qed.

(* ------------------------------------------------------------------ *)
(** ** One tick of the deceleration *)
(* ------------------------------------------------------------------ *)

Lemma Qmult_zero_l (x y : Q) : x == 0 -> x * y == 0.
Proof. intros H. rewrite H. ring. Qed.

(** Divisions by the constants of the source, for [lra]. *)
Ltac qdiv_consts :=
  unfold Qdiv in *;
  change (/ 100) with (1 # 100) in *;
  change (/ 1000) with (1 # 1000) in *.

(** An axis that stays strictly inside its bounds: the velocity decays
    and the position advances by the decayed velocity. *)
Lemma tickAxis_inside (st : Settings) (c : Cache) (axis : Axis)
    (v p lo hi dt f : Q) :
  getXY axis (velocity c) = Fin v ->
  getXY axis (position c) = Fin p ->
  bget Bmin axis (objectBounds c) = Fin lo ->
  bget Bmax axis (objectBounds c) = Fin hi ->
  friction st = Fin f ->
  let k := 1 - dt / 1000 * f in
  lo < p + v * k * dt -> p + v * k * dt < hi ->
  exists v' p',
    tickAxis st c (Fin dt) axis = (Fin v', Fin p') /\
    v' == v * k /\ p' == p + v * k * dt.
Proof.
  intros Hv Hp Hlo Hhi Hf k Hin1 Hin2. subst k.
  unfold tickAxis, bounce. cbn [fold_left]. rewrite Hv, Hp, Hlo, Hf.
  repeat (progress (num_simpl; qcases)).
  all: rewrite ?Hhi; repeat (progress (num_simpl; qcases)).
  all: try (exfalso; qdiv_consts; nra).
  all: eexists _, _; (split; [reflexivity|]); qdiv_consts; split; try nra.
  all: match goal with
       | H : ?a == 0 |- _ => pose proof (Qmult_zero_l a dt H)
       end; lra.
Qed.

(** The body of the pass for an object that has a cache. *)
Lemma progressObject_cached (now : Z) (s : State) (rm : list nat)
    (o : objid) (i : nat) (c : Cache) (vx px vy py : num) :
  draggable_cache (getObj s o) = Some c ->
  tickAxis (settings s) c (of_Z (now - time c)) AX = (vx, px) ->
  tickAxis (settings s) c (of_Z (now - time c)) AY = (vy, py) ->
  exists s' c',
    progressObject now (s, rm) o i =
      Ok (s', if belowThreshold {| X := vx; Y := vy |} then rm ++ [i] else rm) /\
    draggable_cache (getObj s' o) = Some c' /\
    velocity c' = {| X := vx; Y := vy |} /\
    position c' =
      (if belowThreshold {| X := vx; Y := vy |}
       then {| X := to_int32 px; Y := to_int32 py |}
       else {| X := px; Y := py |}) /\
    objectBounds c' = objectBounds c /\
    time c' = now /\
    settings s' = settings s /\
    decelerationStack s' = decelerationStack s /\
    stackLength s' = stackLength s /\
    animationLoopRunning s' = animationLoopRunning s /\
    animationFrames s' = animationFrames s /\
    currentObject s' = currentObject s /\
    (forall o', o' <> o ->
       draggable_cache (getObj s' o') = draggable_cache (getObj s o')) /\
    emitted s' = emitted s ++
      (if belowThreshold {| X := vx; Y := vy |}
       then [EObject "deceleration-end" o (position c');
             EObject "stop" o (position c')]
       else []).
Proof.
  intros Hcache HX HY.
  unfold progressObject, getCache. rewrite Hcache. cbn [defined bind].
  rewrite HX, HY.
  destruct (belowThreshold {| X := vx; Y := vy |}).
  - eexists _, _. split; [reflexivity|].
    rewrite cache_set_cache_eq. split; [reflexivity|].
    cbn [velocity position objectBounds time].
    repeat split.
    + intros o' Hne. by rewrite cache_set_cache_ne.
    + cbn. by rewrite <- app_assoc.
  - eexists _, _. split; [reflexivity|].
    rewrite cache_set_cache_eq. split; [reflexivity|].
    cbn [velocity position objectBounds time].
    repeat split.
    + intros o' Hne. by rewrite cache_set_cache_ne.
    + cbn. by rewrite app_nil_r.
Qed.

(** C2, as the code has it.  In one tick over 100 ms with [friction = 1]
    an object moving at (0.5, 0) gets the X velocity 0.45, and its X
    position advances by the decayed velocity times the elapsed time,
    45, when that keeps it strictly inside its X bounds. *)
Theorem progressObject_decay_then_move (now : Z) (s : State) (rm : list nat)
    (o : objid) (i : nat) (c : Cache) (x lo hi : Q) :
  draggable_cache (getObj s o) = Some c ->
  X (velocity c) =n= 1 # 2 ->
  Y (velocity c) =n= 0 ->
  friction (settings s) = Fin 1 ->
  (now - time c = 100)%Z ->
  X (position c) = Fin x ->
  minX (objectBounds c) = Fin lo ->
  maxX (objectBounds c) = Fin hi ->
  lo < x + 45 -> x + 45 < hi ->
  exists s' c',
    progressObject now (s, rm) o i = Ok (s', rm) /\
    draggable_cache (getObj s' o) = Some c' /\
    X (velocity c') =n= 45 # 100 /\
    X (position c') =n= x + 45.
Proof.
  intros Hcache HvX HvY Hf Hdt Hx Hlo Hhi Hin1 Hin2.
  destruct (X (velocity c)) as [v0| | |] eqn:Hv0; cbn [eqv] in HvX;
    try contradiction.
  destruct (tickAxis_inside (settings s) c AX v0 x lo hi 100 1)
    as (vx & px & HX & Hvx & Hpx);
    [exact Hv0 | exact Hx | exact Hlo | exact Hhi | exact Hf
     | qdiv_consts; rewrite HvX; lra | qdiv_consts; rewrite HvX; lra |].
  destruct (tickAxis (settings s) c (of_Z (now - time c)) AY) as [vy py] eqn:HY.
  rewrite Hdt in HY.
  destruct (progressObject_cached now s rm o i c (Fin vx) (Fin px) vy py Hcache)
    as (s' & c' & Hrun & Hc' & Hv' & Hp' & _);
    [by rewrite Hdt | by rewrite Hdt |].
  rewrite HvX in Hvx, Hpx.
  assert (Hmoving : belowThreshold {| X := Fin vx; Y := vy |} = false).
  { unfold belowThreshold. cbn [X Y Math_abs lt].
    destruct (Qle_bool_reflect (1 # 1000) (Qabs vx)) as [|Hn]; [reflexivity|].
    exfalso. apply Hn. rewrite Hvx. qdiv_consts. vm_compute. discriminate. }
  rewrite Hmoving in *.
  exists s', c'. split; [exact Hrun|]. split; [exact Hc'|].
  rewrite Hv', Hp'. cbn [X eqv]. qdiv_consts. split; lra.
Qed.

Lemma progressObject_decay_then_move_witness :
  exists s' c',
    progressObject 1200 (released, []) 0%nat 0%nat = Ok (s', []) /\
    draggable_cache (getObj s' 0%nat) = Some c' /\
    X (velocity c') =n= 45 # 100 /\
    X (position c') =n= 50 + 45.
Proof.
  epose proof (progressObject_decay_then_move 1200 released [] 0%nat 0%nat
                 _ 50 0 400) as H.
  edestruct H as (s' & c' & Hrun & Hc' & Hv & Hp); try reflexivity;
    try (vm_compute; reflexivity).
  exists s', c'. auto.
Defined.

(** C2 fails as stated: after the tick the position is 95, which is 45
    past the 50 it had, not 50 past it. *)
Lemma progressAnimations_displacement_counterexample :
  exists c s' c',
    draggable_cache (getObj released 0%nat) = Some c /\
    X (velocity c) =n= 1 # 2 /\ Y (velocity c) =n= 0 /\
    X (position c) =n= 50 /\
    friction (settings released) = Fin 1 /\
    time c = 1100%Z /\
    frame released 1200 = Ok s' /\
    draggable_cache (getObj s' 0%nat) = Some c' /\
    X (velocity c') =n= 45 # 100 /\
    X (position c') =n= 50 + 45 /\
    ~ (X (position c') =n= 50 + 50).
Proof.
  eexists _, _, _.
  split; [reflexivity|]. split; [vm_compute; reflexivity|].
  split; [vm_compute; reflexivity|]. split; [vm_compute; reflexivity|].
  split; [reflexivity|]. split; [reflexivity|].
  split; [vm_compute; reflexivity|]. split; [reflexivity|].
  split; [vm_compute; reflexivity|]. split; [vm_compute; reflexivity|].
  vm_compute. discriminate.
Qed.

(* ------------------------------------------------------------------ *)
(** ** Event bus *)
(* ------------------------------------------------------------------ *)

Module EventBusFacts.
Import EventBus.

Lemma call_count_app (b : Bus) (id : nat) (l : list nat) :
  length (filter (fun i => i = id) (calls b ++ l)) =
  (call_count b id + length (filter (fun i => i = id) l))%nat.
Proof. unfold call_count. by rewrite filter_app, length_app. Qed.

(** One trigger of an event whose only listener is a [once] closure
    around a handler: the handler runs, and the [off] inside the closure
    looks for the handler itself, finds nothing and removes nothing. *)
Lemma trigger_once_closure (b : Bus) (event : string) (cid id : nat) :
  events b !! event = Some [Closure cid event (Handler id)] ->
  trigger b event =
    Ok {| events := events b; calls := calls b ++ [id];
          nextClosure := nextClosure b |}.
Proof.
  intros Hl. unfold trigger, listeners. rewrite Hl. cbn [bind length].
  cbn [forEach_listeners]. unfold listeners. rewrite Hl. cbn [bind lookup].
  cbn [list_lookup invoke bind]. unfold off, listeners. cbn [events].
  rewrite Hl. cbn [bind indexOf].
  destruct (decide (Closure cid event (Handler id) = Handler id)) as [E|_];
    [discriminate E|].
  reflexivity.
Qed.

Lemma trigger_times_once_closure (n : nat) :
  forall (b : Bus) (event : string) (cid id : nat),
    events b !! event = Some [Closure cid event (Handler id)] ->
    exists bn,
      trigger_times n b event = Ok bn /\
      call_count bn id = (call_count b id + n)%nat /\
      events bn = events b.
Proof.
  induction n as [|n IH]; intros b event cid id Hl.
  - exists b. cbn. split; [reflexivity|]. split; [lia | reflexivity].
  - cbn [trigger_times]. rewrite (trigger_once_closure b event cid id Hl).
    cbn [bind].
    destruct (IH {| events := events b; calls := calls b ++ [id];
                    nextClosure := nextClosure b |} event cid id Hl)
      as (bn & Hrun & Hcount & Hev).
    exists bn. split; [exact Hrun|]. split; [|exact Hev].
    rewrite Hcount. unfold call_count at 1. cbn [calls].
    rewrite call_count_app. cbn. case_decide; [cbn; lia | congruence].
Qed.

(** C9, what the code does instead.  After [once(event, handler)] on an
    event without listeners, the closure stays subscribed: every trigger
    calls the handler again, [n] triggers call it [n] times, and
    [off(event, handler)] with the original handler changes nothing. *)
Theorem once_stays_subscribed (b : Bus) (event : string) (id : nat) :
  events b !! event = Some [] ->
  exists b1 closure,
    once b event (Handler id) = Ok (b1, closure) /\
    events b1 !! event = Some [closure] /\
    off b1 event (Handler id) = Ok b1 /\
    forall n, exists bn,
      trigger_times n b1 event = Ok bn /\
      call_count bn id = (call_count b id + n)%nat /\
      events bn !! event = Some [closure].
Proof.
  intros Hl. unfold once, on, listeners. cbn [events]. rewrite Hl.
  cbn [bind indexOf app].
  eexists _, _. split; [reflexivity|].
  assert (Hl1 : events (set_listeners event
                          [Closure (nextClosure b) event (Handler id)]
                          {| events := events b; calls := calls b;
                             nextClosure := S (nextClosure b) |}) !! event
                = Some [Closure (nextClosure b) event (Handler id)]).
  { unfold set_listeners. cbn [events]. by rewrite lookup_insert_eq. }
  split; [exact Hl1|]. split.
  - unfold off, listeners. rewrite Hl1. cbn [bind indexOf].
    destruct (decide (Closure (nextClosure b) event (Handler id) = Handler id))
      as [E|_]; [discriminate E | reflexivity].
  - intros n.
    destruct (trigger_times_once_closure n _ event (nextClosure b) id Hl1)
      as (bn & Hrun & Hcount & Hev).
    exists bn. split; [exact Hrun|]. split; [exact Hcount|].
    rewrite Hev. exact Hl1.
Qed.

Lemma once_stays_subscribed_witness :
  exists b1 closure b2,
    once new_bus "stop" (Handler 7) = Ok (b1, closure) /\
    trigger_times 2 b1 "stop" = Ok b2 /\
    call_count b2 7 = 2%nat /\
    events b2 !! "stop" = Some [closure].
Proof.
  destruct (once_stays_subscribed new_bus "stop" 7) as
    (b1 & closure & Honce & _ & _ & Hn); [reflexivity|].
  destruct (Hn 2%nat) as (b2 & Hrun & Hcount & Hev).
  exists b1, closure, b2. auto.
Defined.

End EventBusFacts.

(* ------------------------------------------------------------------ *)
(** ** Removal after the pass *)
(* ------------------------------------------------------------------ *)

(** The indices are spliced out in ascending order, each against the
    stack the earlier splices have already shortened. *)
Example removeFromStack_two_of_three :
  removeFromStack [0%nat; 1%nat; 2%nat] [0%nat; 1%nat] = [1%nat].
Proof. reflexivity. Qed.

(** C8, what the code does instead.  With the objects 0 and 1 stopping
    in the same tick and the object 2 still moving, the tick marks 0 and
    1 (each gets its [stop]) but leaves the stack [[1]]: the marked
    object 1 stays and the moving object 2 is gone. *)
Theorem progressAnimations_removes_wrong_objects :
  exists s',
    decelerationStack two_stopping_one_moving = [0%nat; 1%nat; 2%nat] /\
    frame two_stopping_one_moving 1016 = Ok s' /\
    emitted_count "stop" 0%nat s' = 1%nat /\
    emitted_count "stop" 1%nat s' = 1%nat /\
    emitted_count "stop" 2%nat s' = 0%nat /\
    decelerationStack s' = [1%nat] /\
    (exists c2, draggable_cache (getObj s' 2%nat) = Some c2 /\
                belowThreshold (velocity c2) = false).
Proof.
  eexists. split; [reflexivity|]. split; [vm_compute; reflexivity|].
  repeat split. eexists. split; reflexivity.
Qed.

(* ------------------------------------------------------------------ *)
(** ** Membership of the deceleration stack *)
(* ------------------------------------------------------------------ *)

Lemma splice_one {A : Type} (l : list A) (i : nat) :
  splice l i 1 = delete i l.
Proof. unfold splice. by rewrite Nat.add_1_r, delete_take_drop. Qed.

Lemma indexOf_Some {A : Type} `{EqDecision A} (l : list A) (x : A) (i : nat) :
  indexOf l x = Some i -> l !! i = Some x.
Proof.
  revert i. induction l as [|y l IH]; intros i; cbn; [discriminate|].
  destruct (decide (y = x)) as [->|Hne].
  - intros [= <-]. reflexivity.
  - destruct (indexOf l x) as [j|] eqn:Hj; [|discriminate].
    intros [= <-]. cbn. by apply IH.
Qed.

Lemma indexOf_None {A : Type} `{EqDecision A} (l : list A) (x : A) :
  indexOf l x = None -> x ∉ l.
Proof.
  induction l as [|y l IH]; cbn; [intros _; apply not_elem_of_nil|].
  destruct (decide (y = x)) as [->|Hne]; [discriminate|].
  destruct (indexOf l x); [discriminate|].
  intros _. apply not_elem_of_cons. split; [congruence | by apply IH].
Qed.

Lemma NoDup_delete {A : Type} (l : list A) (i : nat) :
  NoDup l -> NoDup (delete i l).
Proof. intros Hnd. eapply sublist_NoDup; [exact Hnd | apply sublist_delete]. Qed.

Lemma not_elem_of_delete {A : Type} (l : list A) (i : nat) (x : A) :
  x ∉ l -> x ∉ delete i l.
Proof.
  intros Hx Hin. apply Hx.
  eapply elem_of_sublist; [exact Hin | apply sublist_delete].
Qed.

Lemma NoDup_delete_lookup {A : Type} (l : list A) (i : nat) (x : A) :
  NoDup l -> l !! i = Some x -> x ∉ delete i l.
Proof.
  intros Hnd Hi.
  rewrite <- (take_drop_middle l i x Hi) in Hnd.
  rewrite delete_take_drop.
  apply NoDup_app in Hnd as (Hl & Hlr & Hr).
  apply NoDup_cons in Hr as (Hxr & _).
  intros [Hin | Hin]%elem_of_app; [|contradiction].
  apply (Hlr x Hin). left.
Qed.

Lemma removeFromStack_sublist (rm : list nat) :
  forall stack : list objid, removeFromStack stack rm `sublist_of` stack.
Proof.
  unfold removeFromStack.
  induction rm as [|i rm IH]; intros stack; cbn [fold_left]; [reflexivity|].
  etransitivity; [apply IH|]. rewrite splice_one. apply sublist_delete.
Qed.

(** The pass over the stack leaves the stack and the dragged object. *)
Lemma progressObject_frame (now : Z) (s s' : State) (rm rm' : list nat)
    (o : objid) (i : nat) :
  progressObject now (s, rm) o i = Ok (s', rm') ->
  decelerationStack s' = decelerationStack s /\
  currentObject s' = currentObject s.
Proof.
  unfold progressObject. destruct (getCache s o) as [c|]; cbn [bind];
    [|discriminate].
  destruct (tickAxis _ _ _ AX), (tickAxis _ _ _ AY).
  destruct (belowThreshold _); intros [= <- _]; split; reflexivity.
Qed.

Lemma forEach_stack_frame (now : Z) (stack : list objid) :
  forall (i : nat) (s s' : State) (rm rm' : list nat),
    forEach_stack now stack i (s, rm) = Ok (s', rm') ->
    decelerationStack s' = decelerationStack s /\
    currentObject s' = currentObject s.
Proof.
  induction stack as [|o stack IH]; intros i s s' rm rm'; cbn [forEach_stack].
  - intros [= <- _]. split; reflexivity.
  - destruct (progressObject now (s, rm) o i) as [[s1 rm1]|] eqn:H1;
      cbn [bind]; [|discriminate].
    intros H2. apply progressObject_frame in H1 as [E1 E2].
    apply IH in H2 as [E3 E4]. split; congruence.
Qed.

Lemma stack_exclusive_new (st : Settings) (objs : list objid) :
  stack_exclusive (new_state st objs).
Proof.
  split; cbn; [apply NoDup_nil_2 | discriminate].
Qed.

Lemma stack_exclusive_step (s s' : State) (a : Action) :
  step s a = Ok s' -> stack_exclusive s -> stack_exclusive s'.
Proof.
  intros Hstep [Hnd Hcur]. destruct a as [event dom now|event now|now|now];
    cbn [step] in Hstep.
  - (* onMouseDown *)
    unfold onMouseDown in Hstep.
    destruct (negb _); [injection Hstep as <-; by split|].
    destruct (indexOf (decelerationStack s) (currentTarget event))
      as [i|] eqn:Hidx; injection Hstep as <-; split; cbn.
    + rewrite splice_one. by apply NoDup_delete.
    + intros o [= <-]. rewrite splice_one.
      apply NoDup_delete_lookup; [exact Hnd | by apply indexOf_Some].
    + exact Hnd.
    + intros o [= <-]. by apply indexOf_None.
  - (* onMouseMove *)
    unfold onMouseMove in Hstep.
    destruct (currentObject s) as [o|] eqn:Ho;
      [|injection Hstep as <-; split; [exact Hnd | by rewrite Ho]].
    destruct (draggable_mouseIsDown _);
      [|injection Hstep as <-; split; [exact Hnd | by rewrite Ho]].
    destruct (getCache s o) as [c|]; cbn [bind] in Hstep; [|discriminate].
    destruct (containerCache s) as [g|]; cbn [defined bind] in Hstep;
      [|discriminate].
    injection Hstep as <-. split; cbn; [exact Hnd | by rewrite Ho].
  - (* onMouseUp *)
    destruct (currentObject s) as [o|] eqn:Ho.
    + destruct (draggable_cache (getObj s o)) as [c|] eqn:Hc.
      * destruct (onMouseUp_release s o c now Ho Hc)
          as (s1 & c1 & Hrun & _ & _ & _ & Hcur1 & Hstack1).
        rewrite Hrun in Hstep. injection Hstep as <-.
        split; [|by rewrite Hcur1].
        rewrite Hstack1. destruct (_ && _); [|exact Hnd].
        apply NoDup_app. split; [exact Hnd|]. split; [|apply NoDup_singleton].
        intros x Hx [= ->]%list_elem_of_singleton. by apply (Hcur o).
      * unfold onMouseUp, getCache in Hstep. rewrite Ho, Hc in Hstep.
        discriminate.
    + unfold onMouseUp in Hstep. rewrite Ho in Hstep.
      injection Hstep as <-. split; [exact Hnd | by rewrite Ho].
  - (* frame *)
    unfold frame in Hstep.
    destruct (animationFrames s) as [|n];
      [injection Hstep as <-; by split|].
    unfold progressAnimations in Hstep. cbn [decelerationStack] in Hstep.
    match type of Hstep with
    | context [forEach_stack ?t ?l ?i ?acc] =>
        destruct (forEach_stack t l i acc) as [[s1 rm]|] eqn:Hpass
    end; cbn [bind] in Hstep; [|discriminate].
    apply forEach_stack_frame in Hpass as [E1 E2]. cbn in E1, E2.
    assert (Hsub : removeFromStack (decelerationStack s1) rm
                     `sublist_of` decelerationStack s)
      by (rewrite <- E1; apply removeFromStack_sublist).
    destruct (le _ _); cbn in Hstep;
      [|destruct (animationLoopRunning s1)];
      injection Hstep as <-; split; cbn.
    all: try (eapply sublist_NoDup; [exact Hnd | exact Hsub]).
    all: rewrite E2; intros o Ho Hin; apply (Hcur o Ho);
      eapply elem_of_sublist; [exact Hin | exact Hsub].
Qed.

Lemma stack_exclusive_run (actions : list Action) :
  forall s s', run s actions = Ok s' -> stack_exclusive s -> stack_exclusive s'.
Proof.
  induction actions as [|a actions IH]; intros s s'; cbn [run].
  - by intros [= <-].
  - destruct (step s a) as [s1|] eqn:Hstep; cbn [bind]; [|discriminate].
    intros Hrun Hinv. eapply IH; [exact Hrun|].
    eapply stack_exclusive_step; [exact Hstep | exact Hinv].
Qed.

Lemma stack_exclusive_reachable (s : State) :
  reachable s -> stack_exclusive s.
Proof.
  intros (st & objs & actions & Hrun).
  eapply stack_exclusive_run; [exact Hrun | apply stack_exclusive_new].
Qed.

(** C5, as the code has it.  [animateDeceleration] appends without
    looking; it is the pointer handlers that keep the stack free of
    duplicates: in every state the engine reaches from its construction
    by pointer events and frames no object is twice in the stack, and a
    release with a non-zero velocity and deceleration enabled appends
    the released object, which was not in the stack, exactly once. *)
Theorem release_enqueues_once (s : State) :
  reachable s ->
  NoDup (decelerationStack s) /\
  forall (o : objid) (c : Cache) (now : Z),
    currentObject s = Some o ->
    draggable_cache (getObj s o) = Some c ->
    deceleration (settings s) = true ->
    hasSpeed (releaseVelocity c now) = true ->
    exists s',
      onMouseUp s now = Ok s' /\
      (o ∉ decelerationStack s) /\
      decelerationStack s' = decelerationStack s ++ [o] /\
      NoDup (decelerationStack s').
Proof.
  intros Hreach.
  destruct (stack_exclusive_reachable s Hreach) as [Hnd Hcur].
  split; [exact Hnd|].
  intros o c now Ho Hc Hdec Hspeed.
  destruct (onMouseUp_release s o c now Ho Hc)
    as (s' & c' & Hrun & _ & _ & _ & _ & Hstack).
  rewrite Hdec, Hspeed in Hstack. cbn [andb] in Hstack.
  exists s'. split; [exact Hrun|]. split; [by apply Hcur|].
  split; [exact Hstack|].
  assert (Hreach' : reachable s').
  { destruct Hreach as (st & objs & actions & Hacts).
    exists st, objs, (actions ++ [MouseUp now]).
    clear -Hacts Hrun. revert Hacts. generalize (new_state st objs).
    induction actions as [|a actions IH]; intros s0; cbn [run app].
    - intros [= ->]. cbn [step]. rewrite Hrun. reflexivity.
    - destruct (step s0 a) as [s1|]; cbn [bind]; [apply IH | discriminate]. }
  apply (stack_exclusive_reachable s' Hreach').
Qed.

Lemma release_enqueues_once_witness :
  exists s',
    onMouseUp dragging 1100 = Ok s' /\
    decelerationStack s' = [0%nat].
Proof.
  assert (Hreach : reachable dragging).
  { exists default_settings, [0%nat],
      [MouseDown (pointer 20 20 0%nat) scene_dom 1000;
       MouseMove (pointer 70 20 0%nat) 1100].
    reflexivity. }
  destruct (release_enqueues_once dragging Hreach) as [_ Hrelease].
  epose proof (Hrelease 0%nat _ 1100%Z) as H.
  edestruct H as (s' & Hrun & _ & Hstack & _); try reflexivity.
  exists s'. split; [exact Hrun | exact Hstack].
Defined.

(** C5 fails as stated: [animateDeceleration] on an object that is
    already in the stack puts it there a second time. *)
Lemma animateDeceleration_duplicates_counterexample :
  decelerationStack released = [0%nat] /\
  exists s',
    animateDeceleration released 0%nat 1200 = Ok s' /\
    decelerationStack s' = [0%nat; 0%nat].
Proof.
  split; [reflexivity|]. eexists. split; reflexivity.
Qed.

(* ------------------------------------------------------------------ *)
(** ** A single coasting object *)
(* ------------------------------------------------------------------ *)


















(* ================================================================== *)
(** * Further properties of the code *)
(* ================================================================== *)

(* ------------------------------------------------------------------ *)
(** ** Event bus: subscribing, unsubscribing, triggering *)
(* ------------------------------------------------------------------ *)

Module EventBusLaws.
Import EventBus.

(** Both ways in which an unknown event name makes a method throw. *)
Ltac no_listeners :=
  destruct (String.eqb _ "__proto__"); cbn [bind]; discriminate.

Lemma indexOf_app_fresh {A : Type} `{EqDecision A} (l : list A) (x : A) :
  indexOf l x = None -> indexOf (l ++ [x]) x = Some (length l).
Proof.
  induction l as [|y l IH]; cbn [indexOf app length].
  - intros _. by rewrite decide_True.
  - destruct (decide (y = x)); [discriminate|].
    destruct (indexOf l x) eqn:E; [discriminate|].
    intros _. by rewrite IH.
Qed.

Lemma splice_last {A : Type} (l : list A) (x : A) :
  splice (l ++ [x]) (length l) 1 = l.
Proof.
  unfold splice. rewrite take_app_length.
  rewrite drop_ge by (rewrite length_app; cbn; lia). apply app_nil_r.
Qed.

Lemma bus_eta (b : Bus) :
  {| events := events b; calls := calls b; nextClosure := nextClosure b |} = b.
Proof. by destruct b. Qed.

(** X2.  Subscribing is idempotent: once [on] has gone through, the
    same [on] again changes nothing, and the callback is subscribed. *)
Theorem on_idempotent (b b1 : Bus) (event : string) (cb : callback) :
  on b event cb = Ok b1 ->
  on b1 event cb = Ok b1 /\
  exists l, events b1 !! event = Some l /\ cb ∈ l.
Proof.
  unfold on, listeners.
  destruct (events b !! event) as [l|] eqn:Hl; cbn [bind];
    [|no_listeners].
  destruct (indexOf l cb) as [i|] eqn:Hi; intros [= <-].
  - rewrite Hl. cbn [bind]. rewrite Hi. split; [reflexivity|].
    exists l. split; [reflexivity|].
    apply list_elem_of_lookup. exists i. by apply indexOf_Some.
  - unfold set_listeners. cbn [events]. rewrite lookup_insert_eq. cbn [bind].
    rewrite (indexOf_app_fresh l cb Hi). split; [reflexivity|].
    exists (l ++ [cb]). split; [reflexivity|].
    apply elem_of_app. right. by apply list_elem_of_singleton.
Qed.

Lemma on_idempotent_witness :
  exists b1, on new_bus "stop" (Handler 3) = Ok b1 /\
             on b1 "stop" (Handler 3) = Ok b1.
Proof.
  exists (set_listeners "stop" [Handler 3] new_bus).
  split; [reflexivity|].
  apply (on_idempotent new_bus _ "stop" (Handler 3)). reflexivity.
Defined.

(** X3.  [off] undoes [on]: subscribing a callback that was not
    subscribed and unsubscribing it again gives back the bus as it
    was. *)
Theorem on_off_round_trip (b : Bus) (event : string) (cb : callback)
    (l : list callback) :
  events b !! event = Some l ->
  cb ∉ l ->
  exists b1, on b event cb = Ok b1 /\ off b1 event cb = Ok b.
Proof.
  intros Hl Hfresh.
  assert (Hi : indexOf l cb = None).
  { destruct (indexOf l cb) as [i|] eqn:Hi; [|reflexivity].
    exfalso. apply Hfresh. apply list_elem_of_lookup. exists i.
    by apply indexOf_Some. }
  unfold on, off, listeners. rewrite Hl. cbn [bind]. rewrite Hi.
  eexists. split; [reflexivity|].
  unfold set_listeners. cbn [events calls nextClosure].
  rewrite lookup_insert_eq. cbn [bind].
  rewrite (indexOf_app_fresh l cb Hi), splice_last.
  rewrite insert_insert_eq, (insert_id _ _ _ Hl). by rewrite bus_eta.
Qed.

Lemma on_off_round_trip_witness :
  exists b1, on new_bus "drag-move" (Handler 1) = Ok b1 /\
             off b1 "drag-move" (Handler 1) = Ok new_bus.
Proof.
  apply (on_off_round_trip new_bus "drag-move" (Handler 1) []);
    [reflexivity | apply not_elem_of_nil].
Defined.

(** A run of plain handlers in the listener array: each is called, in
    array order, and the loop goes on behind them. *)
Lemma forEach_handlers (event : string) (l : list callback) (ids : list nat) :
  forall (k m : nat) (b : Bus),
    events b !! event = Some l ->
    take (length ids) (drop k l) = map Handler ids ->
    forEach_listeners (length ids + m) k event b =
    forEach_listeners m (k + length ids) event
      {| events := events b; calls := calls b ++ ids;
         nextClosure := nextClosure b |}.
Proof.
  induction ids as [|id ids IH]; intros k m b Hl Htake.
  - cbn [length Nat.add]. by rewrite Nat.add_0_r, app_nil_r, bus_eta.
  - cbn [length Nat.add forEach_listeners]. unfold listeners. rewrite Hl.
    cbn [bind].
    destruct (l !! k) as [cb|] eqn:Hk.
    + rewrite (drop_S l cb k Hk) in Htake. cbn [length take map] in Htake.
      injection Htake as -> Htake. cbn [invoke bind].
      rewrite (IH (S k) m
                 {| events := events b; calls := calls b ++ [id];
                    nextClosure := nextClosure b |} Hl Htake).
      cbn [events calls nextClosure].
      by rewrite <- app_assoc, Nat.add_succ_r.
    + apply lookup_ge_None in Hk. rewrite drop_ge in Htake by exact Hk.
      discriminate.
Qed.

(** X4.  Triggering an event whose listeners are plain handlers calls
    each of them once, in the order they were subscribed, and leaves
    the subscriptions alone. *)
Theorem trigger_calls_in_order (b : Bus) (event : string) (ids : list nat) :
  events b !! event = Some (map Handler ids) ->
  trigger b event =
    Ok {| events := events b; calls := calls b ++ ids;
          nextClosure := nextClosure b |}.
Proof.
  intros Hl. unfold trigger, listeners. rewrite Hl. cbn [bind].
  rewrite length_map.
  rewrite <- (Nat.add_0_r (length ids)).
  rewrite (forEach_handlers event (map Handler ids) ids 0 0 b Hl).
  - reflexivity.
  - rewrite drop_0, <- (length_map Handler ids). apply firstn_all.
Qed.

Lemma trigger_calls_in_order_witness :
  exists b1 b2 b3,
    on new_bus "stop" (Handler 1) = Ok b1 /\
    on b1 "stop" (Handler 2) = Ok b2 /\
    trigger b2 "stop" = Ok b3 /\
    calls b3 = [1%nat; 2%nat].
Proof.
  exists (set_listeners "stop" [Handler 1] new_bus).
  exists (set_listeners "stop" [Handler 1; Handler 2]
            (set_listeners "stop" [Handler 1] new_bus)).
  eexists. split; [reflexivity|]. split; [reflexivity|].
  split; [apply (trigger_calls_in_order _ "stop" [1%nat; 2%nat]); reflexivity|].
  reflexivity.
Defined.

Lemma set_listeners_dom (b : Bus) (event : string) (l : list callback) :
  is_Some (events b !! event) ->
  dom (events (set_listeners event l b)) = dom (events b).
Proof.
  intros Hsome. unfold set_listeners. cbn [events]. rewrite dom_insert_L.
  apply subseteq_union_1_L, singleton_subseteq_l, elem_of_dom, Hsome.
Qed.

Lemma on_dom (b b' : Bus) (event : string) (cb : callback) :
  on b event cb = Ok b' -> dom (events b') = dom (events b).
Proof.
  unfold on, listeners.
  destruct (events b !! event) as [l|] eqn:Hl; cbn [bind];
    [|no_listeners].
  destruct (indexOf l cb); intros [= <-]; [reflexivity|].
  apply set_listeners_dom. by rewrite Hl.
Qed.

Lemma off_dom (b b' : Bus) (event : string) (cb : callback) :
  off b event cb = Ok b' -> dom (events b') = dom (events b).
Proof.
  unfold off, listeners.
  destruct (events b !! event) as [l|] eqn:Hl; cbn [bind];
    [|no_listeners].
  destruct (indexOf l cb); intros [= <-]; [|reflexivity].
  apply set_listeners_dom. by rewrite Hl.
Qed.

Lemma invoke_dom (cb : callback) :
  forall b b', invoke b cb = Ok b' -> dom (events b') = dom (events b).
Proof.
  induction cb as [id|cid event cb IH]; intros b b'; cbn [invoke].
  - by intros [= <-].
  - destruct (invoke b cb) as [b1|] eqn:H1; cbn [bind]; [|discriminate].
    intros H2. apply off_dom in H2. rewrite H2. by apply IH.
Qed.

Lemma forEach_listeners_dom (event : string) (n : nat) :
  forall k b b',
    forEach_listeners n k event b = Ok b' ->
    dom (events b') = dom (events b).
Proof.
  induction n as [|n IH]; intros k b b'; cbn [forEach_listeners].
  - by intros [= <-].
  - destruct (listeners b event) as [l|]; cbn [bind]; [|discriminate].
    destruct (l !! k) as [cb|]; [|apply IH].
    destruct (invoke b cb) as [b1|] eqn:H1; cbn [bind]; [|discriminate].
    intros H2. apply IH in H2. rewrite H2. by apply (invoke_dom cb).
Qed.

Lemma once_dom (b b' : Bus) (closure : callback) (event : string)
    (cb : callback) :
  once b event cb = Ok (b', closure) -> dom (events b') = dom (events b).
Proof.
  unfold once.
  match goal with
  | |- context [on ?b1 event ?c] =>
      destruct (on b1 event c) as [b2|] eqn:Hon
  end; cbn [bind]; [|discriminate].
  intros [= <- _]. by apply on_dom in Hon.
Qed.

Lemma trigger_dom (b b' : Bus) (event : string) :
  trigger b event = Ok b' -> dom (events b') = dom (events b).
Proof.
  unfold trigger.
  destruct (listeners b event) as [l|]; cbn [bind]; [|discriminate].
  apply forEach_listeners_dom.
Qed.

Lemma run_calls_dom (cs : list EventBusRuns.Call) :
  forall b b',
    EventBusRuns.run_calls b cs = Ok b' -> dom (events b') = dom (events b).
Proof.
  induction cs as [|c cs IH]; intros b b'; cbn [EventBusRuns.run_calls].
  - by intros [= <-].
  - destruct (EventBusRuns.call b c) as [b1|] eqn:Hc; cbn [bind];
      [|discriminate].
    intros Hrest. rewrite (IH b1 b' Hrest).
    destruct c as [event cb|event cb|event cb|event];
      cbn [EventBusRuns.call] in Hc.
    + by eapply on_dom.
    + by eapply off_dom.
    + destruct (once b event cb) as [[b2 closure]|] eqn:Honce;
        cbn [bind fst] in Hc; [|discriminate].
      injection Hc as <-. by eapply once_dom.
    + by eapply trigger_dom.
Qed.

Lemma new_events_names (event : string) :
  is_Some (new_events !! event) <-> event ∈ EventBusRuns.event_names.
Proof.
  unfold new_events, EventBusRuns.event_names.
  rewrite !lookup_insert_is_Some', lookup_empty, !elem_of_cons, elem_of_nil.
  split.
  - intros H. repeat destruct H as [H|H]; subst; auto 10.
    by destruct H.
  - intros H. repeat destruct H as [H|H]; subst; auto 10.
    contradiction.
Qed.

(** X1.  Throughout the life of a bus exactly the seven event names of
    the constructor are accepted.  After any calls of [on], [off],
    [once] and [trigger] that went through, [on], [off] and [once] go
    through for each of the seven names, and for every other name all
    four methods throw: [Invalid event type specified], except for
    [__proto__], which passes the guard and fails with a [TypeError]
    at the array method. *)
Theorem accepted_event_names (cs : list EventBusRuns.Call) (b : Bus)
    (event : string) (cb : callback) :
  EventBusRuns.run_calls new_bus cs = Ok b ->
  (event ∈ EventBusRuns.event_names ->
   (exists b', on b event cb = Ok b') /\
   (exists b', off b event cb = Ok b') /\
   (exists b' closure, once b event cb = Ok (b', closure))) /\
  (event ∉ EventBusRuns.event_names ->
   let error := if String.eqb event "__proto__" then "TypeError"
                else "Invalid event type specified" in
   on b event cb = Throw error /\
   off b event cb = Throw error /\
   once b event cb = Throw error /\
   trigger b event = Throw error).
Proof.
  intros Hrun. apply run_calls_dom in Hrun.
  assert (Hkey : is_Some (events b !! event) <->
                 event ∈ EventBusRuns.event_names).
  { rewrite <- new_events_names, <- !elem_of_dom, Hrun. reflexivity. }
  split.
  - intros [l Hl]%Hkey.
    unfold once, on, off, listeners. cbn [events]. rewrite Hl. cbn [bind].
    split; [destruct (indexOf l cb); eauto|].
    split; [destruct (indexOf l cb); eauto|].
    destruct (indexOf l _); cbn [bind]; eauto.
  - intros Hnot. rewrite <- Hkey in Hnot.
    apply eq_None_not_Some in Hnot.
    cbv zeta. unfold once, on, off, trigger, listeners. cbn [events].
    rewrite Hnot. by destruct (String.eqb event "__proto__").
Qed.

Lemma accepted_event_names_witness :
  exists b,
    EventBusRuns.run_calls new_bus
      [EventBusRuns.CallOnce "stop" (Handler 1);
       EventBusRuns.CallTrigger "stop"] = Ok b /\
    trigger b "__proto__" = Throw "TypeError" /\
    trigger b "click" = Throw "Invalid event type specified".
Proof.
  destruct (EventBusRuns.run_calls new_bus
              [EventBusRuns.CallOnce "stop" (Handler 1);
               EventBusRuns.CallTrigger "stop"]) as [b|] eqn:Hrun.
  2:{ exfalso. vm_compute in Hrun. discriminate Hrun. }
  exists b. split; [reflexivity|].
  destruct (accepted_event_names _ b "__proto__" (Handler 0) Hrun)
    as [_ Hproto].
  destruct (accepted_event_names _ b "click" (Handler 0) Hrun)
    as [_ Hclick].
  split.
  - apply Hproto. unfold EventBusRuns.event_names.
    rewrite !not_elem_of_cons. repeat split; try discriminate.
    apply not_elem_of_nil.
  - apply Hclick. unfold EventBusRuns.event_names.
    rewrite !not_elem_of_cons. repeat split; try discriminate.
    apply not_elem_of_nil.
Defined.

(** X5.  The set of event names is closed: no operation of the bus
    that goes through adds a name to the table or takes one away, not
    even a trigger whose listeners unsubscribe while it runs. *)
Theorem event_names_closed (b : Bus) (event : string) (cb : callback) :
  (forall b', on b event cb = Ok b' -> dom (events b') = dom (events b)) /\
  (forall b', off b event cb = Ok b' -> dom (events b') = dom (events b)) /\
  (forall b' closure, once b event cb = Ok (b', closure) ->
                      dom (events b') = dom (events b)) /\
  (forall b', trigger b event = Ok b' -> dom (events b') = dom (events b)).
Proof.
  split; [intros b'; apply on_dom|]. split; [intros b'; apply off_dom|].
  split.
  - intros b' closure. unfold once.
    match goal with
    | |- context [on ?b1 event ?c] =>
        destruct (on b1 event c) as [b2|] eqn:Hon
    end; cbn [bind]; [|discriminate].
    intros [= <- _]. by apply on_dom in Hon.
  - intros b'. unfold trigger.
    destruct (listeners b event) as [l|]; cbn [bind]; [|discriminate].
    apply forEach_listeners_dom.
Qed.

Lemma event_names_closed_witness :
  exists b1 closure b2,
    once new_bus "stop" (Handler 7) = Ok (b1, closure) /\
    trigger b1 "stop" = Ok b2 /\
    dom (events b2) = dom (events new_bus).
Proof.
  destruct (once new_bus "stop" (Handler 7)) as [[b1 closure]|] eqn:Honce;
    [|discriminate Honce].
  destruct (trigger b1 "stop") as [b2|] eqn:Htrigger.
  - exists b1, closure, b2. split; [reflexivity|]. split; [exact Htrigger|].
    destruct (event_names_closed b1 "stop" (Handler 7)) as (_ & _ & _ & Ht).
    destruct (event_names_closed new_bus "stop" (Handler 7))
      as (_ & _ & Ho & _).
    rewrite (Ht b2 Htrigger). exact (Ho b1 closure Honce).
  - exfalso. injection Honce as <- <-. vm_compute in Htrigger.
    discriminate Htrigger.
Defined.

Lemma indexOf_middle {A : Type} `{EqDecision A} (l1 l2 : list A) (x : A) :
  x ∉ l1 -> indexOf (l1 ++ x :: l2) x = Some (length l1).
Proof.
  induction l1 as [|y l1 IH]; cbn [app indexOf length].
  - intros _. by rewrite decide_True.
  - intros [Hne Hnot]%not_elem_of_cons.
    rewrite decide_False by congruence. by rewrite IH.
Qed.

Lemma splice_middle {A : Type} (l1 l2 : list A) (x : A) :
  splice (l1 ++ x :: l2) (length l1) 1 = l1 ++ l2.
Proof.
  unfold splice. rewrite take_app_length, Nat.add_1_r.
  change (x :: l2) with ([x] ++ l2). rewrite app_assoc.
  rewrite drop_app_length'; [reflexivity|]. rewrite length_app. cbn. lia.
Qed.

Lemma indexOf_closure_fresh (ids : list nat) (closure : callback) :
  (forall id, closure <> Handler id) ->
  indexOf (map Handler ids) closure = None.
Proof.
  intros Hc. induction ids as [|x ids IH]; cbn [map indexOf]; [reflexivity|].
  rewrite decide_False by apply not_eq_sym, Hc. by rewrite IH.
Qed.

(** X6.  [once] on a handler that is already subscribed, on an event
    whose listeners are all plain handlers: at the next trigger every
    handler is called in subscription order, then the closure calls the
    handler a second time and its [off(event, handler)] removes the
    handler's own subscription, wherever in the list it was; the other
    handlers and the closure stay, in their order. *)
Theorem once_removes_direct_subscription (b : Bus) (event : string)
    (id : nat) (before after : list nat) :
  events b !! event = Some (map Handler (before ++ id :: after)) ->
  id ∉ before ->
  exists b1 closure b2,
    once b event (Handler id) = Ok (b1, closure) /\
    trigger b1 event = Ok b2 /\
    events b2 !! event = Some (map Handler (before ++ after) ++ [closure]) /\
    calls b2 = calls b ++ (before ++ id :: after) ++ [id].
Proof.
  intros Hl Hnot.
  set (ids := before ++ id :: after) in *.
  set (closure := Closure (nextClosure b) event (Handler id)).
  set (l1 := map Handler ids ++ [closure]).
  assert (Hfresh : indexOf (map Handler ids) closure = None)
    by (apply indexOf_closure_fresh; discriminate).
  unfold once, on, listeners. cbn [events]. rewrite Hl. cbn [bind].
  fold closure. rewrite Hfresh. fold l1.
  eexists _, closure, _. split; [reflexivity|].
  assert (Hl1 : forall c n,
            events (set_listeners event l1
                      {| events := events b; calls := c; nextClosure := n |})
              !! event = Some l1).
  { intros. unfold set_listeners. cbn [events]. apply lookup_insert_eq. }
  unfold trigger, listeners. rewrite Hl1. cbn [bind].
  replace (length l1) with (length ids + 1)%nat
    by (subst l1; by rewrite length_app, length_map).
  rewrite (forEach_handlers event l1 ids 0 1 _ (Hl1 _ _)).
  2:{ rewrite drop_0. subst l1.
      rewrite <- (length_map Handler ids).
      by rewrite take_app_length. }
  assert (Hlast : l1 !! length ids = Some closure).
  { subst l1. rewrite <- (length_map Handler ids).
    by rewrite list_lookup_middle. }
  cbn [Nat.add forEach_listeners]. unfold listeners.
  cbn [events calls nextClosure set_listeners]. rewrite lookup_insert_eq.
  cbn [bind]. rewrite Hlast. subst closure. cbn [invoke bind].
  unfold off, listeners. cbn [events]. rewrite lookup_insert_eq.
  cbn [bind].
  assert (Hshape : l1 = map Handler before
                        ++ Handler id
                        :: (map Handler after
                            ++ [Closure (nextClosure b) event (Handler id)])).
  { subst l1 ids. rewrite map_app. cbn [map]. by rewrite <- app_assoc. }
  rewrite Hshape.
  rewrite indexOf_middle.
  2:{ intros (x & [= ->] & Hin)%list_elem_of_fmap. contradiction. }
  rewrite splice_middle. cbn [bind].
  split; [reflexivity|]. cbn [set_listeners events calls].
  split; [by rewrite lookup_insert_eq, map_app, app_assoc|].
  by rewrite <- app_assoc.
Qed.

Lemma once_removes_direct_subscription_witness :
  exists b1 closure b2,
    once (set_listeners "stop" [Handler 1; Handler 7; Handler 2] new_bus)
         "stop" (Handler 7) = Ok (b1, closure) /\
    trigger b1 "stop" = Ok b2 /\
    events b2 !! "stop" = Some [Handler 1; Handler 2; closure] /\
    calls b2 = [1%nat; 7%nat; 2%nat; 7%nat].
Proof.
  apply (once_removes_direct_subscription
           (set_listeners "stop" [Handler 1; Handler 7; Handler 2] new_bus)
           "stop" 7 [1%nat] [2%nat]).
  - reflexivity.
  - intros H%list_elem_of_singleton. discriminate H.
Defined.

End EventBusLaws.

(* ------------------------------------------------------------------ *)
(** ** What the handlers keep *)
(* ------------------------------------------------------------------ *)

Lemma parseMatrix_length (t : option (list num)) : length (parseMatrix t) = 6%nat.
Proof.
  destruct t as [l|]; cbn [parseMatrix]; [|reflexivity].
  destruct (length l =? 6)%nat eqn:E; [by apply Nat.eqb_eq | reflexivity].
Qed.

Lemma setObjectMatrix_length (c : Cache) (p : XY) :
  length (setObjectMatrix c p) = length (matrix c).
Proof. unfold setObjectMatrix. cbn [fold_left]. by rewrite !length_insert. Qed.

Lemma truthy_length_snoc {A : Type} (l : list A) (x : A) :
  truthy (Fin (inject_Z (Z.of_nat (length (l ++ [x]))))) = true.
Proof.
  cbn [truthy]. destruct (Qeq_bool_reflect (inject_Z (Z.of_nat (length (l ++ [x])))) 0)
    as [E|_]; [|reflexivity].
  apply -> inject_Z_zero in E. rewrite length_app in E. cbn [length] in E. lia.
Qed.

Lemma same_control_refl (s : State) : same_control s s.
Proof. repeat split. Qed.

Lemma same_control_trans (s1 s2 s3 : State) :
  same_control s1 s2 -> same_control s2 s3 -> same_control s1 s3.
Proof.
  intros (A1 & A2 & A3 & A4 & A5 & A6 & A7) (B1 & B2 & B3 & B4 & B5 & B6 & B7).
  repeat split; congruence.
Qed.

(** The body of the pass goes through for an object that has its cache,
    and touches nothing but that object and the trace. *)
Lemma progressObject_step (now : Z) (s : State) (rm : list nat)
    (o : objid) (i : nat) :
  is_Some (draggable_cache (getObj s o)) ->
  exists s' rm',
    progressObject now (s, rm) o i = Ok (s', rm') /\
    same_control s s' /\
    (forall o', o' <> o -> getObj s' o' = getObj s o') /\
    (exists c c', draggable_cache (getObj s o) = Some c /\
                  draggable_cache (getObj s' o) = Some c' /\
                  length (matrix c') = length (matrix c)).
Proof.
  intros [c Hc].
  destruct (tickAxis (settings s) c (of_Z (now - time c)) AX) as [vx px] eqn:HX.
  destruct (tickAxis (settings s) c (of_Z (now - time c)) AY) as [vy py] eqn:HY.
  unfold progressObject, getCache. rewrite Hc. cbn [defined bind].
  rewrite HX, HY.
  destruct (belowThreshold {| X := vx; Y := vy |});
    eexists _, _; (split; [reflexivity|]);
    (split; [repeat split|]);
    (split; [intros o' Hne; unfold set_cache;
             by rewrite getObj_set_obj_ne, ?getObj_emit by congruence|]);
    eexists c, _; (split; [reflexivity|]);
    rewrite cache_set_cache_eq; (split; [reflexivity|]);
    cbn [matrix]; apply setObjectMatrix_length.
Qed.

Lemma forEach_stack_step (now : Z) (stack : list objid) :
  forall (i : nat) (s : State) (rm : list nat),
    (forall o, o ∈ stack -> is_Some (draggable_cache (getObj s o))) ->
    exists s' rm',
      forEach_stack now stack i (s, rm) = Ok (s', rm') /\
      same_control s s' /\
      (forall o, o ∉ stack -> getObj s' o = getObj s o) /\
      (forall o, is_Some (draggable_cache (getObj s o)) ->
                 is_Some (draggable_cache (getObj s' o))) /\
      (six_entries s -> six_entries s').
Proof.
  induction stack as [|o stack IH]; intros i s rm Hcached;
    cbn [forEach_stack].
  - exists s, rm. split; [reflexivity|]. split; [apply same_control_refl|].
    auto.
  - destruct (progressObject_step now s rm o i) as
      (s1 & rm1 & Hstep & Hctl1 & Hother1 & c & c1 & Hc & Hc1 & Hlen);
      [apply Hcached; left|].
    assert (Hmono1 : forall o', is_Some (draggable_cache (getObj s o')) ->
                                is_Some (draggable_cache (getObj s1 o'))).
    { intros o' Hsome. destruct (decide (o' = o)) as [->|Hne];
        [by rewrite Hc1 | by rewrite Hother1]. }
    destruct (IH (S i) s1 rm1) as (s' & rm' & Hrest & Hctl & Hother & Hmono & Hsix).
    { intros o' Hin. apply Hmono1, Hcached. by right. }
    exists s', rm'. rewrite Hstep. cbn [bind].
    split; [exact Hrest|]. split; [by eapply same_control_trans|].
    split; [|split].
    + intros o' Hnot. apply not_elem_of_cons in Hnot as [Hne Hnot].
      rewrite Hother by exact Hnot. by apply Hother1.
    + intros o' Hsome. by apply Hmono, Hmono1.
    + intros Hsix0. apply Hsix. intros o' c' Hc'.
      destruct (decide (o' = o)) as [->|Hne].
      * rewrite Hc1 in Hc'. injection Hc' as <-. rewrite Hlen.
        by apply (Hsix0 o c).
      * rewrite Hother1 in Hc' by exact Hne. by apply (Hsix0 o' c').
Qed.

(** Open the object table of the states the handlers build. *)
Ltac obj_simpl :=
  unfold getObj, set_cache, set_obj, emit, set_currentObject,
    requestAnimationFrame;
  cbn [objects].

(** What [animateDeceleration] does for an object that has its cache. *)
Lemma animateDeceleration_spec (s : State) (o : objid) (c : Cache) (now : Z) :
  draggable_cache (getObj s o) = Some c ->
  exists s',
    animateDeceleration s o now = Ok s' /\
    decelerationStack s' = decelerationStack s ++ [o] /\
    animationLoopRunning s' = true /\
    animationFrames s' =
      (if animationLoopRunning s then animationFrames s
       else S (animationFrames s)) /\
    currentObject s' = currentObject s /\
    settings s' = settings s /\
    containerCache s' = containerCache s /\
    emitted s' = emitted s ++ [EObject "deceleration-start" o (position c)] /\
    draggable_cache (getObj s' o) = Some (set_time now c) /\
    (forall o', o' <> o -> getObj s' o' = getObj s o').
Proof.
  intros Hc. unfold animateDeceleration, getCache. rewrite Hc.
  cbn [defined bind]. state_simpl.
  rewrite truthy_length_snoc, andb_true_r.
  destruct (animationLoopRunning s); cbn [negb];
    eexists; (split; [reflexivity|]); state_simpl;
    unfold getObj, set_cache, set_obj; cbn [objects];
    rewrite lookup_insert_eq;
    repeat split; intros o' Hne; by rewrite lookup_insert_ne.
Qed.

(** What [onMouseUp] does during a drag, field by field. *)
Lemma onMouseUp_spec (s : State) (o : objid) (c : Cache) (now : Z) :
  currentObject s = Some o ->
  draggable_cache (getObj s o) = Some c ->
  exists s',
    onMouseUp s now = Ok s' /\
    currentObject s' = None /\
    settings s' = settings s /\
    containerCache s' = containerCache s /\
    (forall o', o' <> o -> getObj s' o' = getObj s o') /\
    if deceleration (settings s) && hasSpeed (releaseVelocity c now)
    then
      draggable_cache (getObj s' o) =
        Some (set_time now (set_velocity (releaseVelocity c now) c)) /\
      decelerationStack s' = decelerationStack s ++ [o] /\
      animationLoopRunning s' = true /\
      animationFrames s' =
        (if animationLoopRunning s then animationFrames s
         else S (animationFrames s)) /\
      emitted s' = emitted s ++
        [EObject "drag-end" o (position c);
         EObject "deceleration-start" o (position c)]
    else
      draggable_cache (getObj s' o) =
        Some (set_velocity (releaseVelocity c now) c) /\
      decelerationStack s' = decelerationStack s /\
      animationLoopRunning s' = animationLoopRunning s /\
      animationFrames s' = animationFrames s /\
      stackLength s' = stackLength s /\
      emitted s' = emitted s ++
        [EObject "drag-end" o (position c); EObject "stop" o (position c)].
Proof.
  intros Hcur Hc. unfold onMouseUp, getCache. rewrite Hcur, Hc.
  cbn [defined bind]. cbn [settings emit set_cache set_obj velocity set_velocity].
  destruct (deceleration (settings s) && hasSpeed (releaseVelocity c now)).
  - match goal with
    | |- context [animateDeceleration ?s1 o now] =>
        destruct (animateDeceleration_spec s1 o
                    (set_velocity (releaseVelocity c now) c) now)
          as (s2 & Hrun & Hst & Hflag & Hfr & _ & Hset & Hcont & Hem & Hc2
              & Hother)
    end.
    { obj_simpl. by rewrite lookup_insert_eq. }
    rewrite Hrun. cbn [bind]. eexists. split; [reflexivity|].
    unfold set_currentObject.
    cbn [currentObject settings containerCache decelerationStack
         animationLoopRunning animationFrames emitted].
    split; [reflexivity|]. split; [exact Hset|]. split; [exact Hcont|].
    split.
    { intros o' Hne. change (getObj s2 o' = getObj s o').
      rewrite (Hother o' Hne). obj_simpl. by rewrite lookup_insert_ne. }
    split; [exact Hc2|]. split; [exact Hst|]. split; [exact Hflag|].
    split; [exact Hfr|]. rewrite Hem. unfold emit, set_cache, set_obj.
    cbn [emitted position set_velocity]. by rewrite <- app_assoc.
  - cbn [bind]. eexists. split; [reflexivity|]. state_simpl.
    split; [reflexivity|]. split; [reflexivity|]. split; [reflexivity|].
    split.
    { intros o' Hne. obj_simpl. by rewrite lookup_insert_ne. }
    obj_simpl. rewrite lookup_insert_eq.
    repeat split. by rewrite <- app_assoc.
Qed.

(** One pending frame, when every object of the stack has its cache. *)
Lemma frame_step (s : State) (now : Z) :
  (forall o, o ∈ decelerationStack s ->
             is_Some (draggable_cache (getObj s o))) ->
  exists s',
    frame s now = Ok s' /\
    settings s' = settings s /\
    currentObject s' = currentObject s /\
    containerCache s' = containerCache s /\
    decelerationStack s' `sublist_of` decelerationStack s /\
    (forall o, o ∉ decelerationStack s -> getObj s' o = getObj s o) /\
    (forall o, is_Some (draggable_cache (getObj s o)) ->
               is_Some (draggable_cache (getObj s' o))) /\
    (six_entries s -> six_entries s') /\
    (one_frame_chain s -> one_frame_chain s').
Proof.
  intros Hcached. unfold frame.
  destruct (animationFrames s) as [|n] eqn:Hframes.
  { exists s. split; [reflexivity|]. repeat split; auto. }
  unfold progressAnimations. cbn [decelerationStack].
  match goal with
  | |- context [forEach_stack now _ 0 (?s0, [])] =>
      destruct (forEach_stack_step now (decelerationStack s) 0 s0 [])
        as (s1 & rm & Hpass & (Hset & Hcur & Hst & Hrun & Hlen & Hcont & Hfr)
            & Hother & Hmono & Hsix)
  end.
  { exact Hcached. }
  rewrite Hpass. cbn [bind].
  cbn [settings currentObject decelerationStack animationLoopRunning
       stackLength containerCache animationFrames] in Hset, Hcur, Hst, Hrun,
       Hlen, Hcont, Hfr.
  assert (Hsub : removeFromStack (decelerationStack s1) rm
                   `sublist_of` decelerationStack s)
    by (rewrite Hst; apply removeFromStack_sublist).
  destruct (le _ _); cbn [fst snd];
    [|destruct (animationLoopRunning s1) eqn:Hrun1];
    eexists; (split; [reflexivity|]);
    unfold requestAnimationFrame;
    cbn [emit settings currentObject containerCache decelerationStack
         animationLoopRunning animationFrames];
    (split; [exact Hset|]); (split; [exact Hcur|]); (split; [exact Hcont|]);
    (split; [exact Hsub|]); (split; [exact Hother|]); (split; [exact Hmono|]);
    (split; [exact Hsix|]); intros Hone; unfold one_frame_chain;
    cbn [animationFrames animationLoopRunning]; rewrite Hfr;
    unfold one_frame_chain in Hone; rewrite Hframes in Hone;
    (destruct (animationLoopRunning s); [injection Hone as ->|discriminate]);
    reflexivity.
Qed.

(** What [onMouseDown] does on an enabled object, field by field. *)
Lemma onMouseDown_spec (s : State) (event : MouseEvent) (dom : Dom) (now : Z) :
  draggable_enabled (getObj s (currentTarget event)) = true ->
  exists s' c,
    onMouseDown s event dom now = Ok s' /\
    currentObject s' = Some (currentTarget event) /\
    draggable_cache (getObj s' (currentTarget event)) = Some c /\
    draggable_mouseIsDown (getObj s' (currentTarget event)) = true /\
    draggable_enabled (getObj s' (currentTarget event)) = true /\
    geom c = dom_object dom /\
    velocity c = {| X := 0; Y := 0 |} /\
    hasMoved c = false /\
    time c = now /\
    matrix c = parseMatrix (dom_transform dom) /\
    objectBounds c = getBoundsRelativeTo (dom_object dom) (dom_container dom) /\
    initialCursorPosRelativeToObject c =
      getCursorPositionRelativeTo event (dom_object dom) /\
    (forall axis,
       getXY axis (position c) =
       sub (getXY axis (getCursorPositionRelativeTo event (dom_container dom)))
           (getXY axis (getCursorPositionRelativeTo event (dom_object dom)))) /\
    (forall o', o' <> currentTarget event -> getObj s' o' = getObj s o') /\
    containerCache s' = Some (dom_container dom) /\
    settings s' = settings s /\
    animationLoopRunning s' = animationLoopRunning s /\
    animationFrames s' = animationFrames s /\
    decelerationStack s' =
      match indexOf (decelerationStack s) (currentTarget event) with
      | Some i => delete i (decelerationStack s)
      | None => decelerationStack s
      end /\
    emitted s' = emitted s ++
      [EObject "drag-start" (currentTarget event) (position c)].
Proof.
  intros Hen. unfold onMouseDown. rewrite Hen. cbn [negb].
  destruct (indexOf (decelerationStack s) (currentTarget event)) as [i|];
    eexists _, _; (split; [reflexivity|]); obj_simpl;
    cbn [currentObject containerCache settings animationLoopRunning
         animationFrames decelerationStack emitted];
    rewrite lookup_insert_eq; cbn [default draggable_cache draggable_mouseIsDown
                                    draggable_enabled];
    rewrite ?splice_one;
    repeat split; try (intros []; reflexivity);
    intros o' Hne; by rewrite lookup_insert_ne.
Qed.

Lemma getObj_insert (s : State) (o o' : objid) (x : Obj) :
  getObj (set_obj o x s) o' = if decide (o = o') then x else getObj s o'.
Proof.
  case_decide as E; [subst; apply getObj_set_obj_eq
                    | by apply getObj_set_obj_ne].
Qed.

(** Every pointer event and every frame goes through in a sound state
    and leaves a sound state. *)
Lemma sound_step (s : State) (a : Action) :
  sound s -> exists s', step s a = Ok s' /\ sound s'.
Proof.
  intros (Hone & (Hstack & Hcur) & Hsix).
  destruct a as [event dom now|event now|now|now]; cbn [step].
  - (* onMouseDown *)
    destruct (draggable_enabled (getObj s (currentTarget event))) eqn:Hen.
    + destruct (onMouseDown_spec s event dom now Hen)
        as (s' & c & Hrun & Hcur' & Hc & _ & _ & _ & _ & _ & _ & Hm & _ & _
            & _ & Hother & Hcont & _ & Hflag & Hfr & Hst & _).
      exists s'. split; [exact Hrun|]. split; [|split; [split|]].
      * unfold one_frame_chain. by rewrite Hfr, Hflag.
      * intros o Hin. destruct (decide (o = currentTarget event)) as [->|Hne];
          [by rewrite Hc|].
        rewrite (Hother o Hne). apply Hstack. rewrite Hst in Hin.
        destruct (indexOf _ _); [|exact Hin].
        eapply elem_of_sublist; [exact Hin | apply sublist_delete].
      * intros o Ho. rewrite Hcur' in Ho. injection Ho as <-.
        by rewrite Hc, Hcont.
      * intros o c' Hc'. destruct (decide (o = currentTarget event)) as [->|Hne].
        -- rewrite Hc in Hc'. injection Hc' as <-. rewrite Hm.
           apply parseMatrix_length.
        -- rewrite (Hother o Hne) in Hc'. by apply (Hsix o).
    + exists s. unfold onMouseDown. rewrite Hen. cbn [negb].
      split; [reflexivity|]. by split; [|split; [split|]].
  - (* onMouseMove *)
    destruct (currentObject s) as [o|] eqn:Ho.
    2:{ exists s. unfold onMouseMove. rewrite Ho. split; [reflexivity|].
        split; [|split; [split|]]; try done. intros o. by rewrite Ho. }
    destruct (draggable_mouseIsDown (getObj s o)) eqn:Hdown.
    2:{ exists s. unfold onMouseMove. rewrite Ho, Hdown.
        split; [reflexivity|]. split; [|split; [split|]]; try done.
        intros o' Ho'. rewrite Ho in Ho'. injection Ho' as <-. by apply Hcur. }
    destruct (Hcur o eq_refl) as [[c Hc] [g Hg]].
    destruct (onMouseMove_dragging s o c g event now Ho Hdown Hc Hg)
      as (s' & c' & Hrun & Hc' & _).
    exists s'. split; [exact Hrun|].
    unfold onMouseMove, getCache in Hrun. rewrite Ho, Hdown, Hc, Hg in Hrun.
    cbn [defined bind] in Hrun. injection Hrun as <-.
    split; [exact Hone|]. split; [split|].
    + intros o' Hin. rewrite getObj_emit. unfold set_cache.
      rewrite getObj_insert. case_decide; [done | by apply Hstack].
    + intros o' Ho'. cbn in Ho'. rewrite Ho in Ho'. injection Ho' as <-.
      rewrite getObj_emit, cache_set_cache_eq. split; [done|].
      cbn. by rewrite Hg.
    + intros o' c1. rewrite getObj_emit. unfold set_cache.
      rewrite getObj_insert. case_decide.
      * intros [= <-]. cbn [matrix]. rewrite setObjectMatrix_length.
        by apply (Hsix o).
      * apply Hsix.
  - (* onMouseUp *)
    destruct (currentObject s) as [o|] eqn:Ho.
    2:{ exists s. unfold onMouseUp. rewrite Ho. split; [reflexivity|].
        split; [|split; [split|]]; try done. intros o. by rewrite Ho. }
    destruct (Hcur o eq_refl) as [[c Hc] _].
    destruct (onMouseUp_spec s o c now Ho Hc)
      as (s' & Hrun & Hcur' & _ & _ & Hother & Hrest).
    exists s'. split; [exact Hrun|].
    assert (Hc' : exists c', draggable_cache (getObj s' o) = Some c' /\
                             matrix c' = matrix c).
    { destruct (_ && _); destruct Hrest as (Hc' & _); eexists;
        (split; [exact Hc' | reflexivity]). }
    destruct Hc' as (c' & Hc' & Hm').
    assert (Hmono : forall o', is_Some (draggable_cache (getObj s o')) ->
                               is_Some (draggable_cache (getObj s' o'))).
    { intros o' Hsome. destruct (decide (o' = o)) as [->|Hne];
        [by rewrite Hc' | by rewrite Hother]. }
    split; [|split; [split|]].
    + unfold one_frame_chain in *.
      destruct (_ && _).
      * destruct Hrest as (_ & _ & Hflag & Hfr & _). rewrite Hfr, Hflag.
        destruct (animationLoopRunning s); [exact Hone | by rewrite Hone].
      * destruct Hrest as (_ & _ & Hflag & Hfr & _). by rewrite Hfr, Hflag.
    + intros o' Hin. destruct (_ && _).
      * destruct Hrest as (_ & Hst & _). rewrite Hst in Hin.
        apply elem_of_app in Hin as [Hin | Hin%list_elem_of_singleton].
        -- by apply Hmono, Hstack.
        -- subst o'. by rewrite Hc'.
      * destruct Hrest as (_ & Hst & _). rewrite Hst in Hin.
        by apply Hmono, Hstack.
    + intros o'. by rewrite Hcur'.
    + intros o' c1 Hc1. destruct (decide (o' = o)) as [->|Hne].
      * rewrite Hc' in Hc1. injection Hc1 as <-. rewrite Hm'.
        by apply (Hsix o).
      * rewrite Hother in Hc1 by exact Hne. by apply (Hsix o').
  - (* frame *)
    destruct (frame_step s now Hstack)
      as (s' & Hrun & _ & Hcur' & Hcont & Hsub & _ & Hmono & Hsix' & Hone').
    exists s'. split; [exact Hrun|].
    split; [by apply Hone'|]. split; [split|by apply Hsix'].
    + intros o Hin. apply Hmono, Hstack.
      eapply elem_of_sublist; [exact Hin | exact Hsub].
    + intros o Ho. rewrite Hcur' in Ho. destruct (Hcur o Ho) as [Hc Hg].
      split; [by apply Hmono | by rewrite Hcont].
Qed.

Lemma sound_new (st : Settings) (objs : list objid) :
  sound (new_state st objs).
Proof.
  split; [reflexivity|]. split; [split|].
  - intros o Hin. cbn in Hin. by apply not_elem_of_nil in Hin.
  - intros o Ho. discriminate Ho.
  - intros o c Hc. exfalso. unfold getObj, new_state in Hc. cbn [objects] in Hc.
    destruct (list_to_map _ !! o) as [x|] eqn:Hx; cbn in Hc; [|discriminate].
    apply elem_of_list_to_map_2 in Hx.
    apply list_elem_of_fmap in Hx as (o1 & [= -> ->] & _). discriminate.
Qed.

Lemma sound_run (actions : list Action) :
  forall s, sound s -> exists s', run s actions = Ok s' /\ sound s'.
Proof.
  induction actions as [|a actions IH]; intros s Hs; cbn [run].
  - by exists s.
  - destruct (sound_step s a Hs) as (s1 & Hstep & Hs1).
    rewrite Hstep. cbn [bind]. by apply IH.
Qed.

Lemma sound_reachable (s : State) : reachable s -> sound s.
Proof.
  intros (st & objs & actions & Hrun).
  destruct (sound_run actions (new_state st objs) (sound_new st objs))
    as (s' & Hrun' & Hs').
  rewrite Hrun in Hrun'. by injection Hrun' as ->.
Qed.

Lemma run_snoc (actions : list Action) (a : Action) :
  forall s s1 s2,
    run s actions = Ok s1 -> step s1 a = Ok s2 ->
    run s (actions ++ [a]) = Ok s2.
Proof.
  induction actions as [|a0 actions IH]; intros s s1 s2; cbn [run app].
  - intros [= ->] ->. reflexivity.
  - destruct (step s a0) as [s0|]; cbn [bind]; [apply IH | discriminate].
Qed.

Lemma reachable_step (s s' : State) (a : Action) :
  reachable s -> step s a = Ok s' -> reachable s'.
Proof.
  intros (st & objs & actions & Hrun) Hstep.
  exists st, objs, (actions ++ [a]). by eapply run_snoc.
Qed.

(** X7.  In every state the engine reaches from its construction by
    pointer events and frames, the next pointer event or frame goes
    through without an exception: the caches the handlers read without a
    check ([object.__draggable_cache], the container's cache) are there
    whenever they are read. *)
Theorem handlers_never_throw (s : State) (a : Action) :
  reachable s -> exists s', step s a = Ok s' /\ reachable s'.
Proof.
  intros Hreach.
  destruct (sound_step s a (sound_reachable s Hreach)) as (s' & Hstep & _).
  exists s'. split; [exact Hstep|]. by eapply reachable_step.
Qed.

Lemma handlers_never_throw_witness :
  exists s', step released (Frame 1116) = Ok s' /\ reachable s'.
Proof.
  apply handlers_never_throw.
  exists default_settings, [0%nat],
    [MouseDown (pointer 20 20 0%nat) scene_dom 1000;
     MouseMove (pointer 70 20 0%nat) 1100; MouseUp 1100].
  vm_compute. reflexivity.
Defined.

(** X8.  In every reachable state at most one animation-frame callback
    is pending, and one is pending exactly when [animationLoopRunning]
    is set: releases while the loop runs do not request a second
    frame, and the loop re-arms itself once per frame. *)
Theorem one_frame_pending (s : State) :
  reachable s ->
  (animationFrames s <= 1)%nat /\
  (animationFrames s = 1%nat <-> animationLoopRunning s = true).
Proof.
  intros Hreach. destruct (sound_reachable s Hreach) as (Hone & _).
  unfold one_frame_chain in Hone. rewrite Hone.
  destruct (animationLoopRunning s); split; try lia; split; congruence.
Qed.

Lemma one_frame_pending_witness :
  (animationFrames released <= 1)%nat /\
  (animationFrames released = 1%nat <-> animationLoopRunning released = true).
Proof.
  apply one_frame_pending.
  exists default_settings, [0%nat],
    [MouseDown (pointer 20 20 0%nat) scene_dom 1000;
     MouseMove (pointer 70 20 0%nat) 1100; MouseUp 1100].
  vm_compute. reflexivity.
Defined.

(** X9.  In every reachable state the transform matrix kept in an
    object's cache has six entries, so the two writes of
    [setObjectMatrix] at the indices 4 and 5 replace entries and never
    extend the array. *)
Theorem matrix_has_six_entries (s : State) (o : objid) (c : Cache) :
  reachable s ->
  draggable_cache (getObj s o) = Some c ->
  length (matrix c) = 6%nat /\
  forall pos, length (setObjectMatrix c pos) = 6%nat.
Proof.
  intros Hreach Hc. destruct (sound_reachable s Hreach) as (_ & _ & Hsix).
  pose proof (Hsix o c Hc) as Hlen. split; [exact Hlen|].
  intros pos. by rewrite setObjectMatrix_length.
Qed.

Lemma matrix_has_six_entries_witness :
  exists c,
    draggable_cache (getObj released 0%nat) = Some c /\
    length (matrix c) = 6%nat.
Proof.
  eexists. split; [vm_compute; reflexivity|].
  refine (proj1 (matrix_has_six_entries released 0%nat _ _ _)).
  - exists default_settings, [0%nat],
      [MouseDown (pointer 20 20 0%nat) scene_dom 1000;
       MouseMove (pointer 70 20 0%nat) 1100; MouseUp 1100].
    vm_compute. reflexivity.
  - vm_compute. reflexivity.
Defined.

(** X13.  With [settings.deceleration] off the engine never coasts:
    whatever the pointer events and frames, the deceleration stack
    stays empty, no animation frame is ever requested and the loop flag
    stays clear. *)
Theorem no_deceleration_no_frames (st : Settings) (objs : list objid)
    (actions : list Action) (s : State) :
  deceleration st = false ->
  run (new_state st objs) actions = Ok s ->
  decelerationStack s = [] /\
  animationFrames s = 0%nat /\
  animationLoopRunning s = false.
Proof.
  intros Hdec.
  set (inv := fun s : State =>
         settings s = st /\ decelerationStack s = [] /\
         animationFrames s = 0%nat /\ animationLoopRunning s = false).
  assert (Hstep : forall s s' a, inv s -> step s a = Ok s' -> inv s').
  { clear s. intros s s' a (Hset & Hst & Hfr & Hflag).
    destruct a as [event dom now|event now|now|now]; cbn [step].
    - unfold onMouseDown. destruct (negb _); [by intros [= <-]|].
      rewrite Hst. cbn [indexOf]. by intros [= <-].
    - unfold onMouseMove. destruct (currentObject s) as [o|];
        [|by intros [= <-]].
      destruct (draggable_mouseIsDown _); [|by intros [= <-]].
      unfold getCache. destruct (draggable_cache _); cbn [defined bind];
        [|discriminate].
      destruct (containerCache s); cbn [defined bind]; [|discriminate].
      by intros [= <-].
    - unfold onMouseUp. destruct (currentObject s) as [o|];
        [|by intros [= <-]].
      unfold getCache. destruct (draggable_cache _); cbn [defined bind];
        [|discriminate].
      unfold emit at 1, set_cache, set_obj. cbn [settings].
      rewrite Hset, Hdec. cbn [andb bind]. by intros [= <-].
    - unfold frame. rewrite Hfr. by intros [= <-]. }
  assert (Hrun : forall actions s s', inv s -> run s actions = Ok s' -> inv s').
  { clear s actions. induction actions as [|a actions IH]; intros s s' Hs;
      cbn [run].
    - by intros [= <-].
    - destruct (step s a) as [s1|] eqn:Ha; cbn [bind]; [|discriminate].
      apply IH. by eapply Hstep. }
  intros Hs. apply (Hrun actions _ s) in Hs as (_ & Hs); [exact Hs|].
  by repeat split.
Qed.

Lemma no_deceleration_no_frames_witness :
  exists s,
    run (new_state {| edgeFriction := 3 # 4; friction := 1;
                      bounceFriction := 1 # 2; deceleration := false |}
                   [0%nat])
        [MouseDown (pointer 20 20 0%nat) scene_dom 1000;
         MouseMove (pointer 70 20 0%nat) 1100; MouseUp 1100] = Ok s /\
    decelerationStack s = [].
Proof.
  eexists. split; [vm_compute; reflexivity|].
  refine (proj1 (no_deceleration_no_frames
                   {| edgeFriction := 3 # 4; friction := 1;
                      bounceFriction := 1 # 2; deceleration := false |}
                   [0%nat]
                   [MouseDown (pointer 20 20 0%nat) scene_dom 1000;
                    MouseMove (pointer 70 20 0%nat) 1100; MouseUp 1100]
                   _ _ _)).
  - reflexivity.
  - vm_compute. reflexivity.
Defined.

(* ------------------------------------------------------------------ *)
(** *** Grabbing, dragging and releasing *)
(* ------------------------------------------------------------------ *)

(** The cursor cancels out of the position computed at a grab. *)
Lemma cursor_cancels (cursor objectOrigin containerOrigin : num) :
  is_finite cursor ->
  sub (sub cursor containerOrigin) (sub cursor objectOrigin)
    =n= sub objectOrigin containerOrigin.
Proof.
  destruct cursor as [c| | |]; cbn [is_finite]; [intros _|done..].
  destruct objectOrigin as [o| | |], containerOrigin as [k| | |];
    cbn; try done; ring.
Qed.

(** X10.  A grab of an enabled object stores, and reports with
    [drag-start], the object's offset inside the container: the
    difference of the two cursor offsets computed by [onMouseDown] is
    what [getPositionRelativeTo] gives, wherever on the object it was
    grabbed. *)
Theorem drag_start_reports_offset (s : State) (event : MouseEvent)
    (dom : Dom) (now : Z) :
  draggable_enabled (getObj s (currentTarget event)) = true ->
  is_finite (clientX event) ->
  is_finite (clientY event) ->
  exists s' p,
    onMouseDown s event dom now = Ok s' /\
    emitted s' = emitted s ++ [EObject "drag-start" (currentTarget event) p] /\
    position <$> draggable_cache (getObj s' (currentTarget event)) = Some p /\
    X p =n= X (getPositionRelativeTo (dom_object dom) (dom_container dom)) /\
    Y p =n= Y (getPositionRelativeTo (dom_object dom) (dom_container dom)).
Proof.
  intros Hen Hx Hy.
  destruct (onMouseDown_spec s event dom now Hen)
    as (s' & c & Hrun & _ & Hc & _ & _ & _ & _ & _ & _ & _ & _ & _ & Hpos
        & _ & _ & _ & _ & _ & _ & Hem).
  exists s', (position c). split; [exact Hrun|]. split; [exact Hem|].
  split; [by rewrite Hc|].
  pose proof (Hpos AX) as HX. pose proof (Hpos AY) as HY.
  unfold getCursorPositionRelativeTo in HX, HY. cbn [getXY X Y] in HX, HY.
  rewrite HX, HY. unfold getPositionRelativeTo. cbn [X Y].
  split; by apply cursor_cancels.
Qed.

Lemma drag_start_reports_offset_witness :
  exists s' p,
    onMouseDown (new_state default_settings [0%nat])
      (pointer 20 20 0%nat) scene_dom 1000 = Ok s' /\
    position <$> draggable_cache (getObj s' 0%nat) = Some p /\
    X p =n= X (getPositionRelativeTo (dom_object scene_dom)
                                     (dom_container scene_dom)).
Proof.
  destruct (drag_start_reports_offset (new_state default_settings [0%nat])
              (pointer 20 20 0%nat) scene_dom 1000)
    as (s' & p & Hrun & _ & Hp & HX & _).
  - reflexivity.
  - exact I.
  - exact I.
  - exists s', p. split; [exact Hrun|]. split; [exact Hp | exact HX].
Defined.

(** A raw position strictly inside the bounds passes both checks of a
    drag unchanged, whatever the edge friction. *)
Lemma applyEdgeFriction_inside (st : Settings) (b : Bounds) (axis : Axis)
    (lo hi raw : Q) :
  bget Bmin axis b = Fin lo ->
  bget Bmax axis b = Fin hi ->
  lo < raw -> raw < hi ->
  applyEdgeFriction st b axis (Fin raw) = Fin raw.
Proof.
  intros Hlo Hhi H1 H2. unfold applyEdgeFriction. cbn [fold_left].
  rewrite Hlo. cbn [Math_ Math_min strict_eq].
  destruct (Qle_bool_reflect raw lo); [exfalso; lra|].
  cbn [strict_eq].
  destruct (Qeq_bool_reflect lo raw); [exfalso; lra|].
  rewrite Hhi. cbn [Math_ Math_max strict_eq].
  destruct (Qle_bool_reflect raw hi); [|exfalso; lra].
  cbn [strict_eq].
  destruct (Qeq_bool_reflect hi raw); [exfalso; lra|].
  reflexivity.
Qed.

(** X11.  A grab followed by a move: on an axis where the object stays
    strictly inside the bounds computed at the grab, it is moved by
    exactly the distance the cursor moved since the grab, whatever the
    edge friction and wherever on the object it was grabbed. *)
Theorem drag_follows_cursor (s : State) (down move : MouseEvent) (dom : Dom)
    (t0 t1 : Z) (axis : Axis) (cursor0 cursor1 grab lo hi : Q) :
  draggable_enabled (getObj s (currentTarget down)) = true ->
  getXY axis (getCursorPositionRelativeTo down (dom_container dom))
    = Fin cursor0 ->
  getXY axis (getCursorPositionRelativeTo move (dom_container dom))
    = Fin cursor1 ->
  getXY axis (getCursorPositionRelativeTo down (dom_object dom)) = Fin grab ->
  bget Bmin axis (getBoundsRelativeTo (dom_object dom) (dom_container dom))
    = Fin lo ->
  bget Bmax axis (getBoundsRelativeTo (dom_object dom) (dom_container dom))
    = Fin hi ->
  lo < (cursor0 - grab) + (cursor1 - cursor0) ->
  (cursor0 - grab) + (cursor1 - cursor0) < hi ->
  exists s1 s2 c1 c2,
    onMouseDown s down dom t0 = Ok s1 /\
    onMouseMove s1 move t1 = Ok s2 /\
    draggable_cache (getObj s1 (currentTarget down)) = Some c1 /\
    draggable_cache (getObj s2 (currentTarget down)) = Some c2 /\
    getXY axis (position c1) =n= cursor0 - grab /\
    getXY axis (position c2) =n= (cursor0 - grab) + (cursor1 - cursor0).
Proof.
  intros Hen H0 H1 Hg Hlo Hhi Hin1 Hin2.
  destruct (onMouseDown_spec s down dom t0 Hen)
    as (s1 & c1 & Hrun1 & Hcur & Hc1 & Hdown & _ & _ & _ & _ & _ & _ & Hb
        & Hgrab & Hpos & _ & Hcont & _).
  destruct (onMouseMove_dragging s1 (currentTarget down) c1 (dom_container dom)
              move t1 Hcur Hdown Hc1 Hcont)
    as (s2 & c2 & Hrun2 & Hc2 & Hpos2 & _).
  exists s1, s2, c1, c2.
  split; [exact Hrun1|]. split; [exact Hrun2|].
  split; [exact Hc1|]. split; [exact Hc2|].
  split.
  - rewrite Hpos, H0, Hg. cbn. ring.
  - rewrite Hpos2. unfold dragPosition. rewrite Hb, Hgrab, H1, Hg.
    change (sub (Fin cursor1) (Fin grab)) with (Fin (cursor1 + - grab)).
    rewrite (applyEdgeFriction_inside _ _ axis lo hi (cursor1 + - grab)
               Hlo Hhi); [cbn; ring | lra | lra].
Qed.

Lemma drag_follows_cursor_witness :
  exists s1 s2 c2,
    onMouseDown (new_state default_settings [0%nat])
      (pointer 20 20 0%nat) scene_dom 1000 = Ok s1 /\
    onMouseMove s1 (pointer 70 20 0%nat) 1100 = Ok s2 /\
    draggable_cache (getObj s2 0%nat) = Some c2 /\
    X (position c2) =n= (20 - 20) + (70 - 20).
Proof.
  destruct (drag_follows_cursor (new_state default_settings [0%nat])
              (pointer 20 20 0%nat) (pointer 70 20 0%nat) scene_dom
              1000 1100 AX 20 70 20 0 400)
    as (s1 & s2 & c1 & c2 & Hrun1 & Hrun2 & _ & Hc2 & _ & Hpos).
  - reflexivity.
  - vm_compute. reflexivity.
  - vm_compute. reflexivity.
  - vm_compute. reflexivity.
  - vm_compute. reflexivity.
  - vm_compute. reflexivity.
  - vm_compute. reflexivity.
  - vm_compute. reflexivity.
  - exists s1, s2, c2. split; [exact Hrun1|]. split; [exact Hrun2|].
    split; [exact Hc2 | exact Hpos].
Defined.

(** X12.  A release more than 25 ms after the last move of a drag,
    strictly inside the bounds: the measured velocity is discarded, the
    object is not put on the deceleration stack, no frame is requested,
    and [drag-end] is followed at once by [stop]. *)
Theorem stale_release_stops (s : State) (o : objid) (c : Cache) (now : Z)
    (px py lox hix loy hiy : Q) :
  currentObject s = Some o ->
  draggable_cache (getObj s o) = Some c ->
  hasMoved c = true ->
  (25 < now - time c)%Z ->
  position c = {| X := Fin px; Y := Fin py |} ->
  objectBounds c = {| minX := Fin lox; minY := Fin loy;
                      maxX := Fin hix; maxY := Fin hiy |} ->
  lox < px -> px < hix -> loy < py -> py < hiy ->
  exists s' c',
    onMouseUp s now = Ok s' /\
    draggable_cache (getObj s' o) = Some c' /\
    velocity c' = {| X := 0; Y := 0 |} /\
    position c' = position c /\
    decelerationStack s' = decelerationStack s /\
    animationFrames s' = animationFrames s /\
    emitted s' = emitted s ++
      [EObject "drag-end" o (position c); EObject "stop" o (position c)].
Proof.
  intros Hcur Hc Hmoved Hlate Hpos Hb Hx1 Hx2 Hy1 Hy2.
  assert (Hv : releaseVelocity c now = {| X := 0; Y := 0 |}).
  { unfold releaseVelocity. rewrite Hmoved.
    assert (Hgt : gt (of_Z (now - time c)) 25 = true).
    { unfold gt, lt, of_Z.
      destruct (Qle_bool_reflect (inject_Z (now - time c)) 25) as [H|H];
        [|reflexivity].
      exfalso. change 25 with (inject_Z 25) in H. rewrite <- Zle_Qle in H. lia. }
    rewrite Hgt. cbn [andb X Y].
    destruct (springBack_finite (objectBounds c) (position c) AX 0 px lox hix)
      as (HX & _); [by rewrite Hpos | by rewrite Hb | by rewrite Hb |].
    destruct (springBack_finite (objectBounds c) (position c) AY 0 py loy hiy)
      as (HY & _); [by rewrite Hpos | by rewrite Hb | by rewrite Hb |].
    by rewrite HX, HY. }
  destruct (onMouseUp_spec s o c now Hcur Hc) as (s' & Hrun & _ & _ & _ & _ & Hrest).
  rewrite Hv in Hrest.
  replace (hasSpeed {| X := 0; Y := 0 |}) with false in Hrest
    by (vm_compute; reflexivity).
  rewrite andb_false_r in Hrest.
  destruct Hrest as (Hc' & Hst & _ & Hfr & _ & Hem).
  exists s', (set_velocity {| X := 0; Y := 0 |} c).
  split; [exact Hrun|]. split; [exact Hc'|]. by repeat split.
Qed.

Lemma stale_release_stops_witness :
  exists s' c',
    onMouseUp dragging_inside 1200 = Ok s' /\
    draggable_cache (getObj s' 0%nat) = Some c' /\
    velocity c' = {| X := 0; Y := 0 |} /\
    decelerationStack s' = [].
Proof.
  epose proof (stale_release_stops dragging_inside 0%nat _ 1200
                 50 10 0 400 0 250) as H.
  edestruct H as (s' & c' & Hrun & Hc' & Hv & _ & Hst & _).
  - reflexivity.
  - vm_compute. reflexivity.
  - reflexivity.
  - vm_compute. reflexivity.
  - reflexivity.
  - reflexivity.
  - reflexivity.
  - reflexivity.
  - reflexivity.
  - reflexivity.
  - exists s', c'. split; [exact Hrun|]. split; [exact Hc'|].
    split; [exact Hv | exact Hst].
Defined.

Lemma indexOf_elem_of {A : Type} `{EqDecision A} (l : list A) (x : A) :
  x ∈ l -> exists i, indexOf l x = Some i.
Proof.
  intros Hin. destruct (indexOf l x) as [i|] eqn:E; [by exists i|].
  by apply indexOf_None in E.
Qed.

(** X14.  Grabbing an object that is coasting takes it off the
    deceleration stack: after the grab it is not in the stack, the other
    objects are in it as before and in the same order, and its velocity
    is reset to zero. *)
Theorem regrab_leaves_stack (s : State) (event : MouseEvent) (dom : Dom)
    (now : Z) :
  reachable s ->
  draggable_enabled (getObj s (currentTarget event)) = true ->
  currentTarget event ∈ decelerationStack s ->
  exists s' c,
    onMouseDown s event dom now = Ok s' /\
    (currentTarget event ∉ decelerationStack s') /\
    (forall o, o <> currentTarget event ->
               (o ∈ decelerationStack s') <-> (o ∈ decelerationStack s)) /\
    decelerationStack s' `sublist_of` decelerationStack s /\
    draggable_cache (getObj s' (currentTarget event)) = Some c /\
    velocity c = {| X := 0; Y := 0 |}.
Proof.
  intros Hreach Hen Hin.
  destruct (stack_exclusive_reachable s Hreach) as [Hnd _].
  destruct (onMouseDown_spec s event dom now Hen)
    as (s' & c & Hrun & _ & Hc & _ & _ & _ & Hv & _ & _ & _ & _ & _ & _
        & _ & _ & _ & _ & _ & Hst & _).
  destruct (indexOf_elem_of _ _ Hin) as (i & Hi). rewrite Hi in Hst.
  apply indexOf_Some in Hi. pose proof (take_drop_middle _ _ _ Hi) as Hsplit.
  rewrite delete_take_drop in Hst.
  exists s', c. split; [exact Hrun|]. rewrite Hst.
  rewrite <- Hsplit in Hnd. apply NoDup_app in Hnd as (_ & Hdisj & Hnd).
  apply NoDup_cons in Hnd as (Hnot & _).
  split; [|split; [|split; [|split]]].
  - intros [H|H]%elem_of_app; [by eapply Hdisj; [exact H | left] | done].
  - intros o Hne. rewrite <- Hsplit at 3.
    rewrite !elem_of_app, elem_of_cons. tauto.
  - rewrite <- delete_take_drop. apply sublist_delete.
  - exact Hc.
  - exact Hv.
Qed.

Lemma regrab_leaves_stack_witness :
  exists s',
    onMouseDown released (pointer 80 20 0%nat) scene_dom 1200 = Ok s' /\
    0%nat ∉ decelerationStack s'.
Proof.
  destruct (regrab_leaves_stack released (pointer 80 20 0%nat) scene_dom 1200)
    as (s' & c & Hrun & Hout & _).
  - exists default_settings, [0%nat],
      [MouseDown (pointer 20 20 0%nat) scene_dom 1000;
       MouseMove (pointer 70 20 0%nat) 1100; MouseUp 1100].
    vm_compute. reflexivity.
  - reflexivity.
  - apply list_elem_of_singleton. reflexivity.
  - exists s'. split; [exact Hrun | exact Hout].
Defined.

(** X15.  A frame changes only objects on the deceleration stack: every
    other object, the one being dragged included, keeps its cache and
    flags. *)
Theorem frame_moves_only_coasting_objects (s : State) (now : Z) :
  reachable s ->
  exists s',
    frame s now = Ok s' /\
    (forall o, o ∉ decelerationStack s -> getObj s' o = getObj s o) /\
    (forall o, currentObject s = Some o -> getObj s' o = getObj s o).
Proof.
  intros Hreach.
  destruct (sound_reachable s Hreach) as (_ & (Hstack & _) & _).
  destruct (stack_exclusive_reachable s Hreach) as [_ Hcur].
  destruct (frame_step s now Hstack) as (s' & Hrun & _ & _ & _ & _ & Hother & _).
  exists s'. split; [exact Hrun|]. split; [exact Hother|].
  intros o Ho. by apply Hother, Hcur.
Qed.

Lemma frame_moves_only_coasting_objects_witness :
  exists s',
    frame released 1116 = Ok s' /\
    getObj s' 1%nat = getObj released 1%nat.
Proof.
  destruct (frame_moves_only_coasting_objects released 1116)
    as (s' & Hrun & Hother & _).
  - exists default_settings, [0%nat],
      [MouseDown (pointer 20 20 0%nat) scene_dom 1000;
       MouseMove (pointer 70 20 0%nat) 1100; MouseUp 1100].
    vm_compute. reflexivity.
  - exists s'. split; [exact Hrun|]. apply Hother.
    intros H%list_elem_of_singleton. discriminate H.
Defined.

(** X16.  A frame never adds an object to the deceleration stack and
    never reorders it: the stack after the frame is a sublist of the
    stack before; the settings and the object being dragged are as
    before. *)
Theorem frame_keeps_stack_order (s : State) (now : Z) :
  reachable s ->
  exists s',
    frame s now = Ok s' /\
    decelerationStack s' `sublist_of` decelerationStack s /\
    currentObject s' = currentObject s /\
    settings s' = settings s.
Proof.
  intros Hreach.
  destruct (sound_reachable s Hreach) as (_ & (Hstack & _) & _).
  destruct (frame_step s now Hstack)
    as (s' & Hrun & Hset & Hcur & _ & Hsub & _).
  by exists s'.
Qed.

Lemma frame_keeps_stack_order_witness :
  exists s',
    frame released 1116 = Ok s' /\
    decelerationStack s' `sublist_of` [0%nat].
Proof.
  destruct (frame_keeps_stack_order released 1116) as (s' & Hrun & Hsub & _).
  - exists default_settings, [0%nat],
      [MouseDown (pointer 20 20 0%nat) scene_dom 1000;
       MouseMove (pointer 70 20 0%nat) 1100; MouseUp 1100].
    vm_compute. reflexivity.
  - exists s'. split; [exact Hrun | exact Hsub].
Defined.

(** X17.  [disable] only blocks new grabs.  After [disable(object)] the
    object reports not enabled and a pointer-down on it changes nothing;
    a drag already in progress goes on, the next move writing the same
    cache as without the [disable]; [enable] brings the flag back. *)
Theorem disable_only_blocks_grabs (s : State) (o : objid) :
  enabled (disable s o) o = false /\
  enabled (enable (disable s o) o) o = true /\
  (forall o', o' <> o -> enabled (disable s o) o' = enabled s o') /\
  (forall event dom now,
     currentTarget event = o ->
     onMouseDown (disable s o) event dom now = Ok (disable s o)) /\
  (forall event now,
     currentObject s = Some o ->
     draggable_mouseIsDown (getObj s o) = true ->
     is_Some (draggable_cache (getObj s o)) ->
     is_Some (containerCache s) ->
     exists s1 s2 c',
       onMouseMove s event now = Ok s1 /\
       onMouseMove (disable s o) event now = Ok s2 /\
       draggable_cache (getObj s1 o) = Some c' /\
       draggable_cache (getObj s2 o) = Some c' /\
       enabled s2 o = false).
Proof.
  unfold enabled, disable, enable, set_enabled.
  split; [by rewrite getObj_set_obj_eq|].
  split; [by rewrite getObj_set_obj_eq|].
  split; [intros o' Hne; by rewrite getObj_set_obj_ne|].
  split.
  - intros event dom now <-. unfold onMouseDown.
    by rewrite getObj_set_obj_eq.
  - intros event now Hcur Hdown [c Hc] [g Hg].
    unfold onMouseMove, getCache.
    cbn [currentObject set_obj containerCache settings].
    rewrite Hcur, getObj_set_obj_eq. cbn [draggable_mouseIsDown draggable_cache].
    rewrite Hdown, Hc, Hg. cbn [defined bind].
    eexists _, _, _. split; [reflexivity|]. split; [reflexivity|].
    rewrite !getObj_emit, !cache_set_cache_eq.
    split; [reflexivity|]. split; [reflexivity|].
    unfold set_cache. rewrite getObj_set_obj_eq. cbn [draggable_enabled].
    by rewrite getObj_set_obj_eq.
Qed.

Lemma disable_only_blocks_grabs_witness :
  enabled (disable grabbed 0%nat) 0%nat = false /\
  onMouseDown (disable grabbed 0%nat) (pointer 20 20 0%nat) scene_dom 1200
    = Ok (disable grabbed 0%nat).
Proof.
  destruct (disable_only_blocks_grabs grabbed 0%nat) as (H1 & _ & _ & H4 & _).
  split; [exact H1 | apply H4; reflexivity].
Defined.

(* ------------------------------------------------------------------ *)
(** *** One axis in one tick *)
(* ------------------------------------------------------------------ *)

(** The decay and the advance of a tick on finite numbers. *)
Lemma tick_decay_finite (v p dt f : Q) :
  exists v0 p0,
    (mul v (sub 1 (mul (div dt 1000) f)),
     if truthy (mul v (sub 1 (mul (div dt 1000) f)))
     then add p (mul (mul v (sub 1 (mul (div dt 1000) f))) dt)
     else Fin p) = (Fin v0, Fin p0) /\
    v0 == v * (1 - dt / 1000 * f) /\
    p0 == p + v0 * dt.
Proof.
  unfold div. destruct (Qeq_bool_reflect 1000 0) as [E|_];
    [exfalso; revert E; vm_compute; discriminate|].
  cbn [mul sub neg add truthy].
  destruct (Qeq_bool_reflect (v * (1 + - (dt / 1000 * f))) 0) as [E|E];
    cbn [negb]; eexists _, _; (split; [reflexivity|]);
    (split; [reflexivity|]).
  - rewrite E. ring.
  - reflexivity.
Qed.

(** The check of the lower bound in a tick: it fires on a position at or
    below the bound while the velocity points down. *)
Lemma bounce_min_finite (st : Settings) (c : Cache) (axis : Axis)
    (v p lo bf : Q) :
  bget Bmin axis (objectBounds c) = Fin lo ->
  bounceFriction st = Fin bf ->
  exists v' p',
    bounce st c axis (Fin v, Fin p) Bmin = (Fin v', Fin p') /\
    (p <= lo -> v < 0 -> v' == - (v * (1 - bf)) /\ p' == lo) /\
    (lo < p \/ 0 <= v -> v' == v /\ p' == p).
Proof.
  intros Hlo Hbf. unfold bounce. rewrite Hlo, Hbf.
  cbn [Math_ Math_min Math_sign].
  replace (Qle_bool 1 (-1)) with false by (vm_compute; reflexivity).
  destruct (Qle_bool_reflect p lo) as [H1|H1]; cbn [strict_eq];
    destruct (Qeq_bool_reflect v 0) as [H2|H2]; cbn [strict_eq];
    try destruct (Qle_bool_reflect 0 v) as [H3|H3]; cbn [strict_eq].
  all: repeat match goal with
       | |- context [Qeq_bool ?a ?b] =>
           destruct (Qeq_bool_reflect a b); cbn [andb]
       end.
  all: try (exfalso;
            match goal with
            | H : (0 == -1) |- _ => revert H; vm_compute; discriminate
            | H : (1 == -1) |- _ => revert H; vm_compute; discriminate
            | H : ~ (-1 == -1) |- _ => apply H; reflexivity
            | _ => lra
            end).
  all: eexists _, _; (split; [reflexivity|]).
  all: cbn [mul sub neg add].
  all: split; [intros; split; try reflexivity; try lra
              | intros [?|?]; split; try reflexivity; try lra].
Qed.

(** The check of the upper bound in a tick: it fires on a position at or
    above the bound while the velocity points up. *)
Lemma bounce_max_finite (st : Settings) (c : Cache) (axis : Axis)
    (v p hi bf : Q) :
  bget Bmax axis (objectBounds c) = Fin hi ->
  bounceFriction st = Fin bf ->
  exists v' p',
    bounce st c axis (Fin v, Fin p) Bmax = (Fin v', Fin p') /\
    (hi <= p -> 0 < v -> v' == - (v * (1 - bf)) /\ p' == hi) /\
    (p < hi \/ v <= 0 -> v' == v /\ p' == p).
Proof.
  intros Hhi Hbf. unfold bounce. rewrite Hhi, Hbf.
  cbn [Math_ Math_max Math_sign].
  replace (Qle_bool 1 (-1)) with false by (vm_compute; reflexivity).
  destruct (Qle_bool_reflect p hi) as [H1|H1]; cbn [strict_eq];
    destruct (Qeq_bool_reflect v 0) as [H2|H2]; cbn [strict_eq];
    try destruct (Qle_bool_reflect 0 v) as [H3|H3]; cbn [strict_eq].
  all: repeat match goal with
       | |- context [Qeq_bool ?a ?b] =>
           destruct (Qeq_bool_reflect a b); cbn [andb]
       end.
  all: try (exfalso;
            match goal with
            | H : (0 == 1) |- _ => revert H; vm_compute; discriminate
            | H : (-1 == 1) |- _ => revert H; vm_compute; discriminate
            | H : ~ (1 == 1) |- _ => apply H; reflexivity
            | _ => lra
            end).
  all: eexists _, _; (split; [reflexivity|]).
  all: cbn [mul sub neg add].
  all: split; [intros; split; try reflexivity; try lra
              | intros [?|?]; split; try reflexivity; try lra].
Qed.

(** X18.  One axis of a coasting object in one tick, on finite numbers.
    With [v0] the decayed velocity and [p0] the advanced position: an
    object that has reached or passed the upper bound while moving up
    is put on the bound with the velocity [-v0 * (1 - bounceFriction)],
    and likewise at the lower bound while moving down; an object beyond
    a bound that moves back towards the inside is not reflected. *)
Theorem tickAxis_bounce (st : Settings) (c : Cache) (axis : Axis)
    (v p lo hi dt f bf : Q) :
  getXY axis (velocity c) = Fin v ->
  getXY axis (position c) = Fin p ->
  bget Bmin axis (objectBounds c) = Fin lo ->
  bget Bmax axis (objectBounds c) = Fin hi ->
  friction st = Fin f ->
  bounceFriction st = Fin bf ->
  lo < hi ->
  exists v' p',
    tickAxis st c (Fin dt) axis = (Fin v', Fin p') /\
    let v0 := v * (1 - dt / 1000 * f) in
    let p0 := p + v0 * dt in
    (0 < v0 -> hi <= p0 -> v' == - (v0 * (1 - bf)) /\ p' == hi) /\
    (v0 < 0 -> p0 <= lo -> v' == - (v0 * (1 - bf)) /\ p' == lo) /\
    (0 < v0 -> p0 < hi -> v' == v0 /\ p' == p0) /\
    (v0 < 0 -> lo < p0 -> v' == v0 /\ p' == p0) /\
    (v0 == 0 -> v' == 0 /\ p' == p).
Proof.
  intros Hv Hp Hlo Hhi Hf Hbf Hord.
  unfold tickAxis. rewrite Hv, Hp, Hf. cbn [fold_left].
  destruct (tick_decay_finite v p dt f) as (v0 & p0 & -> & Hv0 & Hp0).
  destruct (bounce_min_finite st c axis v0 p0 lo bf Hlo Hbf)
    as (v1 & p1 & -> & Hfire1 & Hskip1).
  destruct (bounce_max_finite st c axis v1 p1 hi bf Hhi Hbf)
    as (v2 & p2 & -> & Hfire2 & Hskip2).
  exists v2, p2. split; [reflexivity|]. cbv zeta.
  rewrite <- Hv0, <- Hp0. clear Hv0.
  repeat split; intros.
  all: try (destruct Hskip1 as [E1 E2]; [right; lra|];
            destruct Hfire2 as [E3 E4]; [lra | lra |];
            rewrite ?E3, ?E4, ?E1; reflexivity).
  all: try (destruct Hskip1 as [E1 E2]; [right; lra|];
            destruct Hskip2 as [E3 E4]; [left; lra|]; lra).
  all: try (destruct Hfire1 as [E1 E2]; [lra | lra |];
            destruct Hskip2 as [E3 E4]; [left; lra|]; lra).
  all: try (destruct Hskip1 as [E1 E2]; [left; lra|];
            destruct Hskip2 as [E3 E4]; [right; lra|]; lra).
  all: try (destruct Hskip1 as [E1 E2]; [right; lra|];
            destruct Hskip2 as [E3 E4]; [right; lra|];
            match goal with
            | H : _ == 0 |- _ => rewrite H in Hp0
            end; lra).
Qed.

Lemma tickAxis_bounce_witness :
  exists v' p',
    tickAxis default_settings
      (coasting_cache {| X := 1; Y := 0 |} {| X := 395; Y := 100 |} 1000)
      (Fin 100) AX = (Fin v', Fin p') /\
    v' == - (9 # 20) /\ p' == 400.
Proof.
  destruct (tickAxis_bounce default_settings
              (coasting_cache {| X := 1; Y := 0 |} {| X := 395; Y := 100 |} 1000)
              AX 1 395 0 400 100 1 (1 # 2))
    as (v' & p' & Hrun & Hmax & _).
  - reflexivity.
  - reflexivity.
  - reflexivity.
  - reflexivity.
  - reflexivity.
  - reflexivity.
  - reflexivity.
  - exists v', p'. split; [exact Hrun|].
    destruct Hmax as [E1 E2]; [reflexivity | vm_compute; discriminate |].
    split; [rewrite E1; reflexivity | exact E2].
Defined.

Lemma Qmult_neg_nonneg (a b : Q) : a < 0 -> 0 <= b -> a * b <= 0.
Proof.
  intros Ha Hb.
  assert (H : 0 <= (- a) * b) by (apply Qmult_le_0_compat; lra).
  lra.
Qed.

(** X19.  No tunnelling: an axis of a coasting object that is within
    its bounds is within its bounds after the tick, however long the
    frame took and whatever the friction and the bounce friction. *)
Theorem tickAxis_stays_within_bounds (st : Settings) (c : Cache)
    (axis : Axis) (v p lo hi dt f bf : Q) :
  getXY axis (velocity c) = Fin v ->
  getXY axis (position c) = Fin p ->
  bget Bmin axis (objectBounds c) = Fin lo ->
  bget Bmax axis (objectBounds c) = Fin hi ->
  friction st = Fin f ->
  bounceFriction st = Fin bf ->
  0 <= dt -> lo <= p -> p <= hi ->
  exists v' p',
    tickAxis st c (Fin dt) axis = (Fin v', Fin p') /\
    lo <= p' /\ p' <= hi.
Proof.
  intros Hv Hp Hlo Hhi Hf Hbf Hdt Hp1 Hp2.
  unfold tickAxis. rewrite Hv, Hp, Hf. cbn [fold_left].
  destruct (tick_decay_finite v p dt f) as (v0 & p0 & -> & _ & Hp0).
  destruct (bounce_min_finite st c axis v0 p0 lo bf Hlo Hbf)
    as (v1 & p1 & -> & Hfire1 & Hskip1).
  destruct (bounce_max_finite st c axis v1 p1 hi bf Hhi Hbf)
    as (v2 & p2 & -> & Hfire2 & Hskip2).
  exists v2, p2. split; [reflexivity|].
  destruct (Qlt_le_dec v0 0) as [Hneg|Hpos].
  - pose proof (Qmult_neg_nonneg v0 dt Hneg Hdt) as Hmove.
    destruct (Qlt_le_dec lo p0) as [Hin|Hout].
    + destruct Hskip1 as [E1 E2]; [left; exact Hin|].
      destruct Hskip2 as [E3 E4]; [right; lra|]. lra.
    + destruct Hfire1 as [E1 E2]; [exact Hout | exact Hneg |].
      destruct (Qlt_le_dec p1 hi) as [Hlow|Hhigh].
      * destruct Hskip2 as [E3 E4]; [left; exact Hlow|]. lra.
      * destruct (Qlt_le_dec 0 v1) as [Hup|Hdown].
        -- destruct Hfire2 as [E3 E4]; [exact Hhigh | exact Hup |]. lra.
        -- destruct Hskip2 as [E3 E4]; [right; exact Hdown|]. lra.
  - assert (Hmove : 0 <= v0 * dt) by (apply Qmult_le_0_compat; assumption).
    destruct Hskip1 as [E1 E2]; [right; exact Hpos|].
    destruct (Qlt_le_dec p1 hi) as [Hlow|Hhigh].
    + destruct Hskip2 as [E3 E4]; [left; exact Hlow|]. lra.
    + destruct (Qlt_le_dec 0 v1) as [Hup|Hdown].
      * destruct Hfire2 as [E3 E4]; [exact Hhigh | exact Hup |]. lra.
      * destruct Hskip2 as [E3 E4]; [right; exact Hdown|].
        assert (E0 : v0 == 0) by lra. rewrite E0 in Hp0. lra.
Qed.

Lemma tickAxis_stays_within_bounds_witness :
  exists v' p',
    tickAxis default_settings
      (coasting_cache {| X := 1; Y := 0 |} {| X := 395; Y := 100 |} 1000)
      (Fin 5000) AX = (Fin v', Fin p') /\
    0 <= p' /\ p' <= 400.
Proof.
  apply (tickAxis_stays_within_bounds default_settings
           (coasting_cache {| X := 1; Y := 0 |} {| X := 395; Y := 100 |} 1000)
           AX 1 395 0 400 5000 1 (1 # 2)).
  - reflexivity.
  - reflexivity.
  - reflexivity.
  - reflexivity.
  - reflexivity.
  - reflexivity.
  - vm_compute. discriminate.
  - vm_compute. discriminate.
  - vm_compute. discriminate.
Defined.

(* ------------------------------------------------------------------ *)
(** *** Coming to rest *)
(* ------------------------------------------------------------------ *)

Lemma wrap32_small (z : Z) :
  (- 2147483648 <= z < 2147483648)%Z -> wrap32 z = z.
Proof.
  intros H. unfold wrap32.
  change (2 ^ 32)%Z with 4294967296%Z. change (2 ^ 31)%Z with 2147483648%Z.
  cbv zeta.
  destruct (Z.leb_spec 2147483648 (z mod 4294967296)) as [H1|H1];
    Z.div_mod_to_equations; lia.
Qed.

Lemma quot_truncates (n : Z) (d : positive) :
  let z := Z.quot n (Zpos d) in
  (Z.abs z * Zpos d <= Z.abs n)%Z /\
  (Z.abs (n - z * Zpos d) < Zpos d)%Z /\
  (0 <= n * z)%Z.
Proof.
  cbv zeta. destruct (Z.le_gt_cases 0 n) as [Hn|Hn].
  - rewrite Z.quot_div_nonneg by lia.
    pose proof (Z.div_mod n (Zpos d) ltac:(lia)) as E.
    pose proof (Z.mod_pos_bound n (Zpos d) ltac:(lia)) as B.
    assert (0 <= n / Zpos d)%Z by (apply Z.div_pos; lia).
    set (q := (n / Zpos d)%Z) in *. set (r := (n mod Zpos d)%Z) in *.
    clearbody q r. nia.
  - assert (En : exists m, n = (- m)%Z /\ (0 < m)%Z)
      by (exists (- n)%Z; lia).
    destruct En as (m & -> & Hm).
    rewrite Z.quot_opp_l by lia. rewrite Z.quot_div_nonneg by lia.
    pose proof (Z.div_mod m (Zpos d) ltac:(lia)) as E.
    pose proof (Z.mod_pos_bound m (Zpos d) ltac:(lia)) as B.
    assert (0 <= m / Zpos d)%Z by (apply Z.div_pos; lia).
    set (q := (m / Zpos d)%Z) in *. set (r := (m mod Zpos d)%Z) in *.
    clearbody q r. nia.
Qed.

(** [~~x] on a rational inside the signed 32-bit range is [x] with its
    fraction cut off. *)
Lemma to_int32_truncates (x : Q) :
  Qabs x < 2147483648 ->
  exists z : Z,
    to_int32 (Fin x) = Fin (inject_Z z) /\
    Qabs (inject_Z z) <= Qabs x /\
    Qabs (x - inject_Z z) < 1 /\
    0 <= x * inject_Z z.
Proof.
  intros Hb. exists (Z.quot (Qnum x) (Zpos (Qden x))).
  destruct x as [n d]. cbn [Qnum Qden to_int32].
  pose proof (quot_truncates n d) as (H1 & H2 & H3). cbv zeta in *.
  set (z := Z.quot n (Zpos d)) in *. clearbody z.
  revert Hb. unfold Qlt, Qle, Qabs, Qminus, Qplus, Qopp, Qmult, inject_Z.
  cbn [Qnum Qden]. rewrite ?Pos.mul_1_r, ?Z.mul_1_r, ?Z.mul_1_l.
  intros Hb. rewrite wrap32_small by nia.
  split; [reflexivity|]. repeat split; nia.
Qed.

(** X20.  An object that comes to rest in a frame (both speeds below
    0.001 px/ms) is left on whole pixels: each coordinate of the
    position of the tick, inside the 32-bit range, is cut to the integer
    next to it towards zero, and that position is what
    [deceleration-end] and then [stop] report. *)
Theorem stop_truncates_position (now : Z) (s : State) (rm : list nat)
    (o : objid) (i : nat) (c : Cache) (vx vy : num) (px py : Q) :
  draggable_cache (getObj s o) = Some c ->
  tickAxis (settings s) c (of_Z (now - time c)) AX = (vx, Fin px) ->
  tickAxis (settings s) c (of_Z (now - time c)) AY = (vy, Fin py) ->
  belowThreshold {| X := vx; Y := vy |} = true ->
  Qabs px < 2147483648 -> Qabs py < 2147483648 ->
  exists s' c' (zx zy : Z),
    progressObject now (s, rm) o i = Ok (s', rm ++ [i]) /\
    draggable_cache (getObj s' o) = Some c' /\
    position c' = {| X := Fin (inject_Z zx); Y := Fin (inject_Z zy) |} /\
    (Qabs (inject_Z zx) <= Qabs px /\ Qabs (px - inject_Z zx) < 1) /\
    (Qabs (inject_Z zy) <= Qabs py /\ Qabs (py - inject_Z zy) < 1) /\
    emitted s' = emitted s ++
      [EObject "deceleration-end" o (position c');
       EObject "stop" o (position c')].
Proof.
  intros Hc HX HY Hstop Hbx Hby.
  destruct (progressObject_cached now s rm o i c vx (Fin px) vy (Fin py)
              Hc HX HY)
    as (s' & c' & Hrun & Hc' & _ & Hpos & _ & _ & _ & _ & _ & _ & _ & _ & _
        & Hem).
  rewrite Hstop in Hrun, Hpos, Hem.
  destruct (to_int32_truncates px Hbx) as (zx & Ezx & Hx1 & Hx2 & _).
  destruct (to_int32_truncates py Hby) as (zy & Ezy & Hy1 & Hy2 & _).
  rewrite Ezx, Ezy in Hpos.
  exists s', c', zx, zy. by repeat split.
Qed.

Lemma stop_truncates_position_witness :
  exists s' c' zx zy,
    progressObject 1016 (two_stopping_one_moving, []) 0%nat 0%nat
      = Ok (s', [0%nat]) /\
    draggable_cache (getObj s' 0%nat) = Some c' /\
    position c' = {| X := Fin (inject_Z zx); Y := Fin (inject_Z zy) |}.
Proof.
  epose proof (stop_truncates_position 1016 two_stopping_one_moving []
                 0%nat 0%nat _ _ _ _ _) as H.
  edestruct H as (s' & c' & zx & zy & Hrun & Hc' & Hpos & _).
  - vm_compute. reflexivity.
  - vm_compute. reflexivity.
  - vm_compute. reflexivity.
  - vm_compute. reflexivity.
  - vm_compute. reflexivity.
  - vm_compute. reflexivity.
  - exists s', c', zx, zy. split; [exact Hrun|].
    split; [exact Hc' | exact Hpos].
Defined.

(* ------------------------------------------------------------------ *)
(** *** The transform written to the element *)
(* ------------------------------------------------------------------ *)

Lemma setObjectMatrix_take4 (c : Cache) (pos : XY) :
  take 4 (setObjectMatrix c pos) = take 4 (matrix c).
Proof.
  unfold setObjectMatrix. cbn [fold_left].
  rewrite !take_insert by (cbn; lia). reflexivity.
Qed.

(** The pass over one object leaves the first four entries of every
    matrix and every cached geometry alone. *)
Lemma progressObject_linear_part (now : Z) (s s' : State)
    (rm rm' : list nat) (o0 : objid) (i : nat) :
  progressObject now (s, rm) o0 i = Ok (s', rm') ->
  forall o c,
    draggable_cache (getObj s o) = Some c ->
    exists c',
      draggable_cache (getObj s' o) = Some c' /\
      take 4 (matrix c') = take 4 (matrix c) /\
      geom c' = geom c.
Proof.
  unfold progressObject, getCache.
  destruct (draggable_cache (getObj s o0)) as [c0|] eqn:Hc0;
    cbn [defined bind]; [|discriminate].
  destruct (tickAxis _ _ _ AX) as [vx px].
  destruct (tickAxis _ _ _ AY) as [vy py].
  intros [= <- _] o c Hc.
  destruct (decide (o = o0)) as [->|Hne].
  - rewrite cache_set_cache_eq. eexists. split; [reflexivity|].
    cbn [matrix geom]. rewrite Hc0 in Hc. injection Hc as <-.
    split; [apply setObjectMatrix_take4 | reflexivity].
  - rewrite cache_set_cache_ne by congruence.
    exists c. split; [|done].
    destruct (belowThreshold _); by rewrite ?getObj_emit.
Qed.

Lemma forEach_stack_linear_part (now : Z) (stack : list objid) :
  forall (i : nat) (s s' : State) (rm rm' : list nat),
    forEach_stack now stack i (s, rm) = Ok (s', rm') ->
    forall o c,
      draggable_cache (getObj s o) = Some c ->
      exists c',
        draggable_cache (getObj s' o) = Some c' /\
        take 4 (matrix c') = take 4 (matrix c) /\
        geom c' = geom c.
Proof.
  induction stack as [|o0 stack IH]; intros i s s' rm rm';
    cbn [forEach_stack].
  - intros [= <- _] o c Hc. by exists c.
  - destruct (progressObject now (s, rm) o0 i) as [[s1 rm1]|] eqn:Hstep;
      cbn [bind]; [|discriminate].
    intros Hrest o c Hc.
    destruct (progressObject_linear_part now s s1 rm rm1 o0 i Hstep o c Hc)
      as (c1 & Hc1 & Hm1 & Hg1).
    destruct (IH (S i) s1 s' rm1 rm' Hrest o c1 Hc1) as (c' & Hc' & Hm' & Hg').
    exists c'. split; [exact Hc'|]. by rewrite Hm', Hg'.
Qed.

(** X21.  Dragging and coasting only ever rewrite the translation of an
    element's transform.  In a reachable state, a pointer-move, a
    pointer-up, a frame, or a pointer-down on another object goes
    through and leaves the first four entries of the object's cached
    matrix (its scale, rotation and skew) and its cached margin and
    rectangle as they were. *)
Theorem transform_linear_part_kept (s : State) (a : Action) (o : objid)
    (c : Cache) :
  reachable s ->
  draggable_cache (getObj s o) = Some c ->
  (forall event dom now,
     a = MouseDown event dom now -> currentTarget event <> o) ->
  exists s' c',
    step s a = Ok s' /\
    draggable_cache (getObj s' o) = Some c' /\
    take 4 (matrix c') = take 4 (matrix c) /\
    geom c' = geom c.
Proof.
  intros Hreach Hc Hgrab.
  destruct (sound_step s a (sound_reachable s Hreach)) as (s' & Hstep & _).
  exists s'. rewrite Hstep.
  cut (exists c', draggable_cache (getObj s' o) = Some c' /\
                  take 4 (matrix c') = take 4 (matrix c) /\
                  geom c' = geom c);
    [intros (c' & H); by exists c'|].
  destruct a as [event dom now|event now|now|now]; cbn [step] in Hstep.
  - (* onMouseDown on another object *)
    specialize (Hgrab event dom now eq_refl).
    exists c. split; [|done].
    destruct (draggable_enabled (getObj s (currentTarget event))) eqn:Hen.
    + destruct (onMouseDown_spec s event dom now Hen)
        as (s1 & c1 & Hrun & _ & _ & _ & _ & _ & _ & _ & _ & _ & _ & _ & _
            & Hother & _).
      rewrite Hrun in Hstep. injection Hstep as <-.
      by rewrite Hother by congruence.
    + unfold onMouseDown in Hstep. rewrite Hen in Hstep.
      cbn [negb] in Hstep. by injection Hstep as <-.
  - (* onMouseMove *)
    unfold onMouseMove, getCache in Hstep.
    destruct (currentObject s) as [o1|];
      [|injection Hstep as <-; by exists c].
    destruct (draggable_mouseIsDown (getObj s o1));
      [|injection Hstep as <-; by exists c].
    destruct (draggable_cache (getObj s o1)) as [c1|] eqn:Hc1;
      cbn [defined bind] in Hstep; [|discriminate].
    destruct (containerCache s) as [g|]; cbn [defined bind] in Hstep;
      [|discriminate].
    injection Hstep as <-. rewrite getObj_emit.
    destruct (decide (o = o1)) as [->|Hne].
    + rewrite cache_set_cache_eq. eexists. split; [reflexivity|].
      cbn [matrix geom]. rewrite Hc1 in Hc. injection Hc as <-.
      split; [apply setObjectMatrix_take4 | reflexivity].
    + rewrite cache_set_cache_ne by congruence. by exists c.
  - (* onMouseUp *)
    destruct (currentObject s) as [o1|] eqn:Hcur.
    2:{ unfold onMouseUp in Hstep. rewrite Hcur in Hstep.
        injection Hstep as <-. by exists c. }
    destruct (draggable_cache (getObj s o1)) as [c1|] eqn:Hc1.
    2:{ unfold onMouseUp, getCache in Hstep. rewrite Hcur, Hc1 in Hstep.
        discriminate Hstep. }
    destruct (onMouseUp_spec s o1 c1 now Hcur Hc1)
      as (s1 & Hrun & _ & _ & _ & Hother & Hrest).
    rewrite Hrun in Hstep. injection Hstep as <-.
    destruct (decide (o = o1)) as [->|Hne].
    + rewrite Hc1 in Hc. injection Hc as <-.
      destruct (_ && _); destruct Hrest as (Hc' & _); rewrite Hc';
        eexists; (split; [reflexivity|]); done.
    + rewrite Hother by exact Hne. by exists c.
  - (* a frame *)
    unfold frame in Hstep.
    destruct (animationFrames s) as [|n];
      [injection Hstep as <-; by exists c|].
    unfold progressAnimations in Hstep. cbn [decelerationStack] in Hstep.
    match type of Hstep with
    | context [forEach_stack now _ 0 (?s0, [])] =>
        destruct (forEach_stack now (decelerationStack s) 0 (s0, []))
          as [[s1 rm]|] eqn:Hpass; cbn [bind] in Hstep; [|discriminate];
        destruct (forEach_stack_linear_part now (decelerationStack s) 0 s0 s1
                    [] rm Hpass o c Hc) as (c' & Hc' & Hm' & Hg')
    end.
    exists c'. split; [|by split]. rewrite <- Hc'.
    destruct (le _ _); [|destruct (animationLoopRunning s1)];
      cbn [fst snd] in Hstep; injection Hstep as <-; reflexivity.
Qed.

Lemma transform_linear_part_kept_witness :
  exists s' c',
    step released (Frame 1116) = Ok s' /\
    draggable_cache (getObj s' 0%nat) = Some c' /\
    take 4 (matrix c') = [Fin 1; Fin 0; Fin 0; Fin 1].
Proof.
  epose proof (transform_linear_part_kept released (Frame 1116) 0%nat _)
    as H.
  edestruct H as (s' & c' & Hrun & Hc' & Hm & _).
  - exists default_settings, [0%nat],
      [MouseDown (pointer 20 20 0%nat) scene_dom 1000;
       MouseMove (pointer 70 20 0%nat) 1100; MouseUp 1100].
    vm_compute. reflexivity.
  - vm_compute. reflexivity.
  - intros event dom now [=].
  - exists s', c'. split; [exact Hrun|]. split; [exact Hc'|].
    rewrite Hm. reflexivity.
Defined.

(** X22.  The two versions of [setObjectMatrix] in the file agree on an
    element that is not scaled and has no margin: both leave the first
    four entries alone and write the position as the translation. *)
Theorem setObjectMatrix_versions_agree (c : Cache) (x y w h : Q)
    (b c0 e f : num) :
  matrix c = [Fin 1; b; c0; Fin 1; e; f] ->
  rect_width (rect (geom c)) = Fin w ->
  rect_height (rect (geom c)) = Fin h ->
  margin (geom c) = {| X := 0; Y := 0 |} ->
  exists tx ty tx' ty',
    setObjectMatrix c {| X := Fin x; Y := Fin y |}
      = [Fin 1; b; c0; Fin 1; Fin tx; Fin ty] /\
    SecondClass.setObjectMatrix c {| X := Fin x; Y := Fin y |}
      = [Fin 1; b; c0; Fin 1; Fin tx'; Fin ty'] /\
    tx == x /\ ty == y /\ tx' == x /\ ty' == y.
Proof.
  intros Hm Hw Hh Hmargin.
  unfold setObjectMatrix, SecondClass.setObjectMatrix. rewrite Hm, Hmargin.
  cbn [fold_left lookup list_lookup default getXY X Y rect_dim].
  rewrite Hw, Hh. unfold div.
  replace (Qeq_bool 1 0) with false by (vm_compute; reflexivity).
  replace (Qeq_bool 2 0) with false by (vm_compute; reflexivity).
  cbn [sub mul neg add].
  eexists _, _, _, _. split; [reflexivity|]. split; [reflexivity|].
  repeat split; try ring; field.
Qed.

Lemma setObjectMatrix_versions_agree_witness :
  exists tx ty tx' ty',
    setObjectMatrix
      (coasting_cache {| X := 0; Y := 0 |} {| X := 50; Y := 10 |} 1000)
      {| X := Fin 60; Y := Fin 20 |}
      = [Fin 1; Fin 0; Fin 0; Fin 1; Fin tx; Fin ty] /\
    SecondClass.setObjectMatrix
      (coasting_cache {| X := 0; Y := 0 |} {| X := 50; Y := 10 |} 1000)
      {| X := Fin 60; Y := Fin 20 |}
      = [Fin 1; Fin 0; Fin 0; Fin 1; Fin tx'; Fin ty'] /\
    tx == tx' /\ ty == ty'.
Proof.
  destruct (setObjectMatrix_versions_agree
              (coasting_cache {| X := 0; Y := 0 |} {| X := 50; Y := 10 |} 1000)
              60 20 100 50 (Fin 0) (Fin 0) (Fin 50) (Fin 10))
    as (tx & ty & tx' & ty' & H1 & H2 & E1 & E2 & E3 & E4).
  - reflexivity.
  - reflexivity.
  - reflexivity.
  - reflexivity.
  - exists tx, ty, tx', ty'. split; [exact H1|]. split; [exact H2|].
    split; [by rewrite E1, E3 | by rewrite E2, E4].
Defined.

(** X23.  The bounds of the second version of the class, which leaves
    the margin out: on finite rectangles the origin always lies between
    the lower and the upper bound of each axis, so the bounds are
    ordered; and they are the bounds the first version gives for an
    object without a margin. *)
Theorem second_bounds_contain_origin (ol ot ow oh cl ct cw ch cmx cmy : Q) :
  let bounds := SecondClass.getBoundsRelativeTo (finRect ol ot ow oh)
                                                (finRect cl ct cw ch) in
  let first := getBoundsRelativeTo (finGeom 0 0 ol ot ow oh)
                                   (finGeom cmx cmy cl ct cw ch) in
  (le (minX bounds) 0 = true /\ le 0 (maxX bounds) = true) /\
  (le (minY bounds) 0 = true /\ le 0 (maxY bounds) = true) /\
  minX bounds =n= minX first /\ maxX bounds =n= maxX first /\
  minY bounds =n= minY first /\ maxY bounds =n= maxY first.
Proof.
  cbv zeta. unfold SecondClass.getBoundsRelativeTo, getBoundsRelativeTo.
  num_simpl.
  repeat split; qcases; num_simpl; qcases;
    try reflexivity; try (exfalso; lra); try lra.
Qed.

Lemma second_bounds_contain_origin_witness :
  le 0 (maxX (SecondClass.getBoundsRelativeTo (finRect 0 0 100 50)
                                              (finRect 0 0 500 300))) = true.
Proof.
  pose proof (second_bounds_contain_origin 0 0 100 50 0 0 500 300 0 0) as H.
  cbv zeta in H. destruct H as ((_ & H) & _). exact H.
Defined.

(* ------------------------------------------------------------------ *)
(** *** The events of a release *)
(* ------------------------------------------------------------------ *)

(** X24.  Every release of a dragged object reports [drag-end] and then
    exactly one of [deceleration-start] and [stop], all with the
    position of the release, and ends the drag.  With
    [deceleration-start] the object has been appended to the stack and
    exactly one frame is pending; with [stop] the stack and the pending
    frames are as before. *)
Theorem release_reports_once (s : State) (o : objid) (now : Z) :
  reachable s ->
  currentObject s = Some o ->
  exists s' p,
    onMouseUp s now = Ok s' /\
    currentObject s' = None /\
    ((emitted s' = emitted s ++
        [EObject "drag-end" o p; EObject "deceleration-start" o p] /\
      decelerationStack s' = decelerationStack s ++ [o] /\
      animationLoopRunning s' = true /\
      animationFrames s' = 1%nat)
     \/
     (emitted s' = emitted s ++
        [EObject "drag-end" o p; EObject "stop" o p] /\
      decelerationStack s' = decelerationStack s /\
      animationLoopRunning s' = animationLoopRunning s /\
      animationFrames s' = animationFrames s)).
Proof.
  intros Hreach Hcur.
  destruct (sound_reachable s Hreach) as (Hone & (_ & Hcache) & _).
  destruct (Hcache o Hcur) as [[c Hc] _].
  destruct (onMouseUp_spec s o c now Hcur Hc)
    as (s' & Hrun & Hcur' & _ & _ & _ & Hrest).
  exists s', (position c). split; [exact Hrun|]. split; [exact Hcur'|].
  destruct (_ && _).
  - left. destruct Hrest as (_ & Hst & Hflag & Hfr & Hem).
    split; [exact Hem|]. split; [exact Hst|]. split; [exact Hflag|].
    rewrite Hfr. unfold one_frame_chain in Hone. rewrite Hone.
    by destruct (animationLoopRunning s).
  - right. destruct Hrest as (_ & Hst & Hflag & Hfr & _ & Hem).
    by repeat split.
Qed.

Lemma release_reports_once_witness :
  exists s' p,
    onMouseUp dragging 1100 = Ok s' /\
    emitted s' = emitted dragging ++
      [EObject "drag-end" 0%nat p; EObject "deceleration-start" 0%nat p].
Proof.
  destruct (release_reports_once dragging 0%nat 1100)
    as (s' & p & Hrun & _ & [(Hem & _) | (_ & Hst & _)]).
  - exists default_settings, [0%nat],
      [MouseDown (pointer 20 20 0%nat) scene_dom 1000;
       MouseMove (pointer 70 20 0%nat) 1100].
    vm_compute. reflexivity.
  - reflexivity.
  - exists s', p. split; [exact Hrun | exact Hem].
  - exfalso. revert Hrun Hst. vm_compute. intros [= <-]. discriminate.
Defined.

Lemma hasSpeed_zero (v : XY) :
  X v =n= 0 -> Y v =n= 0 -> hasSpeed v = false.
Proof.
  destruct v as [[x| | |] [y| | |]]; cbn [X Y eqv]; try done.
  intros Ex Ey. unfold hasSpeed, gt, lt. cbn [X Y Math_abs].
  destruct (Qle_bool_reflect (Qabs x) 0) as [H1|H1];
    destruct (Qle_bool_reflect (Qabs y) 0) as [H2|H2]; try reflexivity;
    exfalso; [apply H2; rewrite Ey | apply H1; rewrite Ex
             | apply H1; rewrite Ex]; apply Qle_refl.
Qed.

(** The velocity [onMouseUp] gives an axis that did not move, at a
    position within the bounds, is zero. *)
Lemma springBack_at_rest (b : Bounds) (pos : XY) (axis : Axis) (p lo hi : Q) :
  getXY axis pos = Fin p ->
  bget Bmin axis b = Fin lo ->
  bget Bmax axis b = Fin hi ->
  lo <= p -> p <= hi ->
  springBack b pos axis 0 =n= 0.
Proof.
  intros Hp Hlo Hhi H1 H2.
  destruct (springBack_finite b pos axis 0 p lo hi Hp Hlo Hhi)
    as (Hin & Hmin & Hmax).
  destruct (Qlt_le_dec lo p) as [Hl|Hl]; [destruct (Qlt_le_dec p hi) as [Hh|Hh]|].
  - by rewrite Hin.
  - specialize (Hmax Hh).
    destruct (springBack b pos axis 0); cbn [eqv] in *; try done.
    rewrite Hmax. qdiv_consts. lra.
  - assert (Hord : lo <= hi) by lra. specialize (Hmin Hord Hl).
    destruct (springBack b pos axis 0); cbn [eqv] in *; try done.
    rewrite Hmin. qdiv_consts. lra.
Qed.

(** X25.  A click, a grab released without a move, on an object that
    lies within its bounds starts no coast: [drag-start], [drag-end]
    and [stop] are reported with the object's offset in the container,
    no frame is requested and the object is in the stack no more. *)
Theorem click_does_not_coast (s : State) (event : MouseEvent) (dom : Dom)
    (t0 t1 : Z) (cx cy gx gy lox hix loy hiy : Q) :
  draggable_enabled (getObj s (currentTarget event)) = true ->
  getCursorPositionRelativeTo event (dom_container dom)
    = {| X := Fin cx; Y := Fin cy |} ->
  getCursorPositionRelativeTo event (dom_object dom)
    = {| X := Fin gx; Y := Fin gy |} ->
  getBoundsRelativeTo (dom_object dom) (dom_container dom)
    = {| minX := Fin lox; minY := Fin loy; maxX := Fin hix; maxY := Fin hiy |} ->
  lox <= cx - gx -> cx - gx <= hix ->
  loy <= cy - gy -> cy - gy <= hiy ->
  exists s1 s2 p,
    onMouseDown s event dom t0 = Ok s1 /\
    onMouseUp s1 t1 = Ok s2 /\
    emitted s2 = emitted s ++
      [EObject "drag-start" (currentTarget event) p;
       EObject "drag-end" (currentTarget event) p;
       EObject "stop" (currentTarget event) p] /\
    X p =n= cx - gx /\ Y p =n= cy - gy /\
    currentObject s2 = None /\
    animationFrames s2 = animationFrames s /\
    decelerationStack s2 `sublist_of` decelerationStack s.
Proof.
  intros Hen Hcont Hgrab Hb Hx1 Hx2 Hy1 Hy2.
  destruct (onMouseDown_spec s event dom t0 Hen)
    as (s1 & c1 & Hrun1 & Hcur & Hc1 & _ & _ & _ & Hv & Hmoved & _ & _ & Hb1
        & _ & Hpos & _ & _ & _ & _ & Hfr1 & Hst1 & Hem1).
  rewrite Hb in Hb1.
  pose proof (Hpos AX) as HX. pose proof (Hpos AY) as HY.
  rewrite Hcont, Hgrab in HX, HY. cbn [getXY X Y sub neg add] in HX, HY.
  assert (Hrel : releaseVelocity c1 t1 =
                 {| X := springBack (objectBounds c1) (position c1) AX 0;
                    Y := springBack (objectBounds c1) (position c1) AY 0 |}).
  { unfold releaseVelocity. rewrite Hmoved, andb_false_r, Hv. reflexivity. }
  assert (Hslow : hasSpeed (releaseVelocity c1 t1) = false).
  { rewrite Hrel. apply hasSpeed_zero; cbn [X Y].
    - eapply (springBack_at_rest _ _ AX _ lox hix);
        [exact HX | by rewrite Hb1 | by rewrite Hb1 | lra | lra].
    - eapply (springBack_at_rest _ _ AY _ loy hiy);
        [exact HY | by rewrite Hb1 | by rewrite Hb1 | lra | lra]. }
  destruct (onMouseUp_spec s1 (currentTarget event) c1 t1 Hcur Hc1)
    as (s2 & Hrun2 & Hcur2 & _ & _ & _ & Hrest).
  rewrite Hslow, andb_false_r in Hrest.
  destruct Hrest as (_ & Hst2 & _ & Hfr2 & _ & Hem2).
  exists s1, s2, (position c1).
  split; [exact Hrun1|]. split; [exact Hrun2|].
  split; [by rewrite Hem2, Hem1, <- app_assoc|].
  split; [rewrite HX; cbn [eqv]; ring|].
  split; [rewrite HY; cbn [eqv]; ring|].
  split; [exact Hcur2|]. split; [by rewrite Hfr2, Hfr1|].
  rewrite Hst2, Hst1. destruct (indexOf _ _); [apply sublist_delete | done].
Qed.

Lemma click_does_not_coast_witness :
  exists s1 s2 p,
    onMouseDown (new_state default_settings [0%nat])
      (pointer 20 20 0%nat) scene_dom 1000 = Ok s1 /\
    onMouseUp s1 1080 = Ok s2 /\
    emitted s2 =
      [EObject "drag-start" 0%nat p; EObject "drag-end" 0%nat p;
       EObject "stop" 0%nat p].
Proof.
  destruct (click_does_not_coast (new_state default_settings [0%nat])
              (pointer 20 20 0%nat) scene_dom 1000 1080
              20 20 20 20 0 400 0 250)
    as (s1 & s2 & p & Hrun1 & Hrun2 & Hem & _).
  - reflexivity.
  - vm_compute. reflexivity.
  - vm_compute. reflexivity.
  - vm_compute. reflexivity.
  - vm_compute. discriminate.
  - vm_compute. discriminate.
  - vm_compute. discriminate.
  - vm_compute. discriminate.
  - exists s1, s2, p. split; [exact Hrun1|]. split; [exact Hrun2 | exact Hem].
Defined.

(* ------------------------------------------------------------------ *)
(** *** One frame over the whole stack *)
(* ------------------------------------------------------------------ *)

(** What a pass over one object that went through has done. *)
Lemma progressObject_inv (now : Z) (s s' : State) (rm rm' : list nat)
    (o : objid) (i : nat) :
  progressObject now (s, rm) o i = Ok (s', rm') ->
  exists c c',
    draggable_cache (getObj s o) = Some c /\
    draggable_cache (getObj s' o) = Some c' /\
    velocity c' =
      {| X := fst (tickAxis (settings s) c (of_Z (now - time c)) AX);
         Y := fst (tickAxis (settings s) c (of_Z (now - time c)) AY) |} /\
    time c' = now /\
    objectBounds c' = objectBounds c /\
    settings s' = settings s /\
    (forall o', o' <> o ->
       draggable_cache (getObj s' o') = draggable_cache (getObj s o')).
Proof.
  intros Hrun.
  destruct (draggable_cache (getObj s o)) as [c|] eqn:Hc.
  2:{ unfold progressObject, getCache in Hrun. rewrite Hc in Hrun.
      discriminate Hrun. }
  destruct (tickAxis (settings s) c (of_Z (now - time c)) AX) as [vx px] eqn:HX.
  destruct (tickAxis (settings s) c (of_Z (now - time c)) AY) as [vy py] eqn:HY.
  destruct (progressObject_cached now s rm o i c vx px vy py Hc HX HY)
    as (s1 & c1 & Hrun1 & Hc1 & Hv1 & _ & Hb1 & Ht1 & Hset1 & _ & _ & _ & _
        & _ & Hother & _).
  rewrite Hrun1 in Hrun. injection Hrun as <- _.
  exists c, c1. rewrite HX, HY. by repeat split.
Qed.

(** A pass over a stack without duplicates ticks each of its objects
    once, from the cache the object had before the pass. *)
Lemma forEach_stack_ticks (now : Z) (stack : list objid) :
  NoDup stack ->
  forall (i : nat) (s s' : State) (rm rm' : list nat),
    forEach_stack now stack i (s, rm) = Ok (s', rm') ->
    settings s' = settings s /\
    (forall o, o ∉ stack ->
       draggable_cache (getObj s' o) = draggable_cache (getObj s o)) /\
    (forall o c,
       o ∈ stack -> draggable_cache (getObj s o) = Some c ->
       exists c',
         draggable_cache (getObj s' o) = Some c' /\
         velocity c' =
           {| X := fst (tickAxis (settings s) c (of_Z (now - time c)) AX);
              Y := fst (tickAxis (settings s) c (of_Z (now - time c)) AY) |} /\
         time c' = now /\
         objectBounds c' = objectBounds c).
Proof.
  induction 1 as [|o0 stack Hnot Hnd IH]; intros i s s' rm rm';
    cbn [forEach_stack].
  - intros [= <- <-]. split; [reflexivity|]. split; [done|].
    intros o c Hin. by apply not_elem_of_nil in Hin.
  - destruct (progressObject now (s, rm) o0 i) as [[s1 rm1]|] eqn:Hstep;
      cbn [bind]; [|discriminate].
    intros Hrest.
    destruct (progressObject_inv now s s1 rm rm1 o0 i Hstep)
      as (c0 & c1 & Hc0 & Hc1 & Hv1 & Ht1 & Hb1 & Hset1 & Hother1).
    destruct (IH (S i) s1 s' rm1 rm' Hrest) as (Hset & Hother & Htick).
    split; [by rewrite Hset|]. split.
    + intros o [Hne Hout]%not_elem_of_cons.
      rewrite Hother by exact Hout. by apply Hother1.
    + intros o c [-> | Hin]%elem_of_cons Hc.
      * rewrite Hc0 in Hc. injection Hc as <-.
        exists c1. rewrite Hother by exact Hnot. by repeat split.
      * assert (Hne : o <> o0) by (intros ->; contradiction).
        rewrite <- Hother1 in Hc by exact Hne.
        destruct (Htick o c Hin Hc) as (c' & Hc' & Hv' & Ht' & Hb').
        exists c'. rewrite <- Hset1. by repeat split.
Qed.

(** X26.  While the loop runs, a frame ticks every object of the stack
    exactly once, each from its own cache: its new velocity is that of
    one tick over the time since its own last update, its time stamp is
    that of the frame, its bounds are kept.  The other objects of the
    stack do not matter to it. *)
Theorem frame_ticks_each_object (s : State) (now : Z) (o : objid) (c : Cache) :
  reachable s ->
  animationLoopRunning s = true ->
  o ∈ decelerationStack s ->
  draggable_cache (getObj s o) = Some c ->
  exists s' c',
    frame s now = Ok s' /\
    draggable_cache (getObj s' o) = Some c' /\
    velocity c' =
      {| X := fst (tickAxis (settings s) c (of_Z (now - time c)) AX);
         Y := fst (tickAxis (settings s) c (of_Z (now - time c)) AY) |} /\
    time c' = now /\
    objectBounds c' = objectBounds c.
Proof.
  intros Hreach Hloop Hin Hc.
  destruct (sound_reachable s Hreach) as (Hone & (Hstack & _) & _).
  destruct (stack_exclusive_reachable s Hreach) as [Hnd _].
  destruct (frame_step s now Hstack) as (s' & Hrun & _).
  unfold one_frame_chain in Hone. rewrite Hloop in Hone.
  pose proof Hrun as Hrun'. unfold frame in Hrun'. rewrite Hone in Hrun'.
  unfold progressAnimations in Hrun'. cbn [decelerationStack] in Hrun'.
  match type of Hrun' with
  | context [forEach_stack now _ 0 (?s0, [])] =>
      destruct (forEach_stack now (decelerationStack s) 0 (s0, []))
        as [[s1 rm]|] eqn:Hpass; cbn [bind] in Hrun'; [|discriminate];
      destruct (forEach_stack_ticks now (decelerationStack s) Hnd 0 s0 s1 [] rm
                  Hpass) as (_ & _ & Htick)
  end.
  destruct (Htick o c Hin Hc) as (c' & Hc' & Hv' & Ht' & Hb').
  exists s', c'. split; [exact Hrun|].
  split; [|by repeat split].
  rewrite <- Hc'.
  destruct (le _ _); [|destruct (animationLoopRunning s1)];
    cbn [fst snd] in Hrun'; injection Hrun' as <-; reflexivity.
Qed.

Lemma frame_ticks_each_object_witness :
  exists s' c',
    frame released 1116 = Ok s' /\
    draggable_cache (getObj s' 0%nat) = Some c' /\
    time c' = 1116%Z.
Proof.
  epose proof (frame_ticks_each_object released 1116 0%nat _) as H.
  edestruct H as (s' & c' & Hrun & Hc' & _ & Ht & _).
  - exists default_settings, [0%nat],
      [MouseDown (pointer 20 20 0%nat) scene_dom 1000;
       MouseMove (pointer 70 20 0%nat) 1100; MouseUp 1100].
    vm_compute. reflexivity.
  - reflexivity.
  - apply list_elem_of_singleton. reflexivity.
  - vm_compute. reflexivity.
  - exists s', c'. split; [exact Hrun|]. split; [exact Hc' | exact Ht].
Defined.

(** X27.  The oldest version of the bounds (src/unnamed/part_000) has no
    case for an object larger than its container: on finite rectangles
    its bounds of an axis are ordered exactly when the object fits in
    the container on that axis, and they are then the bounds of the
    second version. *)
Theorem first_draft_bounds_ordered_iff_fits (ol ot ow oh cl ct cw ch : Q) :
  let bounds := FirstDraft.getBoundsRelativeTo (finRect ol ot ow oh)
                                               (finRect cl ct cw ch) in
  let second := SecondClass.getBoundsRelativeTo (finRect ol ot ow oh)
                                                (finRect cl ct cw ch) in
  (le (minX bounds) (maxX bounds) = true <-> ow <= cw) /\
  (le (minY bounds) (maxY bounds) = true <-> oh <= ch) /\
  (ow <= cw -> minX bounds =n= minX second /\ maxX bounds =n= maxX second) /\
  (oh <= ch -> minY bounds =n= minY second /\ maxY bounds =n= maxY second).
Proof.
  cbv zeta. unfold FirstDraft.getBoundsRelativeTo,
    SecondClass.getBoundsRelativeTo.
  num_simpl.
  repeat split; intros; qcases; num_simpl; qcases;
    try reflexivity; try discriminate; try (exfalso; lra); try lra.
Qed.

Lemma first_draft_bounds_ordered_iff_fits_witness :
  le (minX (FirstDraft.getBoundsRelativeTo (finRect 0 0 100 50)
                                           (finRect 0 0 500 300)))
     (maxX (FirstDraft.getBoundsRelativeTo (finRect 0 0 100 50)
                                           (finRect 0 0 500 300))) = true.
Proof.
  pose proof (first_draft_bounds_ordered_iff_fits 0 0 100 50 0 0 500 300) as H.
  cbv zeta in H. destruct H as ((_ & H) & _). apply H.
  vm_compute. discriminate.
Defined.
